(** * lwan: the worker reactor, the death queue, the dispatcher and the
      slot-table lifecycle of [lwan.c], as a shallow embedding.

    The C code is a set of loops around system calls.  Each loop body is a
    function from the state it touches and the result the kernel handed back
    to the list of calls it makes and the state it leaves.  Array accesses
    outside the array and division by zero have no result ([None]).

    Machine integers are [Z] with the wrap-around written out: [int] is 32-bit
    two's complement, [unsigned int] is 32-bit, [rlim_t] is 64-bit unsigned. *)

From Stdlib Require Import ZArith Lia Bool Ascii String.
From stdpp Require Import base numbers list.

Local Open Scope Z_scope.

(** ** Machine integers *)

Definition INT_MAX : Z := 2147483647.
Definition INT_MIN : Z := -2147483648.

(** [int] arithmetic: two's-complement wrap-around on 32 bits. *)
Definition wrap_int (z : Z) : Z := (z + 2147483648) mod 4294967296 - 2147483648.

(** [unsigned int] arithmetic: modulo 2^32. *)
Definition wrap_uint (z : Z) : Z := z mod 4294967296.

(** [rlim_t] arithmetic: modulo 2^64. *)
Definition wrap_rlim (z : Z) : Z := z mod 18446744073709551616.

(** ** Constants of the system headers (Linux) *)

Definition EINTR : Z := 4.
Definition EBADF : Z := 9.
Definition EINVAL : Z := 22.

Definition EPOLLIN : Z := 1.
Definition EPOLLERR : Z := 8.
Definition EPOLLHUP : Z := 16.
Definition EPOLLRDHUP : Z := 8192.

(** ** C arrays as lists *)

Definition array_get {A} (a : list A) (i : Z) : option A :=
  if 0 <=? i then a !! Z.to_nat i else None.

Definition array_set {A} (a : list A) (i : Z) (x : A) : option (list A) :=
  match array_get a i with
  | Some _ => Some (<[Z.to_nat i := x]> a)
  | None => None
  end.

(** ** The connection slot ([lwan_request_t])

    [lwan.h] is not part of the sources at hand; the record has the fields
    [lwan.c] reads and writes, and gathers every other field of the struct in
    [request_state], whose all-bytes-zero value is [zero_state]. *)

Section Lwan.

Variable ReqState : Type.
Variable zero_state : ReqState.

Record lwan_request_t := {
  fd : Z;
  flags_alive : bool;
  flags_is_keep_alive : bool;
  time_to_die : Z;
  response_buffer : Z;          (* strbuf_t *; 0 is NULL *)
  request_state : ReqState
}.

Definition set_alive (b : bool) (r : lwan_request_t) : lwan_request_t :=
  {| fd := fd r; flags_alive := b; flags_is_keep_alive := flags_is_keep_alive r;
     time_to_die := time_to_die r; response_buffer := response_buffer r;
     request_state := request_state r |}.

Definition set_time_to_die (t : Z) (r : lwan_request_t) : lwan_request_t :=
  {| fd := fd r; flags_alive := flags_alive r;
     flags_is_keep_alive := flags_is_keep_alive r;
     time_to_die := t; response_buffer := response_buffer r;
     request_state := request_state r |}.

Definition set_response_buffer (p : Z) (r : lwan_request_t) : lwan_request_t :=
  {| fd := fd r; flags_alive := flags_alive r;
     flags_is_keep_alive := flags_is_keep_alive r;
     time_to_die := time_to_die r; response_buffer := p;
     request_state := request_state r |}.

(** What [calloc] and [memset (request, 0, sizeof *request)] leave. *)
Definition zeroed_request : lwan_request_t :=
  {| fd := 0; flags_alive := false; flags_is_keep_alive := false;
     time_to_die := 0; response_buffer := 0; request_state := zero_state |}.

(** ** Calls the code makes, in the order it makes them *)

Inductive call :=
| EpollWait (timeout : Z)
| EpollCtlDel (fd : Z)
| Perror (msg : string)
| Close (fd : Z)
| StrbufReset (buffer : Z)
| ProcessRequest (request : lwan_request_t)
| FreeDeathQueue.

(** [_reset_request]: the slot after the call, and the buffer handed to
    [strbuf_reset]. *)
Definition _reset_request (request : lwan_request_t) (fd : Z)
  : lwan_request_t * list call :=
  let response_buffer := response_buffer request in
  (set_response_buffer response_buffer
     {| fd := fd; flags_alive := false; flags_is_keep_alive := false;
        time_to_die := 0; response_buffer := 0; request_state := zero_state |},
   [StrbufReset response_buffer]).

(** ** The worker thread ([_thread]) *)

(** The part of [lwan_t] the worker reads. *)
Record lwan_t := {
  thread_max_fd : Z;            (* l->thread.max_fd *)
  thread_count : Z;             (* l->thread.count *)
  config_keep_alive_timeout : Z (* l->config.keep_alive_timeout *)
}.

(** The locals of [_thread] and the slot table it works on. *)
Record worker := {
  requests : list lwan_request_t;
  death_queue : list Z;
  death_queue_last : Z;
  death_queue_first : Z;
  death_queue_population : Z;
  death_time : Z
}.

(** One entry of [events] as [epoll_wait] filled it, together with what the
    environment answers while the entry is handled: the bytes the request
    processor finds on the socket, and the return value of [epoll_ctl]. *)
Variable Input : Type.

Record epoll_event := {
  events : Z;
  data_fd : Z;
  socket_input : Input;
  epoll_ctl_result : Z
}.

(** The external request processor, [lwan_process_request]: it receives the
    slot by pointer and may write any field. *)
Variable lwan_process_request : Input -> lwan_request_t -> lwan_request_t.

Variable l : lwan_t.

Definition with_requests (rs : list lwan_request_t) (w : worker) : worker :=
  {| requests := rs; death_queue := death_queue w;
     death_queue_last := death_queue_last w;
     death_queue_first := death_queue_first w;
     death_queue_population := death_queue_population w;
     death_time := death_time w |}.

(** The state at the first [epoll_wait]: [calloc]ed queue, all counters 0. *)
Definition thread_start (rs : list lwan_request_t) : worker :=
  {| requests := rs;
     death_queue := replicate (Z.to_nat (thread_max_fd l)) 0;
     death_queue_last := 0; death_queue_first := 0;
     death_queue_population := 0; death_time := 0 |}.

(** The timeout argument of [epoll_wait]:
    [death_queue_population ? 1000 : -1]. *)
Definition epoll_timeout (w : worker) : Z :=
  if death_queue_population w =? 0 then -1 else 1000.

(** [events[i].events & (EPOLLRDHUP | EPOLLHUP)] as a C condition. *)
Definition hung_up (e : epoll_event) : bool :=
  negb (Z.land (events e) (Z.lor EPOLLRDHUP EPOLLHUP) =? 0).

(** The keep-alive branch once [time_to_die] is written: append the fd to the
    queue when the slot is not alive.
    [death_queue[death_queue_last++] = fd; ++death_queue_population;
     death_queue_last %= max_fd; request->flags.alive = true;] *)
Definition death_queue_append (w : worker) (fd : Z) : option worker :=
  match array_set (death_queue w) (death_queue_last w) fd with
  | None => None
  | Some dq =>
    if thread_max_fd l =? 0 then None else
    Some {| requests := requests w; death_queue := dq;
            death_queue_last :=
              Z.rem (wrap_int (death_queue_last w + 1)) (thread_max_fd l);
            death_queue_first := death_queue_first w;
            death_queue_population := wrap_int (death_queue_population w + 1);
            death_time := death_time w |}
  end.

(** The body of the [for] loop over the ready events. *)
Definition handle_event (w : worker) (e : epoll_event)
  : option (list call * worker) :=
  match array_get (requests w) (data_fd e) with
  | None => None
  | Some request =>
    if hung_up e then
      (* epoll_ctl (DEL); goto invalidate_request *)
      match array_set (requests w) (data_fd e) (set_alive false request) with
      | None => None
      | Some rs =>
        Some (EpollCtlDel (data_fd e)
                :: (if epoll_ctl_result e <? 0 then [Perror "epoll_ctl"] else []),
              with_requests rs w)
      end
    else
      let '(request0, tr0) :=
        if flags_alive request then (request, [])
        else _reset_request request (data_fd e) in
      let request1 := lwan_process_request (socket_input e) request0 in
      let tr1 := tr0 ++ [ProcessRequest request0] in
      if flags_is_keep_alive request1 then
        let request2 :=
          set_time_to_die
            (wrap_uint (death_time w + config_keep_alive_timeout l)) request1 in
        if flags_alive request2 then
          match array_set (requests w) (data_fd e) request2 with
          | None => None
          | Some rs => Some (tr1, with_requests rs w)
          end
        else
          match death_queue_append w (data_fd e) with
          | None => None
          | Some w' =>
            match array_set (requests w') (data_fd e) (set_alive true request2) with
            | None => None
            | Some rs => Some (tr1, with_requests rs w')
            end
          end
      else
        (* close (fd); invalidate_request: *)
        match array_set (requests w) (data_fd e) (set_alive false request1) with
        | None => None
        | Some rs => Some (tr1 ++ [Close (data_fd e)], with_requests rs w)
        end
  end.

(** [for (i = 0; i < n_fds; ++i)] over the entries [epoll_wait] filled. *)
Fixpoint handle_events (w : worker) (es : list epoll_event)
  : option (list call * worker) :=
  match es with
  | [] => Some ([], w)
  | e :: es' =>
    match handle_event w e with
    | None => None
    | Some (tr, w') =>
      match handle_events w' es' with
      | None => None
      | Some (tr', w'') => Some (tr ++ tr', w'')
      end
    end
  end.

(** One pass of the reaping loop that found the head expired:
    [++death_queue_first; --death_queue_population;
     death_queue_first %= max_fd; request->flags.alive = false;
     close (request->fd);] *)
Definition reap_head (w : worker) (head : Z) (request : lwan_request_t)
  : option worker :=
  if thread_max_fd l =? 0 then None else
  match array_set (requests w) head (set_alive false request) with
  | None => None
  | Some rs =>
    Some {| requests := rs; death_queue := death_queue w;
            death_queue_last := death_queue_last w;
            death_queue_first :=
              Z.rem (wrap_int (death_queue_first w + 1)) (thread_max_fd l);
            death_queue_population := wrap_int (death_queue_population w - 1);
            death_time := death_time w |}
  end.

(** [while (death_queue_population) { ... }] of the timeout case.  The loop
    stops by itself; [fuel] bounds the passes the model follows. *)
Fixpoint reap (fuel : nat) (w : worker) : option (list call * worker) :=
  if death_queue_population w =? 0 then Some ([], w) else
  match fuel with
  | O => None
  | S fuel' =>
    match array_get (death_queue w) (death_queue_first w) with
    | None => None
    | Some head =>
      match array_get (requests w) head with
      | None => None
      | Some request =>
        if time_to_die request <=? death_time w then
          match reap_head w head request with
          | None => None
          | Some w' =>
            match reap fuel' w' with
            | None => None
            | Some (tr, w'') => Some (Close (fd request) :: tr, w'')
            end
          end
        else Some ([], w)
      end
    end
  end.

(** [death_time++] *)
Definition tick (w : worker) : worker :=
  {| requests := requests w; death_queue := death_queue w;
     death_queue_last := death_queue_last w;
     death_queue_first := death_queue_first w;
     death_queue_population := death_queue_population w;
     death_time := wrap_uint (death_time w + 1) |}.

(** What [epoll_wait] returned: -1 with [errno], or the filled entries
    (none on a timeout). *)
Inductive epoll_wait_result :=
| WaitError (errno : Z)
| WaitReady (es : list epoll_event).

(** Where one pass of [for (;;)] leaves the thread. *)
Inductive thread_state :=
| Running (w : worker)
| Returned.

(** One pass of the [for (;;)] loop of [_thread]. *)
Definition thread_iteration (w : worker) (r : epoll_wait_result)
  : option (list call * thread_state) :=
  let wait := EpollWait (epoll_timeout w) in
  match r with
  | WaitError errno =>
    if (errno =? EBADF) || (errno =? EINVAL) then
      Some ([wait; FreeDeathQueue], Returned)
    else if errno =? EINTR then
      Some ([wait; Perror "epoll_wait"], Running w)
    else Some ([wait], Running w)
  | WaitReady [] =>
    match reap (Z.to_nat (death_queue_population w)) (tick w) with
    | None => None
    | Some (tr, w') => Some (wait :: tr, Running w')
    end
  | WaitReady es =>
    match handle_events w es with
    | None => None
    | Some (tr, w') => Some (wait :: tr, Running w')
    end
  end.

(** The [for (;;)] loop of [_thread] along the results [epoll_wait] gives,
    first result first, until they are used up or the thread returns. *)
Fixpoint thread_run (w : worker) (rs : list epoll_wait_result)
  : option (list call * thread_state) :=
  match rs with
  | [] => Some ([], Running w)
  | r :: rs' =>
    match thread_iteration w r with
    | None => None
    | Some (tr, Returned) => Some (tr, Returned)
    | Some (tr, Running w') =>
      match thread_run w' rs' with
      | None => None
      | Some (tr', s) => Some (tr ++ tr', s)
      end
    end
  end.

(** ** Reading the death queue

    The queue holds [death_queue_population] fds, the oldest at
    [death_queue_first], each next one a step further round the ring. *)
Fixpoint ring_read (dq : list Z) (first : Z) (n : nat) : list Z :=
  match n with
  | O => []
  | S n' =>
    default 0 (array_get dq first)
      :: ring_read dq ((first + 1) mod thread_max_fd l) n'
  end.

Definition queue_fds (w : worker) : list Z :=
  ring_read (death_queue w) (death_queue_first w)
    (Z.to_nat (death_queue_population w)).

(** [requests[fd].time_to_die] *)
Definition deadline (rs : list lwan_request_t) (fd : Z) : Z :=
  match array_get rs fd with
  | Some request => time_to_die request
  | None => 0
  end.

Definition queue_deadlines (w : worker) : list Z :=
  deadline (requests w) <$> queue_fds w.

Definition non_decreasing (ds : list Z) : Prop :=
  forall (i j : nat) (x y : Z),
    (i <= j)%nat -> ds !! i = Some x -> ds !! j = Some y -> x <= y.

(** The shape [_thread] keeps its ring in: the array has [max_fd] cells, both
    cursors are inside it, the tail is [population] steps after the head, and
    every cell is an index of the slot table. *)
Record ring_ok (w : worker) : Prop := {
  ring_capacity : 0 < thread_max_fd l < INT_MAX;
  ring_length : Z.of_nat (length (death_queue w)) = thread_max_fd l;
  ring_first : 0 <= death_queue_first w < thread_max_fd l;
  ring_last :
    death_queue_last w
    = (death_queue_first w + death_queue_population w) mod thread_max_fd l;
  ring_population : 0 <= death_queue_population w <= INT_MAX;
  ring_slots :
    forall fd, fd ∈ death_queue w -> 0 <= fd < Z.of_nat (length (requests w))
}.

(** The states [_thread] gets to from its start on a table [rs0]. *)
Inductive thread_reachable (rs0 : list lwan_request_t) : worker -> Prop :=
| reachable_start : thread_reachable rs0 (thread_start rs0)
| reachable_iteration w r tr w' :
    thread_reachable rs0 w ->
    thread_iteration w r = Some (tr, Running w') ->
    thread_reachable rs0 w'.

(** Reaping as the timeout case is described: while the queue is not empty
    and the slot of the fd at its head has a deadline that is not after the
    tick, mark the slot not alive, close its fd, advance the head and
    decrement the population; stop at the first entry that has not expired. *)
Inductive reaps : worker -> list call -> worker -> Prop :=
| reaps_empty w :
    death_queue_population w = 0 -> reaps w [] w
| reaps_not_expired w head request :
    death_queue_population w <> 0 ->
    array_get (death_queue w) (death_queue_first w) = Some head ->
    array_get (requests w) head = Some request ->
    death_time w < time_to_die request ->
    reaps w [] w
| reaps_expired w head request w1 tr w2 :
    death_queue_population w <> 0 ->
    array_get (death_queue w) (death_queue_first w) = Some head ->
    array_get (requests w) head = Some request ->
    time_to_die request <= death_time w ->
    requests w1
    = <[Z.to_nat head :=
          {| fd := fd request; flags_alive := false;
             flags_is_keep_alive := flags_is_keep_alive request;
             time_to_die := time_to_die request;
             response_buffer := response_buffer request;
             request_state := request_state request |}]> (requests w) ->
    death_queue w1 = death_queue w ->
    death_queue_last w1 = death_queue_last w ->
    death_queue_first w1 = (death_queue_first w + 1) mod thread_max_fd l ->
    death_queue_population w1 = death_queue_population w - 1 ->
    death_time w1 = death_time w ->
    reaps w1 tr w2 ->
    reaps w (Close (fd request) :: tr) w2.

End Lwan.

(** The type of the slot's further state and the type of the socket input
    are implicit from here on. *)
Arguments fd {ReqState} _.
Arguments flags_alive {ReqState} _.
Arguments flags_is_keep_alive {ReqState} _.
Arguments time_to_die {ReqState} _.
Arguments response_buffer {ReqState} _.
Arguments request_state {ReqState} _.
Arguments set_alive {ReqState} _ _.
Arguments set_time_to_die {ReqState} _ _.
Arguments set_response_buffer {ReqState} _ _.
Arguments requests {ReqState} _.
Arguments death_queue {ReqState} _.
Arguments death_queue_last {ReqState} _.
Arguments death_queue_first {ReqState} _.
Arguments death_queue_population {ReqState} _.
Arguments death_time {ReqState} _.
Arguments events {Input} _.
Arguments data_fd {Input} _.
Arguments socket_input {Input} _.
Arguments epoll_ctl_result {Input} _.
Arguments epoll_timeout {ReqState} _.
Arguments _reset_request {ReqState} _ _ _.
Arguments hung_up {Input} _.
Arguments tick {ReqState} _.
Arguments with_requests {ReqState} _ _.
Arguments thread_start {ReqState} _ _.
Arguments death_queue_append {ReqState} _ _ _.
Arguments reap_head {ReqState} _ _ _ _.
Arguments reap {ReqState} _ _ _.
Arguments handle_event {ReqState} _ {Input} _ _ _ _.
Arguments handle_events {ReqState} _ {Input} _ _ _ _.
Arguments thread_iteration {ReqState} _ {Input} _ _ _ _.
Arguments Running {ReqState} _.
Arguments Returned {ReqState}.
Arguments WaitError {Input} _.
Arguments WaitReady {Input} _.
Arguments EpollWait {ReqState} _.
Arguments EpollCtlDel {ReqState} _.
Arguments Perror {ReqState} _.
Arguments Close {ReqState} _.
Arguments StrbufReset {ReqState} _.
Arguments ProcessRequest {ReqState} _.
Arguments FreeDeathQueue {ReqState}.
Arguments thread_run {ReqState} _ {Input} _ _ _ _.
Arguments queue_fds {ReqState} _ _.
Arguments deadline {ReqState} _ _.
Arguments queue_deadlines {ReqState} _ _.
Arguments ring_ok {ReqState} _ _.
Arguments thread_reachable {ReqState} _ {Input} _ _ _ _.
Arguments reaps {ReqState} _ _ _ _.

(** ** The dispatcher and the acceptor ([_schedule_request],
       [_push_request_fd], [lwan_main_loop]) *)

Definition SOCK_NONBLOCK : Z := 2048.
Definition EPOLLET : Z := 2147483648.

(** [_schedule_request], round-robin build: [static int counter = 0;
    return counter++ % l->thread.count;].  The argument is the value of the
    static counter before the call; the result is the index returned and the
    counter after the call. *)
Definition _schedule_request (l : lwan_t) (counter : Z) : option (Z * Z) :=
  if thread_count l =? 0 then None
  else Some (Z.rem counter (thread_count l), wrap_int (counter + 1)).

(** [k] calls in a row, first call first: the indices returned and the
    counter left. *)
Fixpoint schedule_requests (l : lwan_t) (k : nat) (counter : Z)
  : option (list Z * Z) :=
  match k with
  | O => Some ([], counter)
  | S k' =>
    match _schedule_request l counter with
    | None => None
    | Some (i, counter') =>
      match schedule_requests l k' counter' with
      | None => None
      | Some (rest, counter'') => Some (i :: rest, counter'')
      end
    end
  end.

Inductive acceptor_call :=
| AcceptorEpollWait (timeout : Z)
| Accept4 (flags : Z)
| AcceptorPerror (msg : string)
| EpollCtlAdd (epoll_fd : Z) (fd : Z) (event_mask : Z)
| Exit (status : Z).

Section Acceptor.

Variable l : lwan_t.

(** [l->thread.threads[i].epoll_fd] *)
Variable threads_epoll_fd : list Z.

(** The kernel's answers: the value the [n]-th call of [accept4] returns
    (counting from 0), and the value [epoll_ctl (epoll_fd, ADD, fd)] returns. *)
Variable accept4 : nat -> Z.
Variable epoll_ctl_add : Z -> Z -> Z.

Record acceptor := {
  counter : Z;                  (* the static counter of _schedule_request *)
  accept4_calls : nat           (* calls of accept4 made so far *)
}.

(** What a piece of the acceptor leaves: it goes on with a state, or the
    process has called [exit]. *)
Inductive acceptor_state :=
| Accepting (a : acceptor)
| Exited.

Definition _push_request_fd (a : acceptor) (fd : Z)
  : option (list acceptor_call * acceptor_state) :=
  match _schedule_request l (counter a) with
  | None => None
  | Some (i, counter') =>
    match array_get threads_epoll_fd i with
    | None => None
    | Some epoll_fd =>
      let mask := Z.lor (Z.lor (Z.lor EPOLLIN EPOLLRDHUP) EPOLLERR) EPOLLET in
      if epoll_ctl_add epoll_fd fd <? 0 then
        Some ([EpollCtlAdd epoll_fd fd mask; AcceptorPerror "epoll_ctl";
               Exit (-1)], Exited)
      else
        Some ([EpollCtlAdd epoll_fd fd mask],
              Accepting {| counter := counter';
                           accept4_calls := accept4_calls a |})
    end
  end.

(** [for (n_fds = epoll_wait (...); n_fds > 0; --n_fds) { ... }]: the body
    runs once for each of [n_fds], [n_fds - 1], ..., [1]. *)
Fixpoint accept_loop (n_fds : nat) (a : acceptor)
  : option (list acceptor_call * acceptor_state) :=
  match n_fds with
  | O => Some ([], Accepting a)
  | S n_fds' =>
    let child_fd := accept4 (accept4_calls a) in
    let a1 := {| counter := counter a;
                 accept4_calls := S (accept4_calls a) |} in
    if child_fd <? 0 then
      (* perror ("accept"); continue; *)
      match accept_loop n_fds' a1 with
      | None => None
      | Some (tr, s) =>
        Some (Accept4 SOCK_NONBLOCK :: AcceptorPerror "accept" :: tr, s)
      end
    else
      match _push_request_fd a1 child_fd with
      | None => None
      | Some (tr, Exited) => Some (Accept4 SOCK_NONBLOCK :: tr, Exited)
      | Some (tr, Accepting a2) =>
        match accept_loop n_fds' a2 with
        | None => None
        | Some (tr', s) => Some (Accept4 SOCK_NONBLOCK :: tr ++ tr', s)
        end
      end
  end.

(** One pass of the [for (;;)] loop of [lwan_main_loop]; [n_fds] is what
    [epoll_wait] returned. *)
Definition main_loop_iteration (a : acceptor) (n_fds : Z)
  : option (list acceptor_call * acceptor_state) :=
  match accept_loop (Z.to_nat n_fds) a with
  | None => None
  | Some (tr, s) => Some (AcceptorEpollWait (-1) :: tr, s)
  end.

End Acceptor.

(** ** The slot table at start-up and shut-down ([lwan_init],
       [lwan_shutdown]) *)

Section Lifecycle.

Variable ReqState : Type.
Variable zero_state : ReqState.

(** Modelled from the spec: [strbuf_new] and [strbuf_free] live in a file
    that is not part of the sources at hand.  A buffer is "an owning growable
    byte buffer, allocated once"; the model keeps the addresses of the buffers
    that are allocated and not yet freed.  [strbuf_new] returns an address
    never handed out before, [strbuf_free] releases the address it is given
    (releasing NULL, which is never live, changes nothing). *)
Record strbuf_heap := {
  next_buffer : Z;
  live_buffers : list Z
}.

Definition empty_heap : strbuf_heap := {| next_buffer := 1; live_buffers := [] |}.

Definition strbuf_new (h : strbuf_heap) : Z * strbuf_heap :=
  (next_buffer h,
   {| next_buffer := next_buffer h + 1;
      live_buffers := next_buffer h :: live_buffers h |}).

Definition strbuf_free (p : Z) (h : strbuf_heap) : strbuf_heap :=
  {| next_buffer := next_buffer h;
     live_buffers := filter (fun q => q ≠ p) (live_buffers h) |}.

(** The soft limit [lwan_init] asks for:
    [if (r.rlim_max == RLIM_INFINITY) r.rlim_cur *= 8;
     else if (r.rlim_cur < r.rlim_max) r.rlim_cur = r.rlim_max;] *)
Definition RLIM_INFINITY : Z := 18446744073709551615.

Definition raise_rlim_cur (rlim_cur rlim_max : Z) : Z :=
  if rlim_max =? RLIM_INFINITY then wrap_rlim (rlim_cur * 8)
  else if rlim_cur <? rlim_max then rlim_max
  else rlim_cur.

(** [for (--r.rlim_cur; r.rlim_cur; --r.rlim_cur)
       l->requests[r.rlim_cur].response.buffer = strbuf_new ();]
    with [r] the value of [r.rlim_cur] when the condition is tested. *)
Fixpoint allocate_buffers (r : nat) (rs : list (lwan_request_t ReqState))
    (h : strbuf_heap) : option (list (lwan_request_t ReqState) * strbuf_heap) :=
  match r with
  | O => Some (rs, h)
  | S r' =>
    match array_get rs (Z.of_nat r) with
    | None => None
    | Some request =>
      let '(p, h') := strbuf_new h in
      match array_set rs (Z.of_nat r) (set_response_buffer p request) with
      | None => None
      | Some rs' => allocate_buffers r' rs' h'
      end
    end
  end.

(** What the kernel and the C library answer to [lwan_init]: the values
    [getrlimit] and [setrlimit] return, and whether [calloc] returns memory
    (or NULL). *)
Record init_kernel := {
  getrlimit_result : Z;
  setrlimit_result : Z;
  calloc_returns_memory : bool
}.

(** Where [lwan_init] leaves the process: it has called [perror (msg)] and
    [exit (status)], or it has set [thread.count], [thread.max_fd] and
    [requests]. *)
Inductive init_state :=
| InitExited (msg : string) (status : Z)
| Initialised (count max_fd : Z) (requests : list (lwan_request_t ReqState))
    (h : strbuf_heap).

(** [lwan_init] up to the loop that gives the slots their buffers;
    [nprocessors_onln] is what [sysconf] returns, [rlim_cur] and [rlim_max]
    are the limits [getrlimit] stores.  The result of [calloc] is not
    checked: a NULL table is a table without elements, and the first write
    to it has no result. *)
Definition lwan_init (nprocessors_onln rlim_cur rlim_max : Z) (k : init_kernel)
    (h : strbuf_heap) : option init_state :=
  let count := if 0 <? nprocessors_onln then nprocessors_onln else 2 in
  if getrlimit_result k <? 0 then Some (InitExited "getrlimit" (-1))
  else
    let rlim_cur := raise_rlim_cur rlim_cur rlim_max in
    if setrlimit_result k <? 0 then Some (InitExited "setrlimit" (-1))
    else
      let rs :=
        if calloc_returns_memory k
        then replicate (Z.to_nat rlim_cur) (zeroed_request ReqState zero_state)
        else [] in
      let max_fd := wrap_int (rlim_cur / count) in
      match allocate_buffers (Z.to_nat (wrap_rlim (rlim_cur - 1))) rs h with
      | None => None
      | Some (rs', h') => Some (Initialised count max_fd rs' h')
      end.

(** [for (i = ...; i >= 0; --i) strbuf_free (l->requests[i].response.buffer);]
    with [n] one more than the value of [i] when the condition is tested. *)
Fixpoint free_buffers (n : nat) (rs : list (lwan_request_t ReqState))
    (h : strbuf_heap) : option strbuf_heap :=
  match n with
  | O => Some h
  | S i =>
    match array_get rs (Z.of_nat i) with
    | None => None
    | Some request => free_buffers i rs (strbuf_free (response_buffer request) h)
    end
  end.

(** The part of [lwan_shutdown] that releases the buffers:
    [i] starts at [l->thread.max_fd * l->thread.count - 1]. *)
Definition lwan_shutdown (count max_fd : Z) (rs : list (lwan_request_t ReqState))
    (h : strbuf_heap) : option strbuf_heap :=
  free_buffers (Z.to_nat (wrap_int (wrap_int (max_fd * count) - 1) + 1)) rs h.

End Lifecycle.

Arguments InitExited {ReqState} _ _.
Arguments Initialised {ReqState} _ _ _ _.

(** ** A request processor and a small server for the worked runs

    The processor keeps the connection alive exactly when its input says so
    and writes no other field; the slot has no further state. *)

Definition set_is_keep_alive {ReqState} (b : bool) (r : lwan_request_t ReqState)
  : lwan_request_t ReqState :=
  {| fd := fd r; flags_alive := flags_alive r; flags_is_keep_alive := b;
     time_to_die := time_to_die r; response_buffer := response_buffer r;
     request_state := request_state r |}.

Definition keep_alive_as_told (keep_alive : bool) (r : lwan_request_t unit)
  : lwan_request_t unit :=
  set_is_keep_alive keep_alive r.

Definition small_server : lwan_t :=
  {| thread_max_fd := 4; thread_count := 2; config_keep_alive_timeout := 5 |}.

Definition tiny_server : lwan_t :=
  {| thread_max_fd := 2; thread_count := 2; config_keep_alive_timeout := 5 |}.

Definition fresh_table (n : nat) : list (lwan_request_t unit) :=
  replicate n (zeroed_request unit tt).

(** Data to read on [fd]; the request asks for keep-alive or not. *)
Definition readable (fd : Z) (keep_alive : bool) : epoll_event bool :=
  {| events := EPOLLIN; data_fd := fd; socket_input := keep_alive;
     epoll_ctl_result := 0 |}.

(** The peer closed [fd]. *)
Definition peer_closed (fd : Z) : epoll_event bool :=
  {| events := Z.lor EPOLLIN EPOLLRDHUP; data_fd := fd; socket_input := false;
     epoll_ctl_result := 0 |}.

Definition small_thread_run :=
  thread_run tt keep_alive_as_told small_server
    (thread_start small_server (fresh_table 8)).

(** The [ProcessRequest] calls of a trace, in order. *)
Definition processed {ReqState} (tr : list (call ReqState))
  : list (lwan_request_t ReqState) :=
  omap (fun c => match c with ProcessRequest r => Some r | _ => None end) tr.

(** The fds a trace closes, in order. *)
Definition closed {ReqState} (tr : list (call ReqState)) : list Z :=
  omap (fun c => match c with Close fd => Some fd | _ => None end) tr.

(** The slot [lwan_process_request] is called on for an event on [fd], and
    the calls made before it: the slot as it stands when it is alive, the
    slot after [_reset_request] when it is not. *)
Definition slot_at_entry {ReqState} (zero_state : ReqState)
    (request : lwan_request_t ReqState) (fd : Z) : lwan_request_t ReqState :=
  if flags_alive request then request
  else fst (_reset_request zero_state request fd).

Definition calls_at_entry {ReqState} (zero_state : ReqState)
    (request : lwan_request_t ReqState) (fd : Z) : list (call ReqState) :=
  if flags_alive request then []
  else snd (_reset_request zero_state request fd).

(** How many of the indices [idxs] select worker [j]. *)
Definition times_selected (j : Z) (idxs : list Z) : Z :=
  Z.of_nat (count_occ Z.eq_dec idxs j).

Definition three_workers : lwan_t :=
  {| thread_max_fd := 341; thread_count := 3; config_keep_alive_timeout := 5 |}.

(** The calls of an acceptor trace, by kind: the flags of the [accept4]
    calls, the fds registered with a worker, the messages logged. *)
Definition accept4_flags (tr : list acceptor_call) : list Z :=
  omap (fun c => match c with Accept4 flags => Some flags | _ => None end) tr.

Definition dispatched_fds (tr : list acceptor_call) : list Z :=
  omap (fun c => match c with EpollCtlAdd _ fd _ => Some fd | _ => None end) tr.

Definition logged (tr : list acceptor_call) : list string :=
  omap (fun c => match c with AcceptorPerror msg => Some msg | _ => None end) tr.

(** What the [n] calls of [accept4] after the first [calls] return. *)
Definition accept4_answers (accept4 : nat -> Z) (calls n : nat) : list Z :=
  accept4 <$> seq calls n.

(** Kernels for the worked runs: two connections are pending and a third
    [accept4] would block; [accept4] fails every time; [epoll_ctl] succeeds. *)
Definition two_pending (n : nat) : Z :=
  match n with
  | O => 5
  | S O => 6
  | _ => -1
  end.

Definition accept4_fails (n : nat) : Z := -1.

Definition epoll_ctl_succeeds (epoll_fd fd : Z) : Z := 0.

Definition acceptor_start : acceptor := {| counter := 0; accept4_calls := 0 |}.

(** [getrlimit] and [setrlimit] succeed and [calloc] returns memory. *)
Definition init_kernel_ok : init_kernel :=
  {| getrlimit_result := 0; setrlimit_result := 0;
     calloc_returns_memory := true |}.

(** The shape of the ring, as a check that computes. *)
Definition ring_okb {ReqState} (l : lwan_t) (w : worker ReqState) : bool :=
  (0 <? thread_max_fd l) && (thread_max_fd l <? INT_MAX)
  && (Z.of_nat (length (death_queue w)) =? thread_max_fd l)
  && (0 <=? death_queue_first w) && (death_queue_first w <? thread_max_fd l)
  && (death_queue_last w
      =? (death_queue_first w + death_queue_population w) mod thread_max_fd l)
  && (0 <=? death_queue_population w) && (death_queue_population w <=? INT_MAX)
  && forallb (fun fd => (0 <=? fd) && (fd <? Z.of_nat (length (requests w))))
       (death_queue w).

(** States of the worked runs.  A slot that has been used for [fd]: *)
Definition used_slot (fd : Z) (alive keep_alive : bool) (deadline : Z)
  : lwan_request_t unit :=
  {| fd := fd; flags_alive := alive; flags_is_keep_alive := keep_alive;
     time_to_die := deadline; response_buffer := 0; request_state := tt |}.

Definition fresh_worker : worker unit :=
  thread_start small_server (fresh_table 8).

(** fds 5 and 6 kept alive at tick 0, in a queue of four. *)
Definition two_idle_connections : worker unit :=
  {| requests :=
       <[6%nat := used_slot 6 true true 5]>
         (<[5%nat := used_slot 5 true true 5]> (fresh_table 8));
     death_queue := [5; 6; 0; 0];
     death_queue_last := 2; death_queue_first := 0;
     death_queue_population := 2; death_time := 0 |}.

(** fd 5 kept alive at tick 0, hung up since, four ticks gone. *)
Definition stale_head : worker unit :=
  {| requests := <[5%nat := used_slot 5 false true 5]> (fresh_table 8);
     death_queue := [5; 0; 0; 0];
     death_queue_last := 1; death_queue_first := 0;
     death_queue_population := 1; death_time := 4 |}.

(** fd 5 kept alive at tick 0 and idle since, four ticks gone. *)
Definition idle_head : worker unit :=
  {| requests := <[5%nat := used_slot 5 true true 5]> (fresh_table 8);
     death_queue := [5; 0; 0; 0];
     death_queue_last := 1; death_queue_first := 0;
     death_queue_population := 1; death_time := 4 |}.

(** fds 5 and 6 kept alive at tick 0, in a queue of two. *)
Definition full_queue : worker unit :=
  {| requests :=
       <[6%nat := used_slot 6 true true 5]>
         (<[5%nat := used_slot 5 true true 5]> (fresh_table 8));
     death_queue := [5; 6];
     death_queue_last := 0; death_queue_first := 0;
     death_queue_population := 2; death_time := 0 |}.

(** fd 5 served again at tick 1, fd 6 idle since tick 0. *)
Definition updated_in_place : worker unit :=
  {| requests :=
       <[6%nat := used_slot 6 true true 5]>
         (<[5%nat := used_slot 5 true true 6]> (fresh_table 8));
     death_queue := [5; 6; 0; 0];
     death_queue_last := 2; death_queue_first := 0;
     death_queue_population := 2; death_time := 1 |}.

(** fds 5 and 6 idle since tick 0, four ticks gone. *)
Definition two_expiring : worker unit :=
  {| requests :=
       <[6%nat := used_slot 6 true true 5]>
         (<[5%nat := used_slot 5 true true 5]> (fresh_table 8));
     death_queue := [5; 6; 0; 0];
     death_queue_last := 2; death_queue_first := 0;
     death_queue_population := 2; death_time := 4 |}.

(** [requests[x].fd] *)
Definition slot_fd {ReqState} (rs : list (lwan_request_t ReqState)) (x : Z) : Z :=
  match array_get rs x with
  | Some request => fd request
  | None => 0
  end.

(** The registrations of an acceptor trace, in order: the epoll fd each
    accepted fd was added to. *)
Definition registrations (tr : list acceptor_call) : list (Z * Z) :=
  omap (fun c => match c with
                 | EpollCtlAdd epoll_fd fd _ => Some (epoll_fd, fd)
                 | _ => None
                 end) tr.

(** The statuses with which an acceptor trace calls [exit]. *)
Definition exits (tr : list acceptor_call) : list Z :=
  omap (fun c => match c with Exit status => Some status | _ => None end) tr.

(** ** The listening socket ([_socket_init], [_socket_shutdown]) *)

Inductive socket_call :=
| Socket
| SetsockoptReuseaddr (fd : Z)
| SetsockoptLinger (fd : Z)
| Bind (fd : Z) (port : Z)
| Listen (fd : Z) (backlog : Z)
| ShutdownRdwr (fd : Z)
| SocketClose (fd : Z)
| SocketPerror (msg : string)
| SocketExit (status : Z).

(** What the kernel returns to each call of [_socket_init]. *)
Record socket_kernel := {
  socket_result : Z;
  setsockopt_reuseaddr_result : Z;
  setsockopt_linger_result : Z;
  bind_result : Z;
  listen_result : Z
}.

(** Where the function leaves the process: [l->main_socket] is set, or
    [exit] was called. *)
Inductive socket_state :=
| Listening (main_socket : Z)
| SocketExited (status : Z).

(** [_socket_init]; [port] and [enable_linger] are [l->config.port] and
    [l->config.enable_linger].  The [handle_error] label closes the socket
    and exits. *)
Definition _socket_init (l : lwan_t) (port : Z) (enable_linger : bool)
    (k : socket_kernel) : list socket_call * socket_state :=
  let fd := socket_result k in
  let handle_error := [SocketClose fd; SocketExit (-1)] in
  if fd <? 0 then
    ([Socket; SocketPerror "socket"; SocketExit (-1)], SocketExited (-1))
  else if setsockopt_reuseaddr_result k <? 0 then
    ([Socket; SetsockoptReuseaddr fd; SocketPerror "setsockopt"]
       ++ handle_error, SocketExited (-1))
  else
    let tr1 := [Socket; SetsockoptReuseaddr fd] in
    if enable_linger && (setsockopt_linger_result k <? 0) then
      (tr1 ++ [SetsockoptLinger fd; SocketPerror "setsockopt"] ++ handle_error,
       SocketExited (-1))
    else
      let tr2 := tr1 ++ (if enable_linger then [SetsockoptLinger fd] else []) in
      if bind_result k <? 0 then
        (tr2 ++ [Bind fd port; SocketPerror "bind"] ++ handle_error,
         SocketExited (-1))
      else
        let backlog := wrap_int (thread_count l * thread_max_fd l) in
        if listen_result k <? 0 then
          (tr2 ++ [Bind fd port; Listen fd backlog; SocketPerror "listen"]
             ++ handle_error, SocketExited (-1))
        else
          (tr2 ++ [Bind fd port; Listen fd backlog], Listening fd).

(** [_socket_shutdown]; [shutdown_result] is what [shutdown] returns. *)
Definition _socket_shutdown (main_socket : Z) (shutdown_result : Z)
  : list socket_call * option Z :=
  if shutdown_result <? 0 then
    ([ShutdownRdwr main_socket; SocketPerror "shutdown";
      SocketClose main_socket; SocketExit (-4)], Some (-4))
  else
    ([ShutdownRdwr main_socket; SocketClose main_socket], None).

(** The fds a socket trace closes, in order. *)
Definition socket_closes (tr : list socket_call) : list Z :=
  omap (fun c => match c with SocketClose fd => Some fd | _ => None end) tr.

(** ** The worker threads ([_create_thread], [_thread_init],
       [_thread_shutdown]) *)

(** The fields of [lwan_thread_t] that [lwan.c] uses besides the back
    pointer to the server. *)
Record lwan_thread_t := {
  epoll_fd : Z;
  id : Z
}.

Inductive thread_call :=
| EpollCreate1
| PthreadAttrInit
| PthreadAttrSetscope
| PthreadAttrSetdetachstate
| PthreadCreate (thread_n : Z)
| PthreadSetaffinity (id : Z) (cpu : Z)
| PthreadAttrDestroy
| ThreadPerror (msg : string)
| ThreadExit (status : Z)
| EpollClose (fd : Z)
| PthreadJoin (id : Z)
| FreeThreads.

(** What the kernel and the thread library return while thread [thread_n] is
    created; [created_id] is the id [pthread_create] stores. *)
Record thread_kernel := {
  epoll_create1_result : Z;
  attr_init_result : Z;
  attr_setscope_result : Z;
  attr_setdetachstate_result : Z;
  pthread_create_result : Z;
  created_id : Z;
  setaffinity_result : Z;
  attr_destroy_result : Z
}.

(** [_create_thread]: the calls made and, unless [exit] was called, the
    thread record filled in. *)
Definition _create_thread (enable_thread_affinity : bool) (thread_n : Z)
    (k : thread_kernel) : list thread_call * option lwan_thread_t :=
  let failed (msg : string) := [ThreadPerror msg; ThreadExit (-1)] in
  if epoll_create1_result k <? 0 then
    (EpollCreate1 :: failed "epoll_create"%string, None)
  else if negb (attr_init_result k =? 0) then
    ([EpollCreate1; PthreadAttrInit] ++ failed "pthread_attr_init"%string, None)
  else if negb (attr_setscope_result k =? 0) then
    ([EpollCreate1; PthreadAttrInit; PthreadAttrSetscope]
       ++ failed "pthread_attr_setscope"%string, None)
  else if negb (attr_setdetachstate_result k =? 0) then
    ([EpollCreate1; PthreadAttrInit; PthreadAttrSetscope;
      PthreadAttrSetdetachstate] ++ failed "pthread_attr_setdetachstate"%string, None)
  else
    let tr1 := [EpollCreate1; PthreadAttrInit; PthreadAttrSetscope;
                PthreadAttrSetdetachstate; PthreadCreate thread_n] in
    if negb (pthread_create_result k =? 0) then
      (tr1 ++ [ThreadPerror "pthread_create"; PthreadAttrDestroy;
               ThreadExit (-1)], None)
    else
      let thread := {| epoll_fd := epoll_create1_result k;
                       id := created_id k |} in
      if enable_thread_affinity && negb (setaffinity_result k =? 0) then
        (tr1 ++ [PthreadSetaffinity (created_id k) thread_n]
           ++ failed "pthread_setaffinity_np"%string, None)
      else
        let tr2 := tr1 ++ (if enable_thread_affinity
                           then [PthreadSetaffinity (created_id k) thread_n]
                           else []) in
        if negb (attr_destroy_result k =? 0) then
          (tr2 ++ [PthreadAttrDestroy] ++ failed "pthread_attr_destroy"%string, None)
        else (tr2 ++ [PthreadAttrDestroy], Some thread).

(** [for (i = l->thread.count - 1; i >= 0; i--) _create_thread (l, i);] with
    [n] one more than [i] when the condition is tested, on the array
    [threads] that [malloc] returned.  [_create_thread] writes
    [threads[i].lwan] before any call: the element must exist. *)
Fixpoint create_threads (enable_thread_affinity : bool)
    (kernel : Z -> thread_kernel) (n : nat) (threads : list lwan_thread_t)
  : option (list thread_call * option (list lwan_thread_t)) :=
  match n with
  | O => Some ([], Some threads)
  | S i =>
    match array_get threads (Z.of_nat i) with
    | None => None
    | Some _ =>
      match _create_thread enable_thread_affinity (Z.of_nat i)
              (kernel (Z.of_nat i)) with
      | (tr, None) => Some (tr, None)
      | (tr, Some thread) =>
        match array_set threads (Z.of_nat i) thread with
        | None => None
        | Some threads' =>
          match create_threads enable_thread_affinity kernel i threads' with
          | None => None
          | Some (tr', r) => Some (tr ++ tr', r)
          end
        end
      end
    end
  end.

(** [_thread_init]; [threads] is the array as [malloc] left it, of
    [l->thread.count] elements. *)
Definition _thread_init (l : lwan_t) (enable_thread_affinity : bool)
    (kernel : Z -> thread_kernel) (threads : list lwan_thread_t)
  : option (list thread_call * option (list lwan_thread_t)) :=
  create_threads enable_thread_affinity kernel
    (Z.to_nat (wrap_int (thread_count l - 1) + 1)) threads.

(** The two loops of [_thread_shutdown], each over [i = n - 1] down to 0. *)
Fixpoint close_epoll_fds (n : nat) (threads : list lwan_thread_t)
  : option (list thread_call) :=
  match n with
  | O => Some []
  | S i =>
    match array_get threads (Z.of_nat i) with
    | None => None
    | Some thread =>
      match close_epoll_fds i threads with
      | None => None
      | Some tr => Some (EpollClose (epoll_fd thread) :: tr)
      end
    end
  end.

Fixpoint join_threads (n : nat) (threads : list lwan_thread_t)
  : option (list thread_call) :=
  match n with
  | O => Some []
  | S i =>
    match array_get threads (Z.of_nat i) with
    | None => None
    | Some thread =>
      match join_threads i threads with
      | None => None
      | Some tr => Some (PthreadJoin (id thread) :: tr)
      end
    end
  end.

Definition _thread_shutdown (l : lwan_t) (threads : list lwan_thread_t)
  : option (list thread_call) :=
  let n := Z.to_nat (wrap_int (thread_count l - 1) + 1) in
  match close_epoll_fds n threads with
  | None => None
  | Some closes =>
    match join_threads n threads with
    | None => None
    | Some joins => Some (closes ++ joins ++ [FreeThreads])
    end
  end.

(** ** [lwan_http_status_as_string]

    The values of the enumeration [lwan_http_status_t] are declared in
    [lwan.h], which is not at hand: they are parameters. *)
Record http_statuses := {
  HTTP_OK : Z;
  HTTP_BAD_REQUEST : Z;
  HTTP_NOT_FOUND : Z;
  HTTP_FORBIDDEN : Z;
  HTTP_NOT_ALLOWED : Z;
  HTTP_TOO_LARGE : Z;
  HTTP_INTERNAL_ERROR : Z
}.

Definition known_statuses (c : http_statuses) : list Z :=
  [HTTP_OK c; HTTP_BAD_REQUEST c; HTTP_NOT_FOUND c; HTTP_FORBIDDEN c;
   HTTP_NOT_ALLOWED c; HTTP_TOO_LARGE c; HTTP_INTERNAL_ERROR c].

Definition lwan_http_status_as_string (c : http_statuses) (status : Z) : string :=
  if status =? HTTP_OK c then "OK"%string
  else if status =? HTTP_BAD_REQUEST c then "Bad request"%string
  else if status =? HTTP_NOT_FOUND c then "Not found"%string
  else if status =? HTTP_FORBIDDEN c then "Forbidden"%string
  else if status =? HTTP_NOT_ALLOWED c then "Not allowed"%string
  else if status =? HTTP_TOO_LARGE c then "Request too large"%string
  else if status =? HTTP_INTERNAL_ERROR c then "Internal server error"%string
  else "Invalid"%string.

(** ** [lwan_determine_mime_type_for_file_name] *)

(** [strrchr (s, '.')]: the part of [s] from its last dot on, if it has one. *)
Fixpoint strrchr_dot (s : string) : option string :=
  match s with
  | EmptyString => None
  | String c s' =>
    match strrchr_dot s' with
    | Some t => Some t
    | None => if Ascii.eqb c "."%char then Some s else None
    end
  end.

(** The case labels of the switch. *)
Inductive extension := EXT_CSS | EXT_HTM | EXT_JPG | EXT_JS | EXT_PNG | EXT_TXT.

(** [STRING_SWITCH] and the values of the [EXT_] constants are declared in
    [lwan.h], which is not at hand: which label, if any, the bytes at
    [last_dot] select is the parameter [string_switch]. *)
Definition lwan_determine_mime_type_for_file_name
    (string_switch : string -> option extension) (file_name : string) : string :=
  (match strrchr_dot file_name with
   | None => "application/octet-stream"
   | Some last_dot =>
     match string_switch last_dot with
     | Some EXT_CSS => "text/css"
     | Some EXT_HTM => "text/html"
     | Some EXT_JPG => "image/jpeg"
     | Some EXT_JS => "application/javascript"
     | Some EXT_PNG => "image/png"
     | Some EXT_TXT => "text/plain"
     | None => "application/octet-stream"
     end
   end)%string.

Definition mime_types : list string :=
  ["text/css"; "text/html"; "image/jpeg"; "application/javascript";
   "image/png"; "text/plain"; "application/octet-stream"]%string.

(** Does [s] hold a dot? *)
Fixpoint has_dot (s : string) : bool :=
  match s with
  | EmptyString => false
  | String c s' => Ascii.eqb c "."%char || has_dot s'
  end.

(** The record [_create_thread] fills in for thread [i] when every call
    succeeds. *)
Definition thread_of_kernel (kernel : Z -> thread_kernel) (i : Z)
  : lwan_thread_t :=
  {| epoll_fd := epoll_create1_result (kernel i); id := created_id (kernel i) |}.

(** The threads a trace creates, and the statuses it exits with, in order. *)
Definition thread_creations (tr : list thread_call) : list Z :=
  omap (fun c => match c with PthreadCreate n => Some n | _ => None end) tr.

Definition thread_exits (tr : list thread_call) : list Z :=
  omap (fun c => match c with ThreadExit st => Some st | _ => None end) tr.

(** ** [lwan_set_url_map] *)

(** The fields of [lwan_url_map_t] that [lwan.c] uses; [prefix] is [None]
    for a NULL pointer, which ends the table.  The type of [prefix_len] is
    declared in [lwan.h], which is not at hand: the result of [strlen] is
    stored as it is. *)
Record lwan_url_map_t := {
  prefix : option string;
  prefix_len : Z
}.

Inductive trie_call :=
| TrieDestroy
| TrieNew
| TrieAdd (prefix : string) (entry : nat)
| TriePerror (msg : string)
| TrieExit (status : Z).

(** [for (; url_map->prefix; url_map++) { ... }] from the entry of index
    [entry] on; walking off the end of the array has no result. *)
Fixpoint add_url_map_entries (entry : nat) (url_map : list lwan_url_map_t)
  : option (list trie_call * list lwan_url_map_t) :=
  match url_map with
  | [] => None
  | e :: rest =>
    match prefix e with
    | None => Some ([], e :: rest)
    | Some p =>
      match add_url_map_entries (S entry) rest with
      | None => None
      | Some (tr, rest') =>
        Some (TrieAdd p entry :: tr,
              {| prefix := Some p; prefix_len := Z.of_nat (String.length p) |}
                :: rest')
      end
    end
  end.

(** [lwan_set_url_map]; [trie_new_ok] tells whether [lwan_trie_new] returned
    a trie.  The result is the calls made and the table left, unless [exit]
    was called. *)
Definition lwan_set_url_map (trie_new_ok : bool) (url_map : list lwan_url_map_t)
  : option (list trie_call * option (list lwan_url_map_t)) :=
  if trie_new_ok then
    match add_url_map_entries 0 url_map with
    | None => None
    | Some (tr, url_map') => Some (TrieDestroy :: TrieNew :: tr, Some url_map')
    end
  else
    Some ([TrieDestroy; TrieNew; TriePerror "lwan_trie_new"; TrieExit (-1)],
          None).

(** The prefixes a trace adds to the trie, in order. *)
Definition trie_additions (tr : list trie_call) : list string :=
  omap (fun c => match c with TrieAdd p _ => Some p | _ => None end) tr.

(** An entry with a prefix, its length not yet filled in, and the entry that
    ends a table. *)
Definition url_map_entry (p : string) : lwan_url_map_t :=
  {| prefix := Some p; prefix_len := 0 |}.

Definition url_map_end : lwan_url_map_t :=
  {| prefix := None; prefix_len := 0 |}.

(** ** Kernels and tables for the worked runs *)

Definition epoll_ctl_fails (epoll_fd fd : Z) : Z := -1.

(** Every call of [_socket_init] succeeds; [socket] returns fd 3. *)
Definition socket_kernel_ok : socket_kernel :=
  {| socket_result := 3; setsockopt_reuseaddr_result := 0;
     setsockopt_linger_result := 0; bind_result := 0; listen_result := 0 |}.

(** Every call of [_create_thread] succeeds; thread [i] gets epoll fd
    [10 + i] and id [100 + i]. *)
Definition thread_kernel_ok (i : Z) : thread_kernel :=
  {| epoll_create1_result := 10 + i; attr_init_result := 0;
     attr_setscope_result := 0; attr_setdetachstate_result := 0;
     pthread_create_result := 0; created_id := 100 + i;
     setaffinity_result := 0; attr_destroy_result := 0 |}.

(** As above, but [pthread_create] fails for thread 0. *)
Definition thread_kernel_create_fails (i : Z) : thread_kernel :=
  {| epoll_create1_result := 10 + i; attr_init_result := 0;
     attr_setscope_result := 0; attr_setdetachstate_result := 0;
     pthread_create_result := if i =? 0 then 11 else 0; created_id := 100 + i;
     setaffinity_result := 0; attr_destroy_result := 0 |}.

(** The array of two threads as [malloc] may leave it. *)
Definition unset_threads : list lwan_thread_t :=
  replicate 2 {| epoll_fd := 0; id := 0 |}.

(** The status codes of HTTP for the seven statuses. *)
Definition http_status_codes : http_statuses :=
  {| HTTP_OK := 200; HTTP_BAD_REQUEST := 400; HTTP_NOT_FOUND := 404;
     HTTP_FORBIDDEN := 403; HTTP_NOT_ALLOWED := 405; HTTP_TOO_LARGE := 413;
     HTTP_INTERNAL_ERROR := 500 |}.

(** * Properties *)

(** ** Arrays *)

Lemma array_get_Some {A} (a : list A) (i : Z) (x : A) :
  array_get a i = Some x <-> 0 <= i /\ a !! Z.to_nat i = Some x.
Proof.
  unfold array_get. destruct (Z.leb_spec 0 i) as [Hle | Hlt]; split.
  - auto.
  - intros [_ Hx]; exact Hx.
  - discriminate.
  - lia.
Qed.

Lemma array_get_in_range {A} (a : list A) (i : Z) :
  0 <= i < Z.of_nat (length a) -> exists x, array_get a i = Some x.
Proof.
  intros Hi. destruct (lookup_lt_is_Some_2 a (Z.to_nat i)) as [x Hx]; [lia|].
  exists x. apply array_get_Some. split; [lia | exact Hx].
Qed.

Lemma array_get_range {A} (a : list A) (i : Z) (x : A) :
  array_get a i = Some x -> 0 <= i < Z.of_nat (length a).
Proof.
  intros H. apply array_get_Some in H as [H0 H].
  apply lookup_lt_Some in H. lia.
Qed.

Lemma array_set_Some {A} (a : list A) (i : Z) (x y : A) :
  array_get a i = Some y -> array_set a i x = Some (<[Z.to_nat i := x]> a).
Proof. intros H. unfold array_set. rewrite H. reflexivity. Qed.

Lemma array_set_inv {A} (a a' : list A) (i : Z) (x : A) :
  array_set a i x = Some a' ->
  a' = <[Z.to_nat i := x]> a /\ 0 <= i < Z.of_nat (length a).
Proof.
  unfold array_set. destruct (array_get a i) eqn:E; [|discriminate].
  intros [= <-]. split; [reflexivity | eapply array_get_range; eauto].
Qed.

Lemma array_get_set_eq {A} (a : list A) (i : Z) (x : A) :
  0 <= i < Z.of_nat (length a) ->
  array_get (<[Z.to_nat i := x]> a) i = Some x.
Proof.
  intros Hi. apply array_get_Some. split; [lia|].
  apply list_lookup_insert_eq. lia.
Qed.

Lemma array_get_set_ne {A} (a : list A) (i j : Z) (x : A) :
  0 <= i -> i <> j ->
  array_get (<[Z.to_nat i := x]> a) j = array_get a j.
Proof.
  intros Hi Hne. unfold array_get. destruct (Z.leb_spec 0 j); [|reflexivity].
  apply list_lookup_insert_ne. lia.
Qed.

(** ** C9: the error return of [epoll_wait] *)

Section WorkerProperties.

Context {ReqState : Type} (zero_state : ReqState) {Input : Type}.
Variable lwan_process_request :
  Input -> lwan_request_t ReqState -> lwan_request_t ReqState.
Variable l : lwan_t.

Abbreviation iteration := (thread_iteration zero_state lwan_process_request l).
Abbreviation handle := (handle_event zero_state lwan_process_request l).

(** C9.  When [epoll_wait] returns an error: with errno EBADF or EINVAL the
    worker leaves its loop, frees the queue and returns; with errno EINTR it
    logs with [perror] and goes on with the loop, its state untouched; with
    any other errno it goes on with the loop, its state untouched and nothing
    logged. *)
Theorem epoll_wait_error_cases (w : worker ReqState) (errno : Z) :
  (errno = EBADF \/ errno = EINVAL ->
   iteration w (WaitError errno)
   = Some ([EpollWait (epoll_timeout w); FreeDeathQueue], Returned))
  /\ (errno = EINTR ->
      iteration w (WaitError errno)
      = Some ([EpollWait (epoll_timeout w); Perror "epoll_wait"], Running w))
  /\ (errno <> EBADF -> errno <> EINVAL -> errno <> EINTR ->
      iteration w (WaitError errno)
      = Some ([EpollWait (epoll_timeout w)], Running w)).
Proof.
  unfold thread_iteration. repeat split.
  - intros [-> | ->]; reflexivity.
  - intros ->; reflexivity.
  - intros Hb Hv Hi.
    destruct (Z.eqb_spec errno EBADF); [contradiction|].
    destruct (Z.eqb_spec errno EINVAL); [contradiction|].
    destruct (Z.eqb_spec errno EINTR); [contradiction|].
    reflexivity.
Qed.

(** ** C1: the hang-up branch *)

Lemma handle_event_hung_up (w : worker ReqState) (e : epoll_event Input)
    (request : lwan_request_t ReqState) :
  hung_up e = true ->
  array_get (requests w) (data_fd e) = Some request ->
  handle w e
  = Some (EpollCtlDel (data_fd e)
            :: (if epoll_ctl_result e <? 0 then [Perror "epoll_ctl"] else []),
          with_requests
            (<[Z.to_nat (data_fd e) := set_alive false request]> (requests w)) w).
Proof.
  intros Hup Hget. unfold handle_event. rewrite Hget, Hup.
  rewrite (array_set_Some _ _ _ _ Hget). reflexivity.
Qed.

(** C1, as the code runs: for an event whose mask has EPOLLRDHUP or EPOLLHUP
    the worker calls [epoll_ctl (DEL)] (and [perror] when that fails), marks
    the slot not alive and goes to the next event: it makes no other call,
    so the fd is not closed, and the queue is left as it was. *)
Theorem hang_up_branch_does_not_close (w : worker ReqState)
    (e : epoll_event Input) (request : lwan_request_t ReqState) :
  hung_up e = true ->
  array_get (requests w) (data_fd e) = Some request ->
  exists tr,
    handle w e
    = Some (tr, with_requests
                  (<[Z.to_nat (data_fd e) := set_alive false request]> (requests w)) w)
    /\ tr = EpollCtlDel (data_fd e)
              :: (if epoll_ctl_result e <? 0 then [Perror "epoll_ctl"] else [])
    /\ closed tr = [].
Proof.
  intros Hup Hget. rewrite (handle_event_hung_up w e request Hup Hget).
  eexists; split; [reflexivity|]. split; [reflexivity|].
  destruct (epoll_ctl_result e <? 0); reflexivity.
Qed.

(** ** C3: the slot the request processor is given *)

Lemma processed_app (tr tr' : list (call ReqState)) :
  processed (tr ++ tr') = processed tr ++ processed tr'.
Proof. unfold processed. apply omap_app. Qed.

(** The branch without hang-up, with the array accesses resolved. *)
Lemma handle_event_readable (w : worker ReqState) (e : epoll_event Input)
    (request : lwan_request_t ReqState) :
  hung_up e = false ->
  array_get (requests w) (data_fd e) = Some request ->
  handle w e
  = let request0 := slot_at_entry zero_state request (data_fd e) in
    let request1 := lwan_process_request (socket_input e) request0 in
    let tr1 := calls_at_entry zero_state request (data_fd e)
               ++ [ProcessRequest request0] in
    let request2 :=
      set_time_to_die
        (wrap_uint (death_time w + config_keep_alive_timeout l)) request1 in
    if flags_is_keep_alive request1 then
      if flags_alive request1 then
        Some (tr1, with_requests (<[Z.to_nat (data_fd e) := request2]> (requests w)) w)
      else
        match death_queue_append l w (data_fd e) with
        | None => None
        | Some w' =>
          Some (tr1,
                with_requests
                  (<[Z.to_nat (data_fd e) := set_alive true request2]> (requests w))
                  w')
        end
    else
      Some (tr1 ++ [Close (data_fd e)],
            with_requests
              (<[Z.to_nat (data_fd e) := set_alive false request1]> (requests w)) w).
Proof.
  intros Hup Hget. unfold handle_event, slot_at_entry, calls_at_entry.
  rewrite Hget, Hup. cbv zeta.
  destruct (flags_alive request); cbn [_reset_request fst snd];
    match goal with
    | |- context [flags_is_keep_alive ?r] =>
        destruct (flags_is_keep_alive r)
    end;
    cbn [set_time_to_die flags_alive];
    rewrite ?(array_set_Some _ _ _ _ Hget); try reflexivity;
    match goal with
    | |- context [flags_alive ?r] => destruct (flags_alive r)
    end;
    rewrite ?(array_set_Some _ _ _ _ Hget); try reflexivity;
    unfold death_queue_append;
    destruct (array_set (death_queue w) (death_queue_last w) (data_fd e));
    try reflexivity;
    destruct (thread_max_fd l =? 0); try reflexivity;
    cbn [requests]; rewrite (array_set_Some _ _ _ _ Hget); reflexivity.
Qed.

(** C3, amended.  When an event without hang-up is handled, the request
    processor is invoked once.  If the slot was not marked alive, every field
    of the slot it is given is zero, except [fd], which is the event's fd, and
    the response buffer pointer, which is the one the slot had.  If the slot
    was marked alive (its last request was kept alive), it is given the slot
    as it stood: nothing is reset. *)
Theorem process_request_entry_slot (w w' : worker ReqState)
    (e : epoll_event Input) (request : lwan_request_t ReqState)
    (tr : list (call ReqState)) :
  array_get (requests w) (data_fd e) = Some request ->
  hung_up e = false ->
  handle w e = Some (tr, w') ->
  processed tr
  = [if flags_alive request then request
     else {| fd := data_fd e; flags_alive := false;
             flags_is_keep_alive := false; time_to_die := 0;
             response_buffer := response_buffer request;
             request_state := zero_state |}].
Proof.
  intros Hget Hup. rewrite (handle_event_readable w e request Hup Hget).
  cbv zeta. unfold slot_at_entry, calls_at_entry.
  destruct (flags_alive request) eqn:Halive; cbn [_reset_request fst snd];
    repeat match goal with
      | |- context [match ?x with _ => _ end] => destruct x
      end;
    intros [= <- <-] || discriminate;
    rewrite ?processed_app; reflexivity.
Qed.

(** ** C5: the wait timeout and the reaping pass *)

Lemma wrap_int_small (z : Z) : INT_MIN <= z <= INT_MAX -> wrap_int z = z.
Proof.
  unfold wrap_int, INT_MIN, INT_MAX. intros Hz.
  rewrite Z.mod_small by lia. lia.
Qed.

Lemma ring_ok_tick (w : worker ReqState) : ring_ok l w -> ring_ok l (tick w).
Proof. intros [? ? ? ? ? ?]. constructor; assumption. Qed.

Lemma ring_ok_with_requests (w : worker ReqState)
    (rs : list (lwan_request_t ReqState)) :
  ring_ok l w -> length rs = length (requests w) ->
  ring_ok l (with_requests rs w).
Proof.
  intros [Hcap Hlen Hfirst Hlast Hpopr Hslots] Hrs.
  constructor; cbn; try assumption. rewrite Hrs. assumption.
Qed.

Lemma ring_head (w : worker ReqState) :
  ring_ok l w ->
  exists head request,
    array_get (death_queue w) (death_queue_first w) = Some head
    /\ array_get (requests w) head = Some request.
Proof.
  intros Hok.
  destruct (array_get_in_range (death_queue w) (death_queue_first w))
    as [head Hhead].
  { rewrite (ring_length _ _ _ Hok). apply (ring_first _ _ _ Hok). }
  destruct (array_get_in_range (requests w) head) as [request Hreq].
  { apply (ring_slots _ _ _ Hok). apply array_get_Some in Hhead as [_ Hhead].
    eapply list_elem_of_lookup_2; eauto. }
  eauto.
Qed.

(** One reaping pass on a ring in shape: the code's arithmetic is the plain
    one, and the ring stays in shape. *)
Lemma reap_head_ring (w : worker ReqState) (head : Z)
    (request : lwan_request_t ReqState) :
  ring_ok l w ->
  death_queue_population w <> 0 ->
  array_get (requests w) head = Some request ->
  exists w1,
    reap_head l w head request = Some w1
    /\ requests w1 = <[Z.to_nat head := set_alive false request]> (requests w)
    /\ death_queue w1 = death_queue w
    /\ death_queue_last w1 = death_queue_last w
    /\ death_queue_first w1 = (death_queue_first w + 1) mod thread_max_fd l
    /\ death_queue_population w1 = death_queue_population w - 1
    /\ death_time w1 = death_time w
    /\ ring_ok l w1.
Proof.
  intros Hok Hpop Hreq.
  destruct Hok as [Hcap Hlen Hfirst Hlast Hpopr Hslots]. unfold INT_MAX in *.
  unfold reap_head.
  destruct (Z.eqb_spec (thread_max_fd l) 0) as [E | _]; [lia|].
  rewrite (array_set_Some _ _ _ _ Hreq).
  assert (Hw1 : wrap_int (death_queue_first w + 1) = death_queue_first w + 1)
    by (apply wrap_int_small; unfold INT_MIN, INT_MAX; lia).
  assert (Hw2 : wrap_int (death_queue_population w - 1)
                = death_queue_population w - 1)
    by (apply wrap_int_small; unfold INT_MIN, INT_MAX; lia).
  rewrite Hw1, Hw2, Z.rem_mod_nonneg by lia.
  eexists; split; [reflexivity|]. cbn.
  repeat (split; [reflexivity|]).
  constructor; cbn; unfold INT_MAX; try assumption; try lia.
  - apply Z.mod_pos_bound; lia.
  - rewrite Hlast, Zplus_mod_idemp_l. f_equal. lia.
  - intros x Hx. rewrite length_insert. auto.
Qed.

Lemma reap_reaps (fuel : nat) (w : worker ReqState) :
  ring_ok l w ->
  death_queue_population w <= Z.of_nat fuel ->
  exists tr w',
    reap l fuel w = Some (tr, w') /\ reaps l w tr w' /\ ring_ok l w'.
Proof.
  revert w. induction fuel as [|fuel IH]; intros w Hok Hfuel.
  - pose proof (ring_population _ _ _ Hok) as Hpop.
    assert (Hz : death_queue_population w = 0) by lia.
    exists [], w. cbn. rewrite Hz. cbn.
    split; [reflexivity|]. split; [|assumption].
    apply reaps_empty; assumption.
  - cbn [reap].
    destruct (Z.eqb_spec (death_queue_population w) 0) as [Hz | Hnz].
    { exists [], w. split; [reflexivity|]. split; [|assumption].
      apply reaps_empty; assumption. }
    destruct (ring_head w Hok) as (head & request & Hhead & Hreq).
    rewrite Hhead, Hreq.
    destruct (Z.leb_spec (time_to_die request) (death_time w)) as [Hexp | Hnot].
    + destruct (reap_head_ring w head request Hok Hnz Hreq)
        as (w1 & -> & Hrs & Hdq & Hl & Hf & Hp & Ht & Hok1).
      destruct (IH w1 Hok1) as (tr & w2 & -> & Hreaps & Hok2); [lia|].
      exists (Close (fd request) :: tr), w2.
      split; [reflexivity|]. split; [|assumption].
      eapply reaps_expired; eauto.
    + exists [], w. split; [reflexivity|]. split; [|assumption].
      eapply reaps_not_expired; eauto.
Qed.

Lemma reaps_death_time (w w' : worker ReqState) (tr : list (call ReqState)) :
  reaps l w tr w' -> death_time w' = death_time w.
Proof. induction 1; congruence. Qed.

(** Where a reaping pass stops: the queue is empty, or the slot of the fd at
    its head has a deadline after the tick. *)
Lemma reaps_stops (w w' : worker ReqState) (tr : list (call ReqState)) :
  reaps l w tr w' ->
  death_queue_population w' = 0
  \/ exists head request,
       array_get (death_queue w') (death_queue_first w') = Some head
       /\ array_get (requests w') head = Some request
       /\ death_time w' < time_to_die request.
Proof. induction 1; eauto 10. Qed.

(** A slot that is not alive stays so along a reaping pass. *)
Lemma reaps_keeps_not_alive (w w' : worker ReqState)
    (tr : list (call ReqState)) :
  reaps l w tr w' ->
  forall x request,
    array_get (requests w) x = Some request ->
    flags_alive request = false ->
    exists request',
      array_get (requests w') x = Some request'
      /\ flags_alive request' = false.
Proof.
  induction 1
    as [w Hz | w head request0 Hnz Hhead Hreq Hlt
        | w head request0 w1 tr w2 Hnz Hhead Hreq Hle Hrs Hdq Hl Hf Hp Ht
            Hreaps IH];
    intros x request Hx Hflag; eauto.
  pose proof (array_get_range _ _ _ Hreq) as Hrange.
  destruct (Z.eq_dec x head) as [-> | Hne].
  - eapply IH; [rewrite Hrs; apply array_get_set_eq; exact Hrange|].
    reflexivity.
  - eapply IH; [|exact Hflag].
    rewrite Hrs, array_get_set_ne by lia. exact Hx.
Qed.

(** The slots of the entries a reaping pass takes off the queue, one for
    each fd it closes, are not alive when the pass ends. *)
Lemma reaps_marks_not_alive (w w' : worker ReqState)
    (tr : list (call ReqState)) :
  0 <= death_queue_population w ->
  reaps l w tr w' ->
  forall x, x ∈ take (length tr) (queue_fds l w) ->
    exists request',
      array_get (requests w') x = Some request'
      /\ flags_alive request' = false.
Proof.
  intros Hpop Hreaps.
  induction Hreaps
    as [w Hz | w head request0 Hnz Hhead Hreq Hlt
        | w head request0 w1 tr w2 Hnz Hhead Hreq Hle Hrs Hdq Hl Hf Hp Ht
            Hreaps IH];
    intros x Hx; [inversion Hx | inversion Hx |].
  assert (Hfds : queue_fds l w = head :: queue_fds l w1).
  { unfold queue_fds. rewrite Hdq, Hf, Hp.
    replace (Z.to_nat (death_queue_population w))
      with (S (Z.to_nat (death_queue_population w - 1))) by lia.
    cbn [ring_read]. rewrite Hhead. reflexivity. }
  rewrite Hfds in Hx. cbn [length take] in Hx.
  apply elem_of_cons in Hx as [-> | Hx].
  - pose proof (array_get_range _ _ _ Hreq) as Hrange.
    eapply (reaps_keeps_not_alive w1 w2 tr Hreaps);
      [rewrite Hrs; apply array_get_set_eq; exact Hrange | reflexivity].
  - apply IH; [lia | exact Hx].
Qed.

(** C5.  Every pass of the worker loop calls [epoll_wait] first, with a
    timeout of 1000 ms when the death queue is not empty and -1 (no timeout)
    when it is empty.  When [epoll_wait] reports a timeout, the worker
    increments its tick and reaps: while the queue is not empty and the slot
    at its head has a deadline at or before the tick, it marks the slot not
    alive, closes its fd, advances the head and decrements the population;
    it stops at the first entry that has not expired, and goes on running.
    The slot of every entry taken off the queue, one for each fd closed, has
    [flags.alive] false when the pass ends. *)
Theorem timeout_case_reaps_expired_heads (w : worker ReqState) :
  ring_ok l w ->
  (forall r tr s,
     iteration w r = Some (tr, s) ->
     head tr
     = Some (EpollWait (if decide (death_queue_population w = 0)
                        then -1 else 1000)))
  /\ exists tr w',
      iteration w (WaitReady [])
      = Some (EpollWait (epoll_timeout w) :: tr, Running w')
      /\ death_time w' = wrap_uint (death_time w + 1)
      /\ reaps l (tick w) tr w'
      /\ (forall x, x ∈ take (length tr) (queue_fds l w) ->
            exists request',
              array_get (requests w') x = Some request'
              /\ flags_alive request' = false)
      /\ (death_queue_population w' = 0
          \/ exists head request,
               array_get (death_queue w') (death_queue_first w') = Some head
               /\ array_get (requests w') head = Some request
               /\ death_time w' < time_to_die request).
Proof.
  intros Hok. split.
  - intros r tr s. unfold thread_iteration, epoll_timeout.
    destruct (decide (death_queue_population w = 0)) as [-> | Hnz].
    + cbn. destruct r as [errno | [|e es]];
        repeat match goal with
          | |- context [match ?x with _ => _ end] => destruct x
          end; intros [= <- _] || discriminate; reflexivity.
    + destruct (Z.eqb_spec (death_queue_population w) 0); [contradiction|].
      destruct r as [errno | [|e es]];
        repeat match goal with
          | |- context [match ?x with _ => _ end] => destruct x
          end; intros [= <- _] || discriminate; reflexivity.
  - destruct (reap_reaps (Z.to_nat (death_queue_population w)) (tick w))
      as (tr & w' & Hreap & Hreaps & Hok').
    { apply ring_ok_tick; assumption. }
    { pose proof (ring_population _ _ _ Hok). cbn. lia. }
    exists tr, w'. unfold thread_iteration. rewrite Hreap.
    split; [reflexivity|]. split.
    { rewrite (reaps_death_time _ _ _ Hreaps). reflexivity. }
    split; [assumption|]. split; [|eapply reaps_stops; eauto].
    apply (reaps_marks_not_alive (tick w) w' tr);
      [apply (ring_population _ _ _ Hok) | assumption].
Qed.

(** ** C4: a stale entry at the head of the queue *)

Lemma reaps_population (w w' : worker ReqState) (tr : list (call ReqState)) :
  reaps l w tr w' -> death_queue_population w' <= death_queue_population w.
Proof. induction 1; lia. Qed.

(** A timeout with an expired entry at the head: the reaper closes the fd of
    its slot, whatever the slot's alive flag, and reaps on from the next. *)
Lemma timeout_reaps_expired_head (w : worker ReqState) (head : Z)
    (request : lwan_request_t ReqState) :
  ring_ok l w ->
  death_queue_population w <> 0 ->
  array_get (death_queue w) (death_queue_first w) = Some head ->
  array_get (requests w) head = Some request ->
  time_to_die request <= wrap_uint (death_time w + 1) ->
  exists tr w',
    iteration w (WaitReady [])
    = Some (EpollWait 1000 :: Close (fd request) :: tr, Running w')
    /\ death_queue_population w' <= death_queue_population w - 1.
Proof.
  intros Hok Hnz Hhead Hreq Hexp.
  pose proof (ring_population _ _ _ Hok) as Hpop.
  pose proof (ring_ok_tick w Hok) as Hokt.
  destruct (reap_head_ring (tick w) head request Hokt Hnz Hreq)
    as (w1 & Hrh & Hrs & Hdq & Hl & Hf & Hp & Ht & Hok1).
  destruct (reap_reaps (Z.to_nat (death_queue_population w - 1)) w1 Hok1)
    as (tr & w' & Hreap & Hreaps & _).
  { rewrite Hp. cbn. lia. }
  exists tr, w'. split.
  - unfold thread_iteration, epoll_timeout.
    destruct (Z.eqb_spec (death_queue_population w) 0); [contradiction|].
    replace (Z.to_nat (death_queue_population w))
      with (S (Z.to_nat (death_queue_population w - 1))) by lia.
    cbn [reap]. cbn [tick death_queue_population death_queue
                     death_queue_first requests death_time].
    destruct (Z.eqb_spec (death_queue_population w) 0); [contradiction|].
    rewrite Hhead, Hreq.
    destruct (Z.leb_spec (time_to_die request) (wrap_uint (death_time w + 1)));
      [|lia].
    rewrite Hrh, Hreap. reflexivity.
  - apply reaps_population in Hreaps. cbn in Hp. lia.
Qed.

(** A timeout with an expired entry at the head, step by step: the first
    pass of the reaping loop writes the slot, moves the head and lowers the
    population, and the loop reaps on from there. *)
Lemma timeout_takes_expired_head (w : worker ReqState) (head : Z)
    (request : lwan_request_t ReqState) :
  ring_ok l w ->
  death_queue_population w <> 0 ->
  array_get (death_queue w) (death_queue_first w) = Some head ->
  array_get (requests w) head = Some request ->
  time_to_die request <= wrap_uint (death_time w + 1) ->
  exists tr w1 w',
    iteration w (WaitReady [])
    = Some (EpollWait 1000 :: Close (fd request) :: tr, Running w')
    /\ requests w1
       = <[Z.to_nat head :=
             {| fd := fd request; flags_alive := false;
                flags_is_keep_alive := flags_is_keep_alive request;
                time_to_die := time_to_die request;
                response_buffer := response_buffer request;
                request_state := request_state request |}]> (requests w)
    /\ death_queue w1 = death_queue w
    /\ death_queue_last w1 = death_queue_last w
    /\ death_queue_first w1 = (death_queue_first w + 1) mod thread_max_fd l
    /\ death_queue_population w1 = death_queue_population w - 1
    /\ death_time w1 = wrap_uint (death_time w + 1)
    /\ reaps l w1 tr w'.
Proof.
  intros Hok Hnz Hhead Hreq Hexp.
  pose proof (ring_population _ _ _ Hok) as Hpop.
  pose proof (ring_ok_tick w Hok) as Hokt.
  destruct (reap_head_ring (tick w) head request Hokt Hnz Hreq)
    as (w1 & Hrh & Hrs & Hdq & Hl & Hf & Hp & Ht & Hok1).
  destruct (reap_reaps (Z.to_nat (death_queue_population w - 1)) w1 Hok1)
    as (tr & w' & Hreap & Hreaps & _).
  { rewrite Hp. cbn. lia. }
  exists tr, w1, w'. split.
  - unfold thread_iteration, epoll_timeout.
    destruct (Z.eqb_spec (death_queue_population w) 0); [contradiction|].
    replace (Z.to_nat (death_queue_population w))
      with (S (Z.to_nat (death_queue_population w - 1))) by lia.
    cbn [reap]. cbn [tick death_queue_population death_queue
                     death_queue_first requests death_time].
    destruct (Z.eqb_spec (death_queue_population w) 0); [contradiction|].
    rewrite Hhead, Hreq.
    destruct (Z.leb_spec (time_to_die request) (wrap_uint (death_time w + 1)));
      [|lia].
    rewrite Hrh, Hreap. reflexivity.
  - split; [exact Hrs|]. split; [exact Hdq|]. split; [exact Hl|].
    split; [exact Hf|]. split; [exact Hp|]. split; [exact Ht | exact Hreaps].
Qed.

(** C4, amended.  On a ring in shape: a hang-up writes [flags.alive = false]
    into the slot of the fd and leaves the queue as it is, the entry of the
    fd included; and when a timeout finds at the head of the queue the entry
    of a slot that is not alive, with a deadline at or before the new tick,
    the reaper does not skip it: it closes the fd stored in the slot, writes
    [flags.alive = false] again, moves the head one cell on round the ring,
    lowers the population by one, and reaps on from the next entry. *)
Theorem stale_head_is_reaped_and_closed (w : worker ReqState) :
  ring_ok l w ->
  (forall e request,
     hung_up e = true ->
     array_get (requests w) (data_fd e) = Some request ->
     exists tr0 w0,
       handle w e = Some (tr0, w0)
       /\ array_get (requests w0) (data_fd e)
          = Some {| fd := fd request; flags_alive := false;
                    flags_is_keep_alive := flags_is_keep_alive request;
                    time_to_die := time_to_die request;
                    response_buffer := response_buffer request;
                    request_state := request_state request |}
       /\ death_queue w0 = death_queue w
       /\ death_queue_first w0 = death_queue_first w
       /\ death_queue_last w0 = death_queue_last w
       /\ death_queue_population w0 = death_queue_population w
       /\ ring_ok l w0)
  /\ (forall head request,
        death_queue_population w <> 0 ->
        array_get (death_queue w) (death_queue_first w) = Some head ->
        array_get (requests w) head = Some request ->
        flags_alive request = false ->
        time_to_die request <= wrap_uint (death_time w + 1) ->
        exists tr w1 w',
          iteration w (WaitReady [])
          = Some (EpollWait 1000 :: Close (fd request) :: tr, Running w')
          /\ requests w1
             = <[Z.to_nat head :=
                   {| fd := fd request; flags_alive := false;
                      flags_is_keep_alive := flags_is_keep_alive request;
                      time_to_die := time_to_die request;
                      response_buffer := response_buffer request;
                      request_state := request_state request |}]> (requests w)
          /\ death_queue w1 = death_queue w
          /\ death_queue_last w1 = death_queue_last w
          /\ death_queue_first w1
             = (death_queue_first w + 1) mod thread_max_fd l
          /\ death_queue_population w1 = death_queue_population w - 1
          /\ death_time w1 = wrap_uint (death_time w + 1)
          /\ reaps l w1 tr w').
Proof.
  intros Hok. split.
  - intros e request Hup Hreq.
    pose proof (array_get_range _ _ _ Hreq) as Hfd.
    rewrite (handle_event_hung_up w e request Hup Hreq).
    eexists _, _. split; [reflexivity|].
    cbn [with_requests requests death_queue death_queue_first
         death_queue_last death_queue_population].
    split; [apply array_get_set_eq; assumption|].
    do 4 (split; [reflexivity|]).
    apply ring_ok_with_requests; [assumption | apply length_insert].
  - intros head request Hnz Hhead Hreq _ Hexp.
    apply (timeout_takes_expired_head w head request); assumption.
Qed.

(** ** C10: appending to a full queue *)

(** C10.  The append has no capacity check.  In a state whose population
    equals the capacity [max_fd] the tail stands on the head; when a request
    on a slot that is not alive is kept alive, its fd is written over the
    entry at the head, the oldest one not yet reaped, and the population
    becomes [max_fd + 1]. *)
Theorem append_to_full_queue_overwrites_head (w : worker ReqState)
    (e : epoll_event Input) (request request1 : lwan_request_t ReqState) :
  ring_ok l w ->
  death_queue_population w = thread_max_fd l ->
  hung_up e = false ->
  array_get (requests w) (data_fd e) = Some request ->
  request1
  = lwan_process_request (socket_input e)
      (slot_at_entry zero_state request (data_fd e)) ->
  flags_is_keep_alive request1 = true ->
  flags_alive request1 = false ->
  exists tr w',
    handle w e = Some (tr, w')
    /\ death_queue_last w = death_queue_first w
    /\ death_queue w'
       = <[Z.to_nat (death_queue_first w) := data_fd e]> (death_queue w)
    /\ array_get (death_queue w') (death_queue_first w') = Some (data_fd e)
    /\ death_queue_first w' = death_queue_first w
    /\ death_queue_population w' = thread_max_fd l + 1
    /\ thread_max_fd l < death_queue_population w'.
Proof.
  intros Hok Hfull Hup Hget Hr1 Hka Halive.
  destruct Hok as [Hcap Hlen Hfirst Hlast Hpopr Hslots]. unfold INT_MAX in *.
  assert (Htail : death_queue_last w = death_queue_first w).
  { rewrite Hlast, Hfull.
    rewrite <- (Z.mul_1_l (thread_max_fd l)) at 1.
    rewrite Z.mod_add by lia. apply Z.mod_small; lia. }
  destruct (array_get_in_range (death_queue w) (death_queue_last w))
    as [old Hold]; [lia|].
  pose proof (array_get_range _ _ _ Hget) as Hfd.
  rewrite (handle_event_readable w e request Hup Hget). cbv zeta.
  rewrite <- Hr1, Hka, Halive.
  unfold death_queue_append. rewrite (array_set_Some _ _ _ _ Hold).
  destruct (Z.eqb_spec (thread_max_fd l) 0); [lia|].
  eexists _, _. split; [reflexivity|].
  cbn [with_requests death_queue death_queue_first death_queue_population].
  rewrite Htail, Hfull, wrap_int_small by (unfold INT_MIN, INT_MAX; lia).
  repeat split; try reflexivity; try lia.
  apply array_get_set_eq; lia.
Qed.

(** ** C2: the order of the deadlines in the queue *)

Lemma non_decreasing_snoc (ds : list Z) (x : Z) :
  non_decreasing ds -> (forall d, d ∈ ds -> d <= x) ->
  non_decreasing (ds ++ [x]).
Proof.
  intros Hnd Hle i j a b Hij Ha Hb.
  apply lookup_snoc_Some in Ha as [[Hi Ha] | [Hi ->]];
    apply lookup_snoc_Some in Hb as [[Hj Hb] | [Hj ->]].
  - exact (Hnd i j a b Hij Ha Hb).
  - apply Hle. eapply list_elem_of_lookup_2; eauto.
  - lia.
  - lia.
Qed.

Lemma non_decreasing_drop (ds : list Z) (k : nat) :
  non_decreasing ds -> non_decreasing (drop k ds).
Proof.
  intros Hnd i j a b Hij Ha Hb. rewrite lookup_drop in Ha, Hb.
  apply (Hnd (k + i)%nat (k + j)%nat a b); [lia | assumption | assumption].
Qed.

Lemma elem_of_drop_list (ds : list Z) (k : nat) (d : Z) :
  d ∈ drop k ds -> d ∈ ds.
Proof.
  intros Hd. apply list_elem_of_lookup in Hd as [i Hi].
  rewrite lookup_drop in Hi. eapply list_elem_of_lookup_2; eauto.
Qed.

Lemma deadline_insert_ne (rs : list (lwan_request_t ReqState)) (i x : Z)
    (r : lwan_request_t ReqState) :
  0 <= i -> x <> i -> deadline (<[Z.to_nat i := r]> rs) x = deadline rs x.
Proof.
  intros Hi Hne. unfold deadline. rewrite array_get_set_ne by auto. reflexivity.
Qed.

Lemma deadline_insert_eq (rs : list (lwan_request_t ReqState)) (i : Z)
    (r : lwan_request_t ReqState) :
  0 <= i < Z.of_nat (length rs) ->
  deadline (<[Z.to_nat i := r]> rs) i = time_to_die r.
Proof. intros Hi. unfold deadline. rewrite array_get_set_eq by auto. reflexivity. Qed.

Lemma deadline_insert_same (rs : list (lwan_request_t ReqState)) (i x : Z)
    (r r0 : lwan_request_t ReqState) :
  array_get rs i = Some r0 -> time_to_die r = time_to_die r0 ->
  deadline (<[Z.to_nat i := r]> rs) x = deadline rs x.
Proof.
  intros Hget Ht. pose proof (array_get_range _ _ _ Hget) as Hi.
  destruct (Z.eq_dec x i) as [-> | Hne].
  - rewrite deadline_insert_eq by auto. unfold deadline. rewrite Hget. auto.
  - apply deadline_insert_ne; lia.
Qed.

Lemma deadlines_insert_fresh (rs : list (lwan_request_t ReqState)) (i : Z)
    (r : lwan_request_t ReqState) (fds : list Z) :
  0 <= i -> i ∉ fds ->
  deadline (<[Z.to_nat i := r]> rs) <$> fds = deadline rs <$> fds.
Proof.
  intros Hi Hnot. apply list_fmap_ext. intros k x Hx.
  apply deadline_insert_ne; [assumption|].
  intros ->. apply Hnot. eapply list_elem_of_lookup_2; eauto.
Qed.

Lemma mod_wrap_once (a m : Z) :
  0 < m -> 0 <= a < 2 * m -> a mod m = if a <? m then a else a - m.
Proof.
  intros Hm Ha. destruct (Z.ltb_spec a m).
  - apply Z.mod_small; lia.
  - replace a with (a - m + 1 * m) at 1 by lia.
    rewrite Z.mod_add by lia. apply Z.mod_small; lia.
Qed.

(** Writing at the tail of a ring that is not full adds one entry at the end
    of what is read from the head. *)
Lemma ring_read_insert_tail (dq : list Z) (n : nat) (first fd : Z) :
  0 < thread_max_fd l ->
  Z.of_nat (length dq) = thread_max_fd l ->
  0 <= first < thread_max_fd l ->
  Z.of_nat n < thread_max_fd l ->
  ring_read l
    (<[Z.to_nat ((first + Z.of_nat n) mod thread_max_fd l) := fd]> dq)
    first (S n)
  = ring_read l dq first n ++ [fd].
Proof.
  intros Hm Hlen. revert first.
  induction n as [|n IH]; intros first Hfirst Hn.
  - cbn [ring_read]. rewrite Z.add_0_r, Z.mod_small by lia.
    rewrite array_get_set_eq by lia. reflexivity.
  - change (ring_read l ?d first (S (S n)))
      with (default 0 (array_get d first)
              :: ring_read l d ((first + 1) mod thread_max_fd l) (S n)).
    cbn [ring_read app].
    assert (Hk : (first + Z.of_nat (S n)) mod thread_max_fd l
                 = ((first + 1) mod thread_max_fd l + Z.of_nat n)
                     mod thread_max_fd l).
    { rewrite Zplus_mod_idemp_l. f_equal. lia. }
    assert (Hne : (first + Z.of_nat (S n)) mod thread_max_fd l <> first).
    { rewrite mod_wrap_once by lia.
      destruct (first + Z.of_nat (S n) <? thread_max_fd l); lia. }
    rewrite array_get_set_ne; [| apply Z.mod_pos_bound; lia | assumption].
    f_equal. rewrite Hk. apply IH; [apply Z.mod_pos_bound; lia | lia].
Qed.

(** The append on a ring in shape: the code's arithmetic is the plain one,
    and the ring stays in shape, whatever the population. *)
Lemma death_queue_append_ring (w : worker ReqState) (fd : Z) :
  ring_ok l w ->
  death_queue_population w < INT_MAX ->
  0 <= fd < Z.of_nat (length (requests w)) ->
  exists w',
    death_queue_append l w fd = Some w'
    /\ requests w' = requests w
    /\ death_queue w' = <[Z.to_nat (death_queue_last w) := fd]> (death_queue w)
    /\ death_queue_last w' = (death_queue_last w + 1) mod thread_max_fd l
    /\ death_queue_first w' = death_queue_first w
    /\ death_queue_population w' = death_queue_population w + 1
    /\ death_time w' = death_time w
    /\ ring_ok l w'.
Proof.
  intros Hok Hroom Hfd. destruct Hok as [Hcap Hlen Hfirst Hlast Hpopr Hslots].
  unfold INT_MAX in *. unfold death_queue_append.
  assert (Hlastb : 0 <= death_queue_last w < thread_max_fd l).
  { rewrite Hlast. apply Z.mod_pos_bound; lia. }
  destruct (array_get_in_range (death_queue w) (death_queue_last w))
    as [old Hold]; [lia|].
  rewrite (array_set_Some _ _ _ _ Hold).
  destruct (Z.eqb_spec (thread_max_fd l) 0); [lia|].
  rewrite !wrap_int_small by (unfold INT_MIN, INT_MAX; lia).
  rewrite Z.rem_mod_nonneg by lia.
  eexists; split; [reflexivity|]. cbn.
  repeat (split; [reflexivity|]).
  constructor; cbn; unfold INT_MAX; try lia.
  - rewrite length_insert. assumption.
  - rewrite Hlast, Zplus_mod_idemp_l. f_equal. lia.
  - intros x Hx. apply list_elem_of_lookup in Hx as [i Hi].
    apply list_lookup_insert_Some in Hi as [(_ & <- & _) | (_ & Hi)].
    + exact Hfd.
    + apply Hslots. eapply list_elem_of_lookup_2; eauto.
Qed.

Lemma queue_fds_append (w w' : worker ReqState) (fd : Z) :
  ring_ok l w ->
  death_queue_population w < thread_max_fd l ->
  0 <= fd < Z.of_nat (length (requests w)) ->
  death_queue_append l w fd = Some w' ->
  queue_fds l w' = queue_fds l w ++ [fd] /\ requests w' = requests w
  /\ death_time w' = death_time w /\ ring_ok l w'.
Proof.
  intros Hok Hroom Hfd Happ.
  pose proof (ring_capacity _ _ _ Hok) as Hcap.
  pose proof (ring_population _ _ _ Hok) as Hpopr.
  destruct (death_queue_append_ring w fd Hok) as
    (w1 & Happ1 & Hrs & Hdq & Hl & Hf & Hp & Ht & Hok1); [lia | assumption |].
  rewrite Happ1 in Happ. injection Happ as <-.
  split; [| auto]. unfold queue_fds. rewrite Hdq, Hf, Hp.
  replace (Z.to_nat (death_queue_population w + 1))
    with (S (Z.to_nat (death_queue_population w))) by lia.
  rewrite (ring_last _ _ _ Hok).
  replace (death_queue_population w)
    with (Z.of_nat (Z.to_nat (death_queue_population w))) at 1 by lia.
  apply ring_read_insert_tail;
    [lia | apply (ring_length _ _ _ Hok) | apply (ring_first _ _ _ Hok) | lia].
Qed.

(** A reaping pass drops entries from the head of the queue and changes no
    deadline. *)
Lemma reaps_queue_deadlines (w w' : worker ReqState) (tr : list (call ReqState)) :
  0 <= death_queue_population w ->
  reaps l w tr w' ->
  exists k, queue_deadlines l w' = drop k (queue_deadlines l w).
Proof.
  intros Hpop Hreaps.
  induction Hreaps
    as [w Hz | w head request Hnz Hhead Hreq Hlt
        | w head request w1 tr w2 Hnz Hhead Hreq Hle Hrs Hdq Hl Hf Hp Ht Hreaps IH].
  - exists 0%nat. reflexivity.
  - exists 0%nat. reflexivity.
  - destruct IH as [k Hk]; [lia|]. exists (S k). rewrite Hk.
    unfold queue_deadlines, queue_fds. rewrite Hrs, Hdq, Hf, Hp.
    replace (Z.to_nat (death_queue_population w))
      with (S (Z.to_nat (death_queue_population w - 1))) by lia.
    cbn [ring_read fmap list_fmap drop]. f_equal.
    apply list_fmap_ext. intros i x _.
    eapply deadline_insert_same; eauto.
Qed.

(** Handling an event on an fd that has no entry in the queue keeps the
    order of the queue, when the queue is not full. *)
Lemma handle_event_fresh_order (w w' : worker ReqState) (e : epoll_event Input)
    (tr : list (call ReqState)) :
  ring_ok l w ->
  non_decreasing (queue_deadlines l w) ->
  (forall d, d ∈ queue_deadlines l w ->
             d <= wrap_uint (death_time w + config_keep_alive_timeout l)) ->
  data_fd e ∉ queue_fds l w ->
  death_queue_population w < thread_max_fd l ->
  handle w e = Some (tr, w') ->
  ring_ok l w'
  /\ non_decreasing (queue_deadlines l w')
  /\ (forall d, d ∈ queue_deadlines l w' ->
                d <= wrap_uint (death_time w' + config_keep_alive_timeout l)).
Proof.
  intros Hok Hnd Hbound Hfresh Hroom Hrun.
  destruct (array_get (requests w) (data_fd e)) as [request|] eqn:Hget;
    [| unfold handle_event in Hrun; rewrite Hget in Hrun; discriminate].
  pose proof (array_get_range _ _ _ Hget) as Hfd.
  assert (Hsame : forall r, 
             ring_ok l (with_requests (<[Z.to_nat (data_fd e) := r]> (requests w)) w)
             /\ queue_deadlines l
                  (with_requests (<[Z.to_nat (data_fd e) := r]> (requests w)) w)
                = queue_deadlines l w).
  { intros r. split.
    - apply ring_ok_with_requests; [assumption | apply length_insert].
    - unfold queue_deadlines. cbn [with_requests requests].
      apply deadlines_insert_fresh; [lia | exact Hfresh]. }
  destruct (hung_up e) eqn:Hup.
  - rewrite (handle_event_hung_up w e request Hup Hget) in Hrun.
    injection Hrun as <- <-.
    destruct (Hsame (set_alive false request)) as [Hok' ->]. auto.
  - rewrite (handle_event_readable w e request Hup Hget) in Hrun.
    cbv zeta in Hrun.
    destruct (flags_is_keep_alive _) in Hrun.
    + destruct (flags_alive _) in Hrun.
      * injection Hrun as <- <-.
        match goal with
        | |- context [<[_ := ?r]> (requests w)] =>
          destruct (Hsame r) as [Hok' ->]
        end. auto.
      * destruct (death_queue_append l w (data_fd e)) as [w1|] eqn:Happ;
          [|discriminate].
        injection Hrun as <- <-.
        destruct (queue_fds_append w w1 (data_fd e) Hok Hroom Hfd Happ)
          as (Hfds & Hrs & Hdt & Hok1).
        split.
        { apply ring_ok_with_requests; [assumption|].
          rewrite length_insert. congruence. }
        unfold queue_deadlines in *. cbn [with_requests requests death_time].
        change (queue_fds l (with_requests ?rs w1)) with (queue_fds l w1).
        rewrite Hfds, fmap_app, Hdt.
        rewrite deadlines_insert_fresh by (lia || exact Hfresh).
        cbn [fmap list_fmap]. rewrite deadline_insert_eq by lia.
        cbn [set_alive set_time_to_die time_to_die].
        split.
        { apply non_decreasing_snoc; assumption. }
        intros d Hd. apply elem_of_app in Hd as [Hd | Hd].
        { auto. }
        { apply list_elem_of_singleton in Hd as ->. lia. }
    + injection Hrun as <- <-.
      match goal with
      | |- context [<[_ := ?r]> (requests w)] =>
        destruct (Hsame r) as [Hok' ->]
      end. auto.
Qed.

(** C2, amended.  With the queue in shape, its deadlines non-decreasing from
    head to tail and none after [death_time + keep_alive_timeout]: handling an
    event on an fd that has no entry in the queue, the queue not being full,
    keeps all three (a new keep-alive fd is appended with the latest
    deadline); and a timeout pass keeps the order, and keeps the bound too
    while the tick does not wrap.  Nothing is said of an event on an fd that
    already has an entry: its deadline is rewritten where the entry stands. *)
Theorem deadline_order_kept_by_fresh_appends_and_reaping (w : worker ReqState) :
  ring_ok l w ->
  non_decreasing (queue_deadlines l w) ->
  (forall d, d ∈ queue_deadlines l w ->
             d <= wrap_uint (death_time w + config_keep_alive_timeout l)) ->
  (forall e tr w',
     data_fd e ∉ queue_fds l w ->
     death_queue_population w < thread_max_fd l ->
     handle w e = Some (tr, w') ->
     ring_ok l w'
     /\ non_decreasing (queue_deadlines l w')
     /\ (forall d, d ∈ queue_deadlines l w' ->
           d <= wrap_uint (death_time w' + config_keep_alive_timeout l)))
  /\ (forall tr w',
        iteration w (WaitReady []) = Some (tr, Running w') ->
        ring_ok l w'
        /\ non_decreasing (queue_deadlines l w')
        /\ (0 <= death_time w -> 0 <= config_keep_alive_timeout l ->
            death_time w + 1 + config_keep_alive_timeout l < 4294967296 ->
            forall d, d ∈ queue_deadlines l w' ->
              d <= wrap_uint (death_time w' + config_keep_alive_timeout l))).
Proof.
  intros Hok Hnd Hbound. split.
  - intros e tr w' Hfresh Hroom Hrun.
    eapply handle_event_fresh_order; eauto.
  - intros tr w' Hrun.
    destruct (reap_reaps (Z.to_nat (death_queue_population w)) (tick w))
      as (tr0 & w0 & Hreap & Hreaps & Hok0).
    { apply ring_ok_tick; assumption. }
    { pose proof (ring_population _ _ _ Hok). cbn. lia. }
    unfold thread_iteration in Hrun. rewrite Hreap in Hrun.
    injection Hrun as _ <-.
    destruct (reaps_queue_deadlines (tick w) w0 tr0) as [k Hk];
      [apply (ring_population _ _ _ Hok) | assumption |].
    change (queue_deadlines l (tick w)) with (queue_deadlines l w) in Hk.
    split; [assumption|]. rewrite Hk. split.
    + apply non_decreasing_drop; assumption.
    + intros Ht HT Hwrap d Hd. apply elem_of_drop_list in Hd.
      specialize (Hbound d Hd).
      rewrite (reaps_death_time _ _ _ Hreaps). cbn [tick death_time].
      unfold wrap_uint in *.
      rewrite (Z.mod_small (death_time w + 1)) by lia.
      rewrite Z.mod_small in Hbound by lia.
      rewrite Z.mod_small by lia. lia.
Qed.

(** ** The ring stays in shape along the loop *)

Lemma handle_event_ring_ok (w w' : worker ReqState) (e : epoll_event Input)
    (tr : list (call ReqState)) :
  ring_ok l w ->
  death_queue_population w < INT_MAX ->
  handle w e = Some (tr, w') ->
  ring_ok l w'
  /\ death_queue_population w <= death_queue_population w'
     <= death_queue_population w + 1.
Proof.
  intros Hok Hroom Hrun.
  destruct (array_get (requests w) (data_fd e)) as [request|] eqn:Hget;
    [| unfold handle_event in Hrun; rewrite Hget in Hrun; discriminate].
  pose proof (array_get_range _ _ _ Hget) as Hfd.
  assert (Hsame : forall r,
             ring_ok l (with_requests (<[Z.to_nat (data_fd e) := r]> (requests w)) w)).
  { intros r. apply ring_ok_with_requests; [assumption | apply length_insert]. }
  destruct (hung_up e) eqn:Hup.
  - rewrite (handle_event_hung_up w e request Hup Hget) in Hrun.
    injection Hrun as <- <-. cbn. split; [apply Hsame | lia].
  - rewrite (handle_event_readable w e request Hup Hget) in Hrun.
    cbv zeta in Hrun.
    destruct (flags_is_keep_alive _) in Hrun.
    + destruct (flags_alive _) in Hrun.
      * injection Hrun as <- <-. cbn. split; [apply Hsame | lia].
      * destruct (death_queue_append_ring w (data_fd e) Hok Hroom Hfd)
          as (w1 & Happ & Hrs & Hdq & Hl & Hf & Hp & Ht & Hok1).
        rewrite Happ in Hrun. injection Hrun as <- <-. cbn. split; [|lia].
        apply ring_ok_with_requests; [assumption|].
        rewrite length_insert. congruence.
    + injection Hrun as <- <-. cbn. split; [apply Hsame | lia].
Qed.

Lemma handle_events_ring_ok (es : list (epoll_event Input))
    (w w' : worker ReqState) (tr : list (call ReqState)) :
  ring_ok l w ->
  death_queue_population w + Z.of_nat (length es) <= INT_MAX ->
  handle_events zero_state lwan_process_request l w es = Some (tr, w') ->
  ring_ok l w'
  /\ death_queue_population w' <= death_queue_population w + Z.of_nat (length es).
Proof.
  revert w tr. induction es as [|e es IH]; intros w tr Hok Hroom Hrun.
  - cbn in Hrun. injection Hrun as <- <-. split; [assumption | cbn; lia].
  - cbn [handle_events] in Hrun. cbn [length] in Hroom.
    destruct (handle w e) as [[tr1 w1]|] eqn:He; [|discriminate].
    destruct (handle_event_ring_ok w w1 e tr1 Hok) as [Hok1 Hp1];
      [lia | assumption |].
    destruct (handle_events _ _ _ w1 es) as [[tr2 w2]|] eqn:Hes; [|discriminate].
    injection Hrun as <- <-.
    destruct (IH w1 tr2 Hok1) as [Hok2 Hp2]; [lia | assumption |].
    split; [assumption | cbn [length]; lia].
Qed.

(** Every pass of the loop that leaves the thread running leaves the ring in
    shape, as long as the population counter does not pass [INT_MAX]. *)
Lemma thread_iteration_ring_ok (w w' : worker ReqState)
    (r : epoll_wait_result Input) (tr : list (call ReqState)) :
  ring_ok l w ->
  (forall es, r = WaitReady es ->
     death_queue_population w + Z.of_nat (length es) <= INT_MAX) ->
  iteration w r = Some (tr, Running w') ->
  ring_ok l w'.
Proof.
  intros Hok Hroom Hrun. unfold thread_iteration in Hrun.
  destruct r as [errno | [|e es]].
  - destruct ((errno =? EBADF) || (errno =? EINVAL)); [discriminate|].
    destruct (errno =? EINTR); injection Hrun as _ <-; assumption.
  - destruct (reap_reaps (Z.to_nat (death_queue_population w)) (tick w))
      as (tr0 & w0 & Hreap & _ & Hok0).
    { apply ring_ok_tick; assumption. }
    { pose proof (ring_population _ _ _ Hok). cbn. lia. }
    rewrite Hreap in Hrun. injection Hrun as _ <-. assumption.
  - destruct (handle_events _ _ _ w (e :: es)) as [[tr1 w1]|] eqn:Hes;
      [|discriminate].
    injection Hrun as _ <-.
    eapply handle_events_ring_ok; eauto.
Qed.

Lemma thread_start_ring_ok (rs : list (lwan_request_t ReqState)) :
  0 < thread_max_fd l < INT_MAX -> rs <> [] ->
  ring_ok l (thread_start l rs).
Proof.
  intros Hcap Hrs. constructor; cbn; unfold INT_MAX in *; try lia.
  - rewrite length_replicate. lia.
  - rewrite Z.add_0_r, Z.mod_small; lia.
  - intros x Hx. apply elem_of_replicate in Hx as [-> _].
    destruct rs; [contradiction | cbn; lia].
Qed.

End WorkerProperties.

(** ** C6: the round-robin dispatcher *)

Section DispatcherProperties.

Variable l : lwan_t.

Lemma wrap_int_range (z : Z) : INT_MIN <= wrap_int z <= INT_MAX.
Proof.
  unfold wrap_int, INT_MIN, INT_MAX.
  pose proof (Z.mod_pos_bound (z + 2147483648) 4294967296). lia.
Qed.

Lemma wrap_int_add_l (a b : Z) : wrap_int (wrap_int a + b) = wrap_int (a + b).
Proof.
  unfold wrap_int.
  replace ((a + 2147483648) mod 4294967296 - 2147483648 + b + 2147483648)
    with ((a + 2147483648) mod 4294967296 + b) by lia.
  rewrite Zplus_mod_idemp_l. do 2 f_equal. lia.
Qed.

(** [k] calls in a row: the [i]-th returns the wrapped counter's remainder. *)
Lemma schedule_requests_eq (k : nat) (counter : Z) :
  thread_count l <> 0 ->
  INT_MIN <= counter <= INT_MAX ->
  schedule_requests l k counter
  = Some ((fun i => Z.rem (wrap_int (counter + Z.of_nat i)) (thread_count l))
            <$> seq 0 k,
          wrap_int (counter + Z.of_nat k)).
Proof.
  intros Hn. revert counter.
  induction k as [|k IH]; intros counter Hc.
  - cbn. rewrite Z.add_0_r, wrap_int_small by assumption. reflexivity.
  - cbn [schedule_requests]. unfold _schedule_request.
    destruct (Z.eqb_spec (thread_count l) 0); [contradiction|].
    rewrite IH by apply wrap_int_range.
    cbn [seq fmap list_fmap]. rewrite <- fmap_S_seq, <- list_fmap_compose.
    rewrite Z.add_0_r, (wrap_int_small counter) by assumption.
    f_equal. f_equal.
    + f_equal. apply list_fmap_ext. intros i x _. cbn. rewrite wrap_int_add_l.
      do 2 f_equal. lia.
    + rewrite wrap_int_add_l. f_equal. lia.
Qed.

Lemma count_occ_snoc (idxs : list Z) (x j : Z) :
  times_selected j (idxs ++ [x])
  = times_selected j idxs + (if decide (x = j) then 1 else 0).
Proof.
  unfold times_selected. rewrite count_occ_app. cbn.
  destruct (Z.eq_dec x j), (decide (x = j)); try contradiction; lia.
Qed.

(** Among the remainders of 0, 1, ..., k-1, worker [j] appears once for
    every full round, and once more when the last, partial round got to it. *)
Lemma remainders_selected (n : Z) (k : nat) (j : Z) :
  0 < n -> 0 <= j < n ->
  times_selected j ((fun i => Z.of_nat i mod n) <$> seq 0 k)
  = Z.of_nat k / n + (if j <? Z.of_nat k mod n then 1 else 0).
Proof.
  intros Hn Hj. induction k as [|k IH].
  - cbn. rewrite Z.div_0_l, Z.mod_0_l by lia.
    destruct (Z.ltb_spec j 0); [lia | reflexivity].
  - rewrite seq_S, fmap_app. cbn [fmap list_fmap].
    rewrite count_occ_snoc, IH. cbn [Nat.add].
    assert (Hq := Z.div_mod (Z.of_nat k) n ltac:(lia)).
    assert (Hr := Z.mod_pos_bound (Z.of_nat k) n Hn).
    destruct (Z.eq_dec (Z.of_nat k mod n + 1) n) as [Hwrap | Hnowrap].
    + assert (Hd : Z.of_nat (S k) / n = Z.of_nat k / n + 1).
      { symmetry. apply (Z.div_unique _ _ _ 0); lia. }
      assert (Hm : Z.of_nat (S k) mod n = 0).
      { symmetry. apply (Z.mod_unique _ _ (Z.of_nat k / n + 1)); lia. }
      rewrite Hd, Hm.
      destruct (decide (Z.of_nat k mod n = j)), (Z.ltb_spec j (Z.of_nat k mod n)),
        (Z.ltb_spec j 0); lia.
    + assert (Hd : Z.of_nat (S k) / n = Z.of_nat k / n).
      { symmetry. apply (Z.div_unique _ _ _ (Z.of_nat k mod n + 1)); lia. }
      assert (Hm : Z.of_nat (S k) mod n = Z.of_nat k mod n + 1).
      { symmetry. apply (Z.mod_unique _ _ (Z.of_nat k / n)); lia. }
      rewrite Hd, Hm.
      destruct (decide (Z.of_nat k mod n = j)), (Z.ltb_spec j (Z.of_nat k mod n)),
        (Z.ltb_spec j (Z.of_nat k mod n + 1)); lia.
Qed.

(** While the counter has not passed [INT_MAX], that is for up to 2^31
    accepts, round-robin is fair: every index is in [0, count), and worker
    [j] has been selected [K / count] times, plus once when [j] is below
    [K mod count]; this is the floor or the ceiling of [K / count]. *)
Lemma round_robin_fair_below_overflow (K : nat) (j : Z) :
  0 < thread_count l ->
  Z.of_nat K <= INT_MAX ->
  0 <= j < thread_count l ->
  exists idxs counter,
    schedule_requests l K 0 = Some (idxs, counter)
    /\ Forall (fun i => 0 <= i < thread_count l) idxs
    /\ times_selected j idxs
       = Z.of_nat K / thread_count l
         + (if j <? Z.of_nat K mod thread_count l then 1 else 0)
    /\ (times_selected j idxs = Z.of_nat K / thread_count l
        \/ times_selected j idxs
           = (Z.of_nat K + thread_count l - 1) / thread_count l).
Proof.
  intros Hn HK Hj. unfold INT_MAX in HK.
  rewrite schedule_requests_eq by (unfold INT_MIN, INT_MAX; lia).
  eexists _, _. split; [reflexivity|].
  assert (Heq : (fun i => Z.rem (wrap_int (0 + Z.of_nat i)) (thread_count l))
                  <$> seq 0 K
                = (fun i => Z.of_nat i mod thread_count l) <$> seq 0 K).
  { apply list_fmap_ext. intros i x Hx.
    apply lookup_seq in Hx as [-> Hi]. cbn [Nat.add].
    rewrite Z.add_0_l, wrap_int_small by (unfold INT_MIN, INT_MAX; lia).
    apply Z.rem_mod_nonneg; lia. }
  rewrite Heq. split.
  { apply Forall_fmap, Forall_forall. intros i _. cbn.
    apply Z.mod_pos_bound; lia. }
  rewrite remainders_selected by assumption. split; [reflexivity|].
  assert (Hq := Z.div_mod (Z.of_nat K) (thread_count l) ltac:(lia)).
  assert (Hr := Z.mod_pos_bound (Z.of_nat K) (thread_count l) Hn).
  destruct (Z.ltb_spec j (Z.of_nat K mod thread_count l)); [|left; lia].
  right. apply (Z.div_unique _ _ _ (Z.of_nat K mod thread_count l - 1)); lia.
Qed.

End DispatcherProperties.

(** C6, as the code runs with three workers: the counter is an [int]; the
    2^31-th accept takes it past [INT_MAX], and the accept after that is
    given the index -2, which is no worker. *)
Theorem round_robin_index_after_int_max_accepts :
  exists idxs counter,
    schedule_requests three_workers (Z.to_nat 2147483649) 0
    = Some (idxs, counter)
    /\ last idxs = Some (-2)
    /\ ~ (0 <= -2 < thread_count three_workers).
Proof.
  rewrite schedule_requests_eq by (cbn; unfold INT_MIN, INT_MAX; lia).
  eexists _, _. split; [reflexivity|]. split; [|cbn; lia].
  replace (Z.to_nat 2147483649) with (S (Z.to_nat 2147483648)) by lia.
  generalize (eq_refl (Z.of_nat (Z.to_nat 2147483648))).
  rewrite Z2Nat.id at 2 by lia.
  generalize (Z.to_nat 2147483648). intros n Hn.
  rewrite seq_S, fmap_app. cbn [fmap list_fmap]. rewrite last_snoc.
  cbn [Nat.add]. rewrite Hn. reflexivity.
Qed.

(** ** C7: response buffers at start-up and shut-down *)

Section LifecycleProperties.

Context {ReqState : Type} (zero_state : ReqState).

(** The allocation loop stops before index 0: slot 0 is not written. *)
Lemma allocate_buffers_skips_slot_zero (r : nat)
    (rs rs' : list (lwan_request_t ReqState)) (h h' : strbuf_heap) :
  allocate_buffers ReqState r rs h = Some (rs', h') ->
  rs' !! 0%nat = rs !! 0%nat.
Proof.
  revert rs h. induction r as [|r IH]; intros rs h Hrun.
  - cbn in Hrun. injection Hrun as <- <-. reflexivity.
  - cbn [allocate_buffers] in Hrun.
    destruct (array_get rs (Z.of_nat (S r))) as [request|]; [|discriminate].
    cbn [strbuf_new] in Hrun.
    destruct (array_set rs (Z.of_nat (S r)) _) as [rs1|] eqn:Hset;
      [|discriminate].
    apply array_set_inv in Hset as [-> _].
    rewrite (IH _ _ Hrun). apply list_lookup_insert_ne. lia.
Qed.

(** Whatever the limits, the number of processors and the answers of the
    kernel, [lwan_init] leaves slot 0 of a non-empty table without a response
    buffer. *)
Lemma lwan_init_slot_zero_has_no_buffer (nprocessors_onln rlim_cur rlim_max : Z)
    (k : init_kernel) (h h' : strbuf_heap) (count max_fd : Z)
    (rs : list (lwan_request_t ReqState)) :
  lwan_init ReqState zero_state nprocessors_onln rlim_cur rlim_max k h
  = Some (Initialised count max_fd rs h') ->
  rs <> [] ->
  response_buffer <$> rs !! 0%nat = Some 0.
Proof.
  unfold lwan_init. intros Hrun Hne.
  destruct (getrlimit_result k <? 0); [discriminate|].
  destruct (setrlimit_result k <? 0); [discriminate|].
  destruct (allocate_buffers _ _ _ _) as [[rs1 h1]|] eqn:Halloc; [|discriminate].
  injection Hrun as _ _ <- _.
  rewrite (allocate_buffers_skips_slot_zero _ _ _ _ _ Halloc).
  destruct (calloc_returns_memory k).
  - destruct (Z.to_nat (raise_rlim_cur rlim_cur rlim_max)) as [|n] eqn:Hn.
    + cbn in Halloc.
      destruct (Z.to_nat (wrap_rlim _)) in Halloc; cbn in Halloc;
        [injection Halloc as <- _; contradiction | discriminate].
    + reflexivity.
  - destruct (Z.to_nat (wrap_rlim _)) in Halloc; cbn in Halloc;
      [injection Halloc as <- _; contradiction | discriminate].
Qed.

End LifecycleProperties.

(** C7, as the code runs with a limit of 1024 files and three processors,
    [getrlimit], [setrlimit] and [calloc] succeeding:
    [lwan_init] makes a table of 1024 slots and allocates 1023 buffers, slot 0
    is left with a NULL buffer; [lwan_shutdown] frees the buffers of slots
    0 to 3 * 341 - 1 = 1022, and the buffer of slot 1023 stays allocated. *)
Theorem init_skips_slot_zero_shutdown_skips_last_slots :
  exists rs h,
    lwan_init unit tt 3 1024 1024 init_kernel_ok empty_heap
    = Some (Initialised 3 341 rs h)
    /\ length rs = 1024%nat
    /\ response_buffer <$> rs !! 0%nat = Some 0
    /\ length (live_buffers h) = 1023%nat
    /\ exists p h',
        response_buffer <$> rs !! 1023%nat = Some p
        /\ p <> 0
        /\ lwan_shutdown unit 3 341 rs h = Some h'
        /\ live_buffers h' = [p].
Proof.
  destruct (lwan_init unit tt 3 1024 1024 init_kernel_ok empty_heap)
    as [[msg status | count max_fd rs h]|] eqn:Hinit;
    vm_compute in Hinit; try discriminate.
  injection Hinit as <- <- <- <-.
  eexists _, _. split; [reflexivity|].
  do 3 (split; [vm_compute; reflexivity|]).
  match goal with
  | |- context [lwan_shutdown unit 3 341 ?rs ?h] =>
    destruct (lwan_shutdown unit 3 341 rs h) as [h'|] eqn:Hshut;
      vm_compute in Hshut; [|discriminate]
  end.
  injection Hshut as <-.
  exists 1. eexists. split; [vm_compute; reflexivity|].
  split; [lia|]. split; reflexivity.
Qed.

(** ** C8: the acceptor loop *)

Section AcceptorProperties.

Variable l : lwan_t.
Variable threads_epoll_fd : list Z.
Variable accept4 : nat -> Z.
Variable epoll_ctl_add : Z -> Z -> Z.

Abbreviation push := (_push_request_fd l threads_epoll_fd epoll_ctl_add).
Abbreviation accepts := (accept_loop l threads_epoll_fd accept4 epoll_ctl_add).

(** A dispatch that does not end the process makes one [epoll_ctl (ADD)]
    for the fd and nothing else. *)
Lemma push_request_fd_accepting (a a' : acceptor) (fd : Z)
    (tr : list acceptor_call) :
  push a fd = Some (tr, Accepting a') ->
  accept4_calls a' = accept4_calls a
  /\ accept4_flags tr = [] /\ dispatched_fds tr = [fd] /\ logged tr = [].
Proof.
  unfold _push_request_fd.
  destruct (_schedule_request l (counter a)) as [[i c]|]; [|discriminate].
  destruct (array_get threads_epoll_fd i) as [epoll_fd|]; [|discriminate].
  destruct (epoll_ctl_add epoll_fd fd <? 0); [discriminate|].
  intros [= <- <-]. cbn. auto.
Qed.

Lemma acceptor_calls_cons (c : acceptor_call) (tr : list acceptor_call) :
  accept4_flags (c :: tr)
  = match c with Accept4 flags => [flags] | _ => [] end ++ accept4_flags tr
  /\ dispatched_fds (c :: tr)
     = match c with EpollCtlAdd _ fd _ => [fd] | _ => [] end ++ dispatched_fds tr
  /\ logged (c :: tr)
     = match c with AcceptorPerror msg => [msg] | _ => [] end ++ logged tr.
Proof. destruct c; auto. Qed.

Lemma acceptor_calls_app (tr tr' : list acceptor_call) :
  accept4_flags (tr ++ tr') = accept4_flags tr ++ accept4_flags tr'
  /\ dispatched_fds (tr ++ tr') = dispatched_fds tr ++ dispatched_fds tr'
  /\ logged (tr ++ tr') = logged tr ++ logged tr'.
Proof. unfold accept4_flags, dispatched_fds, logged. rewrite !omap_app. auto. Qed.

Lemma accept_loop_calls (n : nat) (a a' : acceptor) (tr : list acceptor_call) :
  accepts n a = Some (tr, Accepting a') ->
  accept4_calls a' = (accept4_calls a + n)%nat
  /\ accept4_flags tr = replicate n SOCK_NONBLOCK
  /\ dispatched_fds tr
     = filter (fun fd => 0 <= fd) (accept4_answers accept4 (accept4_calls a) n)
  /\ logged tr
     = replicate
         (length (filter (fun fd => fd < 0)
                    (accept4_answers accept4 (accept4_calls a) n)))
         "accept"%string.
Proof.
  revert a tr. induction n as [|n IH]; intros a tr Hrun.
  - cbn in Hrun. injection Hrun as <- <-. cbn. auto with lia.
  - cbn [accept_loop] in Hrun. unfold accept4_answers in *.
    cbn [seq fmap list_fmap].
    destruct (Z.ltb_spec (accept4 (accept4_calls a)) 0) as [Hneg | Hpos].
    + destruct (accepts n _) as [[tr1 s1]|] eqn:Hrest; [|discriminate].
      injection Hrun as <- ->.
      destruct (IH _ _ Hrest) as (Hc & Hf & Hd & Hl). cbn in Hc, Hd, Hl.
      rewrite filter_cons_False by lia. rewrite filter_cons_True by lia.
      destruct (acceptor_calls_cons (Accept4 SOCK_NONBLOCK)
                  (AcceptorPerror "accept" :: tr1)) as (-> & -> & ->).
      destruct (acceptor_calls_cons (AcceptorPerror "accept") tr1)
        as (-> & -> & ->).
      rewrite Hf, Hd, Hl. cbn. split; [lia | auto].
    + destruct (push _ _) as [[trp [a2|]]|] eqn:Hpush; try discriminate.
      destruct (accepts n a2) as [[tr1 s1]|] eqn:Hrest; [|discriminate].
      injection Hrun as <- ->.
      destruct (push_request_fd_accepting _ _ _ _ Hpush) as (Hc2 & Hf2 & Hd2 & Hl2).
      cbn in Hc2.
      destruct (IH _ _ Hrest) as (Hc & Hf & Hd & Hl). rewrite Hc2 in Hc, Hd, Hl.
      rewrite filter_cons_True by lia. rewrite filter_cons_False by lia.
      destruct (acceptor_calls_cons (Accept4 SOCK_NONBLOCK) (trp ++ tr1))
        as (-> & -> & ->).
      destruct (acceptor_calls_app trp tr1) as (-> & -> & ->).
      rewrite Hf, Hd, Hl, Hf2, Hd2, Hl2. cbn. split; [lia | auto].
Qed.

(** C8, amended.  A pass of the acceptor loop that does not end the process
    calls [epoll_wait] without timeout and then [accept4] with SOCK_NONBLOCK
    once for each of the [n_fds] events reported, never more: the fds
    dispatched are the answers of these calls that are not negative, in
    order, and ["accept"] is logged once for each negative answer, with no
    further [accept4] call in its place. *)
Theorem acceptor_pass_accepts_once_per_event (a a' : acceptor) (n_fds : Z)
    (tr : list acceptor_call) :
  main_loop_iteration l threads_epoll_fd accept4 epoll_ctl_add a n_fds
  = Some (tr, Accepting a') ->
  head tr = Some (AcceptorEpollWait (-1))
  /\ accept4_flags tr = replicate (Z.to_nat n_fds) SOCK_NONBLOCK
  /\ accept4_calls a' = (accept4_calls a + Z.to_nat n_fds)%nat
  /\ dispatched_fds tr
     = filter (fun fd => 0 <= fd)
         (accept4_answers accept4 (accept4_calls a) (Z.to_nat n_fds))
  /\ logged tr
     = replicate
         (length (filter (fun fd => fd < 0)
                    (accept4_answers accept4 (accept4_calls a) (Z.to_nat n_fds))))
         "accept"%string.
Proof.
  unfold main_loop_iteration.
  destruct (accepts (Z.to_nat n_fds) a) as [[tr0 s]|] eqn:Hrun; [|discriminate].
  intros [= <- ->].
  destruct (accept_loop_calls _ _ _ _ Hrun) as (Hc & Hf & Hd & Hl).
  destruct (acceptor_calls_cons (AcceptorEpollWait (-1)) tr0) as (-> & -> & ->).
  cbn. auto.
Qed.

End AcceptorProperties.

(** ** Worked runs *)

Lemma ring_okb_sound {ReqState} (l : lwan_t) (w : worker ReqState) :
  ring_okb l w = true -> ring_ok l w.
Proof.
  unfold ring_okb. rewrite !andb_true_iff, forallb_forall.
  intros [[[[[[[[H1 H2] H3] H4] H5] H6] H7] H8] H9].
  constructor; try lia.
  intros x Hx. apply list_elem_of_In in Hx. specialize (H9 x Hx). lia.
Qed.

Lemma thread_run_reachable {ReqState Input} (zero_state : ReqState)
    (lwan_process_request :
       Input -> lwan_request_t ReqState -> lwan_request_t ReqState)
    (l : lwan_t) (rs0 : list (lwan_request_t ReqState))
    (rs : list (epoll_wait_result Input)) (w w' : worker ReqState)
    (tr : list (call ReqState)) :
  thread_reachable zero_state lwan_process_request l rs0 w ->
  thread_run zero_state lwan_process_request l w rs = Some (tr, Running w') ->
  thread_reachable zero_state lwan_process_request l rs0 w'.
Proof.
  revert w tr. induction rs as [|r rs IH]; intros w tr Hw Hrun.
  - cbn in Hrun. injection Hrun as _ <-. assumption.
  - cbn [thread_run] in Hrun.
    destruct (thread_iteration _ _ _ w r) as [[tr1 [w1|]]|] eqn:Hit;
      try discriminate.
    destruct (thread_run _ _ _ w1 rs) as [[tr2 s]|] eqn:Hrest; [|discriminate].
    injection Hrun as _ ->.
    eapply IH; [|exact Hrest]. eapply reachable_iteration; eauto.
Qed.

(** C2, counterexample.  Two connections are kept alive at tick 0, one tick
    passes, and the first of them is served again: its deadline becomes 6
    where its entry stands, before the entry of the other, whose deadline is
    still 5. *)
Lemma deadline_order_broken_by_in_place_update :
  thread_reachable tt keep_alive_as_told small_server (fresh_table 8)
    updated_in_place
  /\ queue_fds small_server updated_in_place = [5; 6]
  /\ queue_deadlines small_server updated_in_place = [6; 5]
  /\ ~ non_decreasing (queue_deadlines small_server updated_in_place).
Proof.
  split.
  { eapply (thread_run_reachable tt keep_alive_as_told small_server _
              [WaitReady [readable 5 true; readable 6 true]; WaitReady [];
               WaitReady [readable 5 true]]);
      [apply reachable_start | vm_compute; reflexivity]. }
  split; [reflexivity|]. split; [reflexivity|].
  intros Hnd. specialize (Hnd 0%nat 1%nat 6 5). cbn in Hnd.
  assert (6 <= 5) by (apply Hnd; [lia | reflexivity | reflexivity]). lia.
Qed.

(** C3, counterexample.  Two requests in a row on fd 5, the first kept
    alive: the second invocation gets the slot with its alive and keep-alive
    flags set and its deadline at 5, not a zeroed slot. *)
Lemma kept_alive_slot_is_not_reset :
  exists tr s r1 r2,
    small_thread_run [WaitReady [readable 5 true]; WaitReady [readable 5 true]]
    = Some (tr, s)
    /\ processed tr = [r1; r2]
    /\ fd r1 = 5 /\ fd r2 = 5
    /\ flags_alive r2 = true
    /\ flags_is_keep_alive r2 = true
    /\ time_to_die r2 = 5.
Proof.
  eexists _, _, _, _. split; [vm_compute; reflexivity|].
  split; [vm_compute; reflexivity|]. cbn. auto.
Qed.

(** C4, counterexample.  fd 5 is kept alive, its peer hangs up (nothing is
    closed, the slot is marked not alive, the entry stays at the head of the
    queue), four ticks pass; at the fifth the reaper closes fd 5 and takes
    the entry off the queue. *)
Lemma reaper_closes_hung_up_entry :
  exists tr1 tr2 w,
    small_thread_run
      [WaitReady [readable 5 true]; WaitReady [peer_closed 5];
       WaitReady []; WaitReady []; WaitReady []; WaitReady []]
    = Some (tr1, Running stale_head)
    /\ closed tr1 = []
    /\ flags_alive <$> requests stale_head !! 5%nat = Some false
    /\ queue_fds small_server stale_head = [5]
    /\ thread_iteration tt keep_alive_as_told small_server stale_head
         (WaitReady [])
       = Some (tr2, Running w)
    /\ closed tr2 = [5]
    /\ death_queue_population w = 0.
Proof.
  eexists _, _, _. split; [vm_compute; reflexivity|].
  split; [vm_compute; reflexivity|]. split; [reflexivity|].
  split; [reflexivity|]. split; [vm_compute; reflexivity|].
  split; reflexivity.
Qed.

(** C8, counterexample.  With two connections pending and one event
    reported, the pass accepts the first and stops: the second [accept4],
    which would have returned fd 6, is not made.  With [accept4] failing and
    one event reported, the pass logs the failure and stops: the accept is
    not made again. *)
Lemma acceptor_takes_one_connection_per_event :
  main_loop_iteration small_server [100; 101] two_pending epoll_ctl_succeeds
    acceptor_start 1
  = Some ([AcceptorEpollWait (-1); Accept4 SOCK_NONBLOCK;
           EpollCtlAdd 100 5
             (Z.lor (Z.lor (Z.lor EPOLLIN EPOLLRDHUP) EPOLLERR) EPOLLET)],
          Accepting {| counter := 1; accept4_calls := 1 |})
  /\ two_pending 1 = 6
  /\ main_loop_iteration small_server [100; 101] accept4_fails
       epoll_ctl_succeeds acceptor_start 1
     = Some ([AcceptorEpollWait (-1); Accept4 SOCK_NONBLOCK;
              AcceptorPerror "accept"],
             Accepting {| counter := 0; accept4_calls := 1 |}).
Proof. repeat split; reflexivity. Qed.

(** The hang-up branch on a fresh worker: fd 5 is unregistered, not closed. *)
Lemma hang_up_branch_does_not_close_witness :
  hung_up (peer_closed 5) = true
  /\ array_get (requests fresh_worker) 5 = Some (zeroed_request unit tt)
  /\ exists tr,
      handle_event tt keep_alive_as_told small_server fresh_worker
        (peer_closed 5)
      = Some (tr, with_requests
                    (<[5%nat := set_alive false (zeroed_request unit tt)]>
                       (requests fresh_worker)) fresh_worker)
      /\ tr = [EpollCtlDel 5]
      /\ closed tr = [].
Proof.
  split; [reflexivity|]. split; [reflexivity|].
  apply (hang_up_branch_does_not_close tt keep_alive_as_told small_server
           fresh_worker (peer_closed 5) (zeroed_request unit tt));
    reflexivity.
Defined.

(** With fds 5 and 6 idle in order, a first request on fd 7 that is kept
    alive leaves the queue in order. *)
Lemma deadline_order_kept_witness :
  ring_ok small_server two_idle_connections
  /\ non_decreasing (queue_deadlines small_server two_idle_connections)
  /\ (forall d, d ∈ queue_deadlines small_server two_idle_connections ->
        d <= wrap_uint (death_time two_idle_connections
                        + config_keep_alive_timeout small_server))
  /\ exists tr w',
      handle_event tt keep_alive_as_told small_server two_idle_connections
        (readable 7 true) = Some (tr, w')
      /\ queue_deadlines small_server w' = [5; 5; 5]
      /\ non_decreasing (queue_deadlines small_server w').
Proof.
  assert (Hok : ring_ok small_server two_idle_connections)
    by (apply ring_okb_sound; reflexivity).
  assert (Hnd : non_decreasing (queue_deadlines small_server two_idle_connections)).
  { change (queue_deadlines small_server two_idle_connections) with [5; 5].
    intros [|[|i]] [|[|j]] x y Hij Hx Hy; cbn in Hx, Hy;
      try discriminate; injection Hx as <-; injection Hy as <-; lia. }
  assert (Hb : forall d,
             d ∈ queue_deadlines small_server two_idle_connections ->
             d <= wrap_uint (death_time two_idle_connections
                             + config_keep_alive_timeout small_server)).
  { change (queue_deadlines small_server two_idle_connections) with [5; 5].
    intros d Hd. apply list_elem_of_In in Hd.
    destruct Hd as [<- | [<- | []]]; vm_compute; discriminate. }
  split; [exact Hok|]. split; [exact Hnd|]. split; [exact Hb|].
  eexists _, _. split; [vm_compute; reflexivity|].
  split; [reflexivity|].
  refine (proj1 (proj2
    (proj1 (deadline_order_kept_by_fresh_appends_and_reaping tt
              keep_alive_as_told small_server two_idle_connections Hok Hnd Hb)
       (readable 7 true) _ _ _ _ _))).
  - change (queue_fds small_server two_idle_connections) with [5; 6].
    intros Hin. apply list_elem_of_In in Hin.
    destruct Hin as [Hin | [Hin | []]]; discriminate.
  - cbn. lia.
  - vm_compute. reflexivity.
Defined.

(** A first request on fd 5 of a fresh worker: the processor gets the slot
    zeroed but for the fd. *)
Lemma process_request_entry_slot_witness :
  exists tr w',
    array_get (requests fresh_worker) 5 = Some (zeroed_request unit tt)
    /\ hung_up (readable 5 true) = false
    /\ handle_event tt keep_alive_as_told small_server fresh_worker
         (readable 5 true) = Some (tr, w')
    /\ processed tr = [used_slot 5 false false 0].
Proof.
  eexists _, _. split; [reflexivity|]. split; [reflexivity|].
  split; [vm_compute; reflexivity|].
  eapply (process_request_entry_slot tt keep_alive_as_told small_server
            fresh_worker _ (readable 5 true) (zeroed_request unit tt) _);
    vm_compute; reflexivity.
Defined.

(** fd 5 at the head of the queue, its deadline one tick away: the peer
    hangs up, the slot is marked not alive and the entry stays; the timeout
    that follows closes fd 5, moves the head from cell 0 to cell 1 and leaves
    the queue empty. *)
Lemma stale_head_is_reaped_and_closed_witness :
  ring_ok small_server idle_head
  /\ ring_ok small_server stale_head
  /\ (exists tr0,
        handle_event tt keep_alive_as_told small_server idle_head
          (peer_closed 5) = Some (tr0, stale_head)
        /\ array_get (requests stale_head) 5 = Some (used_slot 5 false true 5)
        /\ death_queue stale_head = death_queue idle_head)
  /\ exists tr w1 w',
      thread_iteration tt keep_alive_as_told small_server stale_head
        (WaitReady [])
      = Some (EpollWait 1000 :: Close 5 :: tr, Running w')
      /\ death_queue_first w1 = 1
      /\ death_queue_population w1 = 0
      /\ reaps small_server w1 tr w'.
Proof.
  assert (Hidle : ring_ok small_server idle_head)
    by (apply ring_okb_sound; reflexivity).
  assert (Hstale : ring_ok small_server stale_head)
    by (apply ring_okb_sound; reflexivity).
  split; [exact Hidle|]. split; [exact Hstale|]. split.
  - destruct (proj1 (stale_head_is_reaped_and_closed tt keep_alive_as_told
                       small_server idle_head Hidle)
                (peer_closed 5) (used_slot 5 true true 5) eq_refl eq_refl)
      as (tr0 & w0 & Hrun & Hslot & Hdq & _).
    exists tr0.
    assert (Hw0 : w0 = stale_head)
      by (vm_compute in Hrun; injection Hrun as _ <-; reflexivity).
    rewrite Hw0 in Hrun, Hslot, Hdq.
    split; [exact Hrun|]. split; [exact Hslot | exact Hdq].
  - destruct (proj2 (stale_head_is_reaped_and_closed tt keep_alive_as_told
                       small_server stale_head Hstale)
                5 (used_slot 5 false true 5))
      as (tr & w1 & w' & Hrun & _ & _ & _ & Hf & Hp & _ & Hreaps).
    + cbn; lia.
    + reflexivity.
    + reflexivity.
    + reflexivity.
    + vm_compute; discriminate.
    + exists tr, w1, w'. split; [exact Hrun|].
      split; [exact Hf|]. split; [exact Hp | exact Hreaps].
Defined.

(** Two idle connections whose deadline is reached: the wait has a timeout
    of 1000 ms, and a timeout reaps. *)
Lemma timeout_case_reaps_expired_heads_witness :
  ring_ok small_server two_expiring
  /\ exists tr w',
      thread_iteration tt keep_alive_as_told small_server two_expiring
        (WaitReady [])
      = Some (EpollWait (epoll_timeout two_expiring) :: tr, Running w')
      /\ death_time w' = wrap_uint (death_time two_expiring + 1)
      /\ reaps small_server (tick two_expiring) tr w'
      /\ exists request',
          array_get (requests w') 5 = Some request'
          /\ flags_alive request' = false.
Proof.
  assert (Hok : ring_ok small_server two_expiring)
    by (apply ring_okb_sound; reflexivity).
  split; [exact Hok|].
  destruct (proj2 (timeout_case_reaps_expired_heads tt keep_alive_as_told
                     small_server two_expiring Hok))
    as (tr & w' & Hrun & Ht & Hreaps & Hmark & _).
  exists tr, w'. split; [exact Hrun|]. split; [exact Ht|].
  split; [exact Hreaps|]. apply Hmark.
  vm_compute in Hrun. injection Hrun as <- _.
  apply list_elem_of_In. vm_compute. left. reflexivity.
Defined.

(** Two events, two connections pending: two [accept4] calls, fds 5 and 6
    dispatched, nothing logged. *)
Lemma acceptor_pass_accepts_once_per_event_witness :
  exists tr a',
    main_loop_iteration small_server [100; 101] two_pending
      epoll_ctl_succeeds acceptor_start 2
    = Some (tr, Accepting a')
    /\ accept4_flags tr = [SOCK_NONBLOCK; SOCK_NONBLOCK]
    /\ accept4_calls a' = 2%nat
    /\ dispatched_fds tr = [5; 6]
    /\ logged tr = [].
Proof.
  eexists _, _. split; [vm_compute; reflexivity|].
  refine (proj2 (acceptor_pass_accepts_once_per_event small_server [100; 101]
                   two_pending epoll_ctl_succeeds acceptor_start _ 2 _ _)).
  vm_compute. reflexivity.
Defined.

(** The three cases on a fresh worker. *)
Lemma epoll_wait_error_cases_witness :
  thread_iteration tt keep_alive_as_told small_server fresh_worker
    (WaitError EBADF)
  = Some ([EpollWait (-1); FreeDeathQueue], Returned)
  /\ thread_iteration tt keep_alive_as_told small_server fresh_worker
       (WaitError EINTR)
     = Some ([EpollWait (-1); Perror "epoll_wait"], Running fresh_worker)
  /\ thread_iteration tt keep_alive_as_told small_server fresh_worker
       (WaitError 12)
     = Some ([EpollWait (-1)], Running fresh_worker).
Proof.
  split.
  { apply (proj1 (epoll_wait_error_cases tt keep_alive_as_told small_server
                    fresh_worker EBADF)). left. reflexivity. }
  split.
  { apply (proj1 (proj2 (epoll_wait_error_cases tt keep_alive_as_told
                           small_server fresh_worker EINTR))). reflexivity. }
  apply (proj2 (proj2 (epoll_wait_error_cases tt keep_alive_as_told
                         small_server fresh_worker 12))); discriminate.
Defined.

(** A queue of two holding fds 5 and 6: a first request on fd 7 that is kept
    alive is written over fd 5, and the population is 3. *)
Lemma append_to_full_queue_overwrites_head_witness :
  ring_ok tiny_server full_queue
  /\ death_queue_population full_queue = thread_max_fd tiny_server
  /\ hung_up (readable 7 true) = false
  /\ array_get (requests full_queue) 7 = Some (zeroed_request unit tt)
  /\ exists tr w',
      handle_event tt keep_alive_as_told tiny_server full_queue
        (readable 7 true) = Some (tr, w')
      /\ death_queue_last full_queue = death_queue_first full_queue
      /\ death_queue w' = [7; 6]
      /\ death_queue_population w' = 3.
Proof.
  assert (Hok : ring_ok tiny_server full_queue)
    by (apply ring_okb_sound; reflexivity).
  split; [exact Hok|]. do 3 (split; [reflexivity|]).
  destruct (append_to_full_queue_overwrites_head tt keep_alive_as_told
              tiny_server full_queue (readable 7 true)
              (zeroed_request unit tt) (used_slot 7 false true 0)
              Hok eq_refl eq_refl eq_refl eq_refl eq_refl eq_refl)
    as (tr & w' & Hrun & Htail & Hdq & _ & _ & Hpop & _).
  exists tr, w'. auto.
Defined.

(** Seven accepts over three workers: worker 0 gets three, the ceiling. *)
Lemma round_robin_fair_below_overflow_witness :
  0 < thread_count three_workers
  /\ Z.of_nat 7 <= INT_MAX
  /\ exists idxs counter,
      schedule_requests three_workers 7 0 = Some (idxs, counter)
      /\ Forall (fun i => 0 <= i < thread_count three_workers) idxs
      /\ times_selected 0 idxs = 3.
Proof.
  assert (Hn : 0 < thread_count three_workers) by (cbn; lia).
  assert (HK : Z.of_nat 7 <= INT_MAX) by (vm_compute; discriminate).
  split; [exact Hn|]. split; [exact HK|].
  destruct (round_robin_fair_below_overflow three_workers 7 0 Hn HK
              ltac:(cbn; lia))
    as (idxs & counter & Hrun & Hall & Hcount & _).
  exists idxs, counter. auto.
Defined.

(** A pass with one event on a worker with two idle connections. *)
Lemma thread_iteration_ring_ok_witness :
  ring_ok small_server two_idle_connections
  /\ exists tr w',
      thread_iteration tt keep_alive_as_told small_server two_idle_connections
        (WaitReady [readable 7 true]) = Some (tr, Running w')
      /\ ring_ok small_server w'.
Proof.
  assert (Hok : ring_ok small_server two_idle_connections)
    by (apply ring_okb_sound; reflexivity).
  split; [exact Hok|].
  eexists _, _. split; [vm_compute; reflexivity|].
  refine (thread_iteration_ring_ok tt keep_alive_as_told small_server
            two_idle_connections _ (WaitReady [readable 7 true]) _ Hok _ _).
  - intros es [= <-]. vm_compute. discriminate.
  - vm_compute. reflexivity.
Defined.

(** A limit of 16 files and two processors. *)
Lemma lwan_init_slot_zero_has_no_buffer_witness :
  exists count max_fd rs h,
    lwan_init unit tt 2 16 16 init_kernel_ok empty_heap
    = Some (Initialised count max_fd rs h)
    /\ rs <> []
    /\ response_buffer <$> rs !! 0%nat = Some 0.
Proof.
  eexists _, _, _, _. split; [vm_compute; reflexivity|].
  split; [discriminate|].
  refine (lwan_init_slot_zero_has_no_buffer tt 2 16 16 init_kernel_ok
            empty_heap _ _ _ _ _ _).
  - vm_compute. reflexivity.
  - discriminate.
Defined.

(** ** What one event does to the slot table and to the queue *)

Section WorkerBehaviour.

Context {ReqState : Type} (zero_state : ReqState) {Input : Type}.
Variable lwan_process_request :
  Input -> lwan_request_t ReqState -> lwan_request_t ReqState.
Variable l : lwan_t.

Abbreviation iteration' := (thread_iteration zero_state lwan_process_request l).
Abbreviation handle' := (handle_event zero_state lwan_process_request l).

Lemma death_queue_append_inv (w w1 : worker ReqState) (fd : Z) :
  death_queue_append l w fd = Some w1 ->
  requests w1 = requests w
  /\ death_queue w1 = <[Z.to_nat (death_queue_last w) := fd]> (death_queue w)
  /\ death_queue_first w1 = death_queue_first w
  /\ death_queue_population w1 = wrap_int (death_queue_population w + 1)
  /\ death_time w1 = death_time w.
Proof.
  unfold death_queue_append.
  destruct (array_set _ _ _) as [dq|] eqn:Hset; [|discriminate].
  destruct (thread_max_fd l =? 0); [discriminate|].
  apply array_set_inv in Hset as [-> _].
  intros [= <-]. cbn. auto.
Qed.

(** Every way through the loop body, in one statement: the slot written, the
    fds closed, and what is left alone. *)
Lemma handle_event_inv (w w' : worker ReqState) (e : epoll_event Input)
    (tr : list (call ReqState)) :
  handle' w e = Some (tr, w') ->
  exists request request',
    array_get (requests w) (data_fd e) = Some request
    /\ requests w' = <[Z.to_nat (data_fd e) := request']> (requests w)
    /\ death_time w' = death_time w
    /\ death_queue_first w' = death_queue_first w
    /\ (death_queue_population w' = death_queue_population w
        \/ death_queue_population w'
           = wrap_int (death_queue_population w + 1))
    /\ (if hung_up e then
          request' = set_alive false request /\ closed tr = []
        else
          let request1 :=
            lwan_process_request (socket_input e)
              (slot_at_entry zero_state request (data_fd e)) in
          if flags_is_keep_alive request1 then
            request'
            = set_alive true
                (set_time_to_die
                   (wrap_uint (death_time w + config_keep_alive_timeout l))
                   request1)
            /\ closed tr = []
          else
            request' = set_alive false request1
            /\ closed tr = [data_fd e]).
Proof.
  intros Hrun.
  destruct (array_get (requests w) (data_fd e)) as [request|] eqn:Hget;
    [| unfold handle_event in Hrun; rewrite Hget in Hrun; discriminate].
  exists request.
  assert (Hcl : forall tr0 : list (call ReqState),
             closed (calls_at_entry zero_state request (data_fd e) ++ tr0)
             = closed tr0).
  { intros tr0. unfold calls_at_entry.
    destruct (flags_alive request); reflexivity. }
  destruct (hung_up e) eqn:Hup.
  - rewrite (handle_event_hung_up _ _ _ w e request Hup Hget) in Hrun.
    injection Hrun as <- <-. eexists. split; [reflexivity|].
    cbn [with_requests requests death_time death_queue_first
         death_queue_population].
    do 3 (split; [reflexivity|]). split; [left; reflexivity|].
    split; [reflexivity|].
    destruct (epoll_ctl_result e <? 0); reflexivity.
  - rewrite (handle_event_readable _ _ _ w e request Hup Hget) in Hrun.
    cbv zeta in Hrun. cbv zeta.
    destruct (flags_is_keep_alive _) eqn:Hka in Hrun |- *.
    + destruct (flags_alive _) eqn:Hal in Hrun.
      * injection Hrun as <- <-. eexists. split; [reflexivity|].
        cbn [with_requests requests death_time death_queue_first
             death_queue_population].
        do 3 (split; [reflexivity|]). split; [left; reflexivity|].
        rewrite Hcl. split; [|reflexivity].
        unfold set_alive, set_time_to_die. cbn. rewrite Hal. reflexivity.
      * destruct (death_queue_append l w (data_fd e)) as [w1|] eqn:Happ;
          [|discriminate].
        injection Hrun as <- <-.
        destruct (death_queue_append_inv _ _ _ Happ)
          as (Hrs & Hdq & Hf & Hp & Ht).
        eexists. split; [reflexivity|].
        cbn [with_requests requests death_time death_queue_first
             death_queue_population].
        split; [reflexivity|]. do 2 (split; [assumption|]).
        split; [right; assumption|].
        rewrite Hcl. split; reflexivity.
    + injection Hrun as <- <-. eexists. split; [reflexivity|].
      cbn [with_requests requests death_time death_queue_first
           death_queue_population].
      do 3 (split; [reflexivity|]). split; [left; reflexivity|].
      split; [reflexivity|].
      rewrite <- app_assoc, Hcl. reflexivity.
Qed.

End WorkerBehaviour.

Section WorkerEvents.

Context {ReqState : Type} (zero_state : ReqState) {Input : Type}.
Variable lwan_process_request :
  Input -> lwan_request_t ReqState -> lwan_request_t ReqState.
Variable l : lwan_t.

Abbreviation iterate := (thread_iteration zero_state lwan_process_request l).
Abbreviation handles := (handle_event zero_state lwan_process_request l).



(** X5.  After an event the slot of its fd is alive exactly when the request
    was kept alive, and never after a hang-up; the worker closes the event's
    fd, once, exactly when no hang-up was reported and the slot is left not
    alive, and closes no other fd. *)
Theorem handle_event_alive_and_closed (w w' : worker ReqState)
    (e : epoll_event Input) (tr : list (call ReqState)) :
  handles w e = Some (tr, w') ->
  exists request',
    array_get (requests w') (data_fd e) = Some request'
    /\ (hung_up e = true -> flags_alive request' = false)
    /\ (hung_up e = false ->
        flags_alive request' = flags_is_keep_alive request')
    /\ closed tr
       = if hung_up e || flags_alive request' then [] else [data_fd e].
Proof.
  intros Hrun.
  destruct (handle_event_inv _ _ _ _ _ _ _ Hrun)
    as (request & request' & Hget & Hrs & _ & _ & _ & Hcase).
  pose proof (array_get_range _ _ _ Hget) as Hfd.
  exists request'. split; [rewrite Hrs; apply array_get_set_eq; assumption|].
  destruct (hung_up e).
  - destruct Hcase as [-> ->]. cbn.
    split; [reflexivity|]. split; [discriminate | reflexivity].
  - cbv zeta in Hcase.
    destruct (flags_is_keep_alive _) eqn:Hka in Hcase;
      destruct Hcase as [-> ->]; cbn; rewrite ?Hka;
      (split; [discriminate|]); split; reflexivity.
Qed.

Lemma fmap_insert_same {A B} (f : A -> B) (xs : list A) (i : Z) (x y : A) :
  array_get xs i = Some y -> f x = f y ->
  f <$> <[Z.to_nat i := x]> xs = f <$> xs.
Proof.
  intros Hget Hf. apply array_get_Some in Hget as [_ Hget].
  rewrite list_fmap_insert. apply list_insert_id.
  rewrite list_lookup_fmap, Hget, Hf. reflexivity.
Qed.

(** Reaping changes alive flags only. *)
Lemma reap_projection {B} (f : lwan_request_t ReqState -> B) (fuel : nat)
    (w w' : worker ReqState) (tr : list (call ReqState)) :
  (forall b r, f (set_alive b r) = f r) ->
  reap l fuel w = Some (tr, w') ->
  f <$> requests w' = f <$> requests w.
Proof.
  intros Hf. revert w tr. induction fuel as [|fuel IH]; intros w tr Hrun.
  - cbn in Hrun. destruct (death_queue_population w =? 0); [|discriminate].
    injection Hrun as _ <-. reflexivity.
  - cbn [reap] in Hrun.
    destruct (death_queue_population w =? 0);
      [injection Hrun as _ <-; reflexivity|].
    destruct (array_get (death_queue w) _) as [head|]; [|discriminate].
    destruct (array_get (requests w) head) as [request|] eqn:Hreq;
      [|discriminate].
    destruct (time_to_die request <=? death_time w);
      [|injection Hrun as _ <-; reflexivity].
    destruct (reap_head l w head request) as [w1|] eqn:Hhead; [|discriminate].
    destruct (reap l fuel w1) as [[tr1 w2]|] eqn:Hrest; [|discriminate].
    injection Hrun as _ <-. rewrite (IH _ _ Hrest).
    unfold reap_head in Hhead.
    destruct (thread_max_fd l =? 0); [discriminate|].
    rewrite (array_set_Some _ _ _ _ Hreq) in Hhead. injection Hhead as <-.
    cbn [requests]. eapply fmap_insert_same; eauto.
Qed.

Section ProcessorKeepsBuffer.

Hypothesis processor_keeps_buffer :
  forall i r, response_buffer (lwan_process_request i r) = response_buffer r.

Lemma handle_event_buffers (w w' : worker ReqState) (e : epoll_event Input)
    (tr : list (call ReqState)) :
  handles w e = Some (tr, w') ->
  response_buffer <$> requests w' = response_buffer <$> requests w.
Proof.
  intros Hrun.
  destruct (handle_event_inv _ _ _ _ _ _ _ Hrun)
    as (request & request' & Hget & Hrs & _ & _ & _ & Hcase).
  rewrite Hrs. eapply fmap_insert_same; [exact Hget|].
  assert (Hentry : response_buffer
                     (lwan_process_request (socket_input e)
                        (slot_at_entry zero_state request (data_fd e)))
                   = response_buffer request).
  { rewrite processor_keeps_buffer. unfold slot_at_entry.
    destruct (flags_alive request); reflexivity. }
  destruct (hung_up e).
  - destruct Hcase as [-> _]. reflexivity.
  - cbv zeta in Hcase.
    destruct (flags_is_keep_alive _) in Hcase; destruct Hcase as [-> _];
      cbn; exact Hentry.
Qed.

Lemma handle_events_buffers (es : list (epoll_event Input))
    (w w' : worker ReqState) (tr : list (call ReqState)) :
  handle_events zero_state lwan_process_request l w es = Some (tr, w') ->
  response_buffer <$> requests w' = response_buffer <$> requests w.
Proof.
  revert w tr. induction es as [|e es IH]; intros w tr Hrun.
  - cbn in Hrun. injection Hrun as _ <-. reflexivity.
  - cbn [handle_events] in Hrun.
    destruct (handles w e) as [[tr1 w1]|] eqn:He; [|discriminate].
    destruct (handle_events _ _ _ w1 es) as [[tr2 w2]|] eqn:Hes; [|discriminate].
    injection Hrun as _ <-.
    rewrite (IH _ _ Hes). eapply handle_event_buffers; eauto.
Qed.

(** X6.  With a request processor that leaves the slot's buffer pointer
    alone, the worker never changes the response buffer of any slot: in every
    state the thread gets to, each slot has the buffer it started with. *)
Theorem response_buffers_never_change (rs0 : list (lwan_request_t ReqState))
    (w : worker ReqState) :
  thread_reachable zero_state lwan_process_request l rs0 w ->
  response_buffer <$> requests w = response_buffer <$> rs0.
Proof.
  induction 1 as [|w r tr w' Hw IH Hrun]; [reflexivity|].
  rewrite <- IH. unfold thread_iteration in Hrun.
  destruct r as [errno | [|e es]].
  - destruct ((errno =? EBADF) || (errno =? EINVAL)); [discriminate|].
    destruct (errno =? EINTR); injection Hrun as _ <-; reflexivity.
  - destruct (reap l _ (tick w)) as [[tr0 w0]|] eqn:Hreap; [|discriminate].
    injection Hrun as _ <-.
    apply (reap_projection response_buffer _ _ _ _ (fun _ _ => eq_refl) Hreap).
  - destruct (handle_events _ _ _ w (e :: es)) as [[tr1 w1]|] eqn:Hes;
      [|discriminate].
    injection Hrun as _ <-. eapply handle_events_buffers; eauto.
Qed.

End ProcessorKeepsBuffer.


Lemma slot_fd_insert_same (rs : list (lwan_request_t ReqState)) (i x : Z)
    (r r0 : lwan_request_t ReqState) :
  array_get rs i = Some r0 -> fd r = fd r0 ->
  slot_fd (<[Z.to_nat i := r]> rs) x = slot_fd rs x.
Proof.
  intros Hget Hfd. pose proof (array_get_range _ _ _ Hget) as Hi.
  unfold slot_fd. destruct (Z.eq_dec x i) as [-> | Hne].
  - rewrite array_get_set_eq, Hget by assumption. exact Hfd.
  - rewrite array_get_set_ne by lia. reflexivity.
Qed.

(** What a reaping pass closes and what it leaves: the entries it takes are
    the first [k] of the queue, each with a deadline at or before the tick;
    it closes the fds of their slots in that order and makes no other call. *)
Lemma reaps_prefix (w w' : worker ReqState) (tr : list (call ReqState)) :
  0 <= death_queue_population w ->
  reaps l w tr w' ->
  exists k,
    tr = Close <$> (slot_fd (requests w) <$> take k (queue_fds l w))
    /\ queue_fds l w' = drop k (queue_fds l w)
    /\ (forall x, x ∈ take k (queue_fds l w) ->
          deadline (requests w) x <= death_time w)
    /\ death_queue_population w' = death_queue_population w - Z.of_nat k.
Proof.
  intros Hpop Hreaps.
  induction Hreaps
    as [w Hz | w head request Hnz Hhead Hreq Hlt
        | w head request w1 tr w2 Hnz Hhead Hreq Hle Hrs Hdq Hl Hf Hp Ht Hreaps IH].
  - exists 0%nat. cbn. repeat split; try lia. intros x Hx. inversion Hx.
  - exists 0%nat. cbn. repeat split; try lia. intros x Hx. inversion Hx.
  - destruct IH as (k & Htr & Hq & Hexp & Hpk); [lia|]. exists (S k).
    assert (Hfds : queue_fds l w = head :: queue_fds l w1).
    { unfold queue_fds. rewrite Hdq, Hf, Hp.
      replace (Z.to_nat (death_queue_population w))
        with (S (Z.to_nat (death_queue_population w - 1))) by lia.
      cbn [ring_read]. rewrite Hhead. reflexivity. }
    assert (Hfd : forall x, slot_fd (requests w1) x = slot_fd (requests w) x).
    { intros x. rewrite Hrs. eapply slot_fd_insert_same; eauto. }
    assert (Hdl : forall x, deadline (requests w1) x = deadline (requests w) x).
    { intros x. rewrite Hrs. eapply deadline_insert_same; eauto. }
    rewrite Hfds. cbn [take drop fmap list_fmap].
    split; [|split; [exact Hq | split]].
    + rewrite Htr. f_equal.
      * unfold slot_fd. rewrite Hreq. reflexivity.
      * f_equal. apply list_fmap_ext. intros i x _. apply Hfd.
    + intros x Hx. apply elem_of_cons in Hx as [-> | Hx].
      * unfold deadline. rewrite Hreq. exact Hle.
      * rewrite <- Hdl, <- Ht. apply Hexp. exact Hx.
    + lia.
Qed.

(** X8.  A timeout reaps a prefix of the queue in order: it closes the fds of
    the slots of the first [k] entries, oldest first, all of them with a
    deadline at or before the new tick, makes no other call after
    [epoll_wait], and leaves the other entries queued in their order. *)
Theorem timeout_reaps_a_prefix_in_order (w : worker ReqState) :
  ring_ok l w ->
  exists k tr w',
    iterate w (WaitReady [])
    = Some (EpollWait (epoll_timeout w) :: tr, Running w')
    /\ tr = Close <$> (slot_fd (requests w) <$> take k (queue_fds l w))
    /\ queue_fds l w' = drop k (queue_fds l w)
    /\ (forall x, x ∈ take k (queue_fds l w) ->
          deadline (requests w) x <= wrap_uint (death_time w + 1))
    /\ death_queue_population w' = death_queue_population w - Z.of_nat k.
Proof.
  intros Hok.
  destruct (reap_reaps l (Z.to_nat (death_queue_population w)) (tick w))
    as (tr & w' & Hreap & Hreaps & _).
  { apply ring_ok_tick; assumption. }
  { pose proof (ring_population _ _ _ Hok). cbn. lia. }
  destruct (reaps_prefix (tick w) w' tr) as (k & Htr & Hq & Hexp & Hp);
    [apply (ring_population _ _ _ Hok) | assumption |].
  exists k, tr, w'. unfold thread_iteration. rewrite Hreap.
  split; [reflexivity|]. auto.
Qed.

(** X9.  A connection at the head of the queue is not closed early: while
    the tick stays below the deadline of its slot, timeouts close nothing and
    change nothing but the tick, whatever stands behind it in the queue; the
    timeout that takes the tick to the deadline closes its fd first. *)
Theorem idle_head_is_reaped_at_its_deadline (n : nat) (w : worker ReqState)
    (head : Z) (request : lwan_request_t ReqState) :
  ring_ok l w ->
  death_queue_population w <> 0 ->
  array_get (death_queue w) (death_queue_first w) = Some head ->
  array_get (requests w) head = Some request ->
  0 <= death_time w ->
  time_to_die request < 4294967296 ->
  death_time w + Z.of_nat n < time_to_die request ->
  thread_run zero_state lwan_process_request l w (replicate n (WaitReady []))
  = Some (replicate n (EpollWait 1000), Running (Nat.iter n tick w))
  /\ (death_time w + Z.of_nat n + 1 = time_to_die request ->
      exists tr w',
        iterate (Nat.iter n tick w) (WaitReady [])
        = Some (EpollWait 1000 :: Close (fd request) :: tr, Running w')).
Proof.
  revert w. induction n as [|n IH];
    intros w Hok Hnz Hhead Hreq Ht HD Hn.
  - split; [reflexivity|]. intros Hlast. cbn [Nat.iter].
    destruct (timeout_reaps_expired_head zero_state lwan_process_request l w
                head request Hok Hnz Hhead Hreq)
      as (tr & w' & Hrun & _).
    { unfold wrap_uint. rewrite Z.mod_small by lia. lia. }
    eauto.
  - assert (Htick : death_time (tick w) = death_time w + 1).
    { cbn. unfold wrap_uint. apply Z.mod_small. lia. }
    destruct (IH (tick w)) as [Hrun Hlast];
      [apply ring_ok_tick; assumption | assumption | assumption | assumption
      | lia | assumption | lia |].
    rewrite <- Nat.iter_succ_r in Hrun, Hlast. split.
    + cbn [replicate thread_run]. unfold thread_iteration, epoll_timeout.
      pose proof (ring_population _ _ _ Hok) as Hpop.
      destruct (Z.eqb_spec (death_queue_population w) 0); [contradiction|].
      replace (Z.to_nat (death_queue_population w))
        with (S (Z.to_nat (death_queue_population w - 1))) by lia.
      cbn [reap]. cbn [tick death_queue_population death_queue
                       death_queue_first requests death_time].
      destruct (Z.eqb_spec (death_queue_population w) 0); [contradiction|].
      rewrite Hhead, Hreq.
      destruct (Z.leb_spec (time_to_die request) (wrap_uint (death_time w + 1))).
      { cbn in Htick. lia. }
      fold (tick w). rewrite Hrun. reflexivity.
    + intros Hl. apply Hlast. lia.
Qed.

End WorkerEvents.

(** ** The buffers of the whole table *)

Section BufferLifecycle.

Context {ReqState : Type} (zero_state : ReqState).

(** The allocation loop from [r] down to 1: slot [i] gets the [(r - i)]-th
    address handed out, slots outside 1..r are not written. *)
Lemma allocate_buffers_result (r : nat) (rs : list (lwan_request_t ReqState))
    (h : strbuf_heap) :
  (r < length rs)%nat ->
  exists rs' h',
    allocate_buffers ReqState r rs h = Some (rs', h')
    /\ length rs' = length rs
    /\ next_buffer h' = next_buffer h + Z.of_nat r
    /\ (forall p, p ∈ live_buffers h'
                  <-> p ∈ live_buffers h
                      \/ next_buffer h <= p < next_buffer h + Z.of_nat r)
    /\ (forall i request,
          rs !! i = Some request ->
          rs' !! i
          = Some (if decide (1 <= i <= r)%nat
                  then set_response_buffer
                         (next_buffer h + Z.of_nat (r - i)) request
                  else request)).
Proof.
  revert rs h. induction r as [|r IH]; intros rs h Hr.
  - exists rs, h. cbn. split; [reflexivity|]. split; [reflexivity|].
    split; [lia|]. split; [intros p; split; [auto | intros [?|?]; [auto|lia]]|].
    intros i request Hi. destruct (decide (1 <= i <= 0)%nat); [lia | exact Hi].
  - cbn [allocate_buffers].
    destruct (array_get_in_range rs (Z.of_nat (S r))) as [request_r Hget];
      [lia|].
    rewrite Hget. cbn [strbuf_new]. rewrite (array_set_Some _ _ _ _ Hget).
    rewrite Nat2Z.id.
    destruct (IH (<[S r := set_response_buffer (next_buffer h) request_r]> rs)
                {| next_buffer := next_buffer h + 1;
                   live_buffers := next_buffer h :: live_buffers h |})
      as (rs' & h' & Hrun & Hlen & Hnext & Hlive & Hslots).
    { rewrite length_insert. lia. }
    exists rs', h'. split; [exact Hrun|].
    split; [rewrite Hlen; apply length_insert|].
    cbn [next_buffer live_buffers] in Hnext, Hlive, Hslots.
    split; [lia|]. split.
    { intros p. rewrite Hlive, elem_of_cons. split.
      - intros [[-> | Hp] | Hp]; [right; lia | left; exact Hp | right; lia].
      - intros [Hp | Hp]; [left; right; exact Hp|].
        destruct (Z.eq_dec p (next_buffer h)) as [-> | Hne];
          [left; left; reflexivity | right; lia]. }
    intros i request Hi.
    apply array_get_Some in Hget as [_ Hget]. rewrite Nat2Z.id in Hget.
    destruct (decide (i = S r)) as [-> | Hne].
    + rewrite Hi in Hget. injection Hget as <-.
      rewrite (Hslots (S r) (set_response_buffer (next_buffer h) request)).
      * destruct (decide (1 <= S r <= r)%nat); [lia|].
        destruct (decide (1 <= S r <= S r)%nat); [|lia].
        rewrite Nat.sub_diag, Z.add_0_r. reflexivity.
      * apply list_lookup_insert_eq. apply lookup_lt_Some in Hi. exact Hi.
    + rewrite (Hslots i request)
        by (rewrite list_lookup_insert_ne by auto; exact Hi).
      destruct (decide (1 <= i <= r)%nat), (decide (1 <= i <= S r)%nat);
        try lia; [|reflexivity].
      f_equal. unfold set_response_buffer. f_equal. lia.
Qed.

(** The release loop over slots [n - 1] down to 0: an address stays
    allocated exactly when it was and is not the buffer of one of these
    slots. *)
Lemma free_buffers_result (n : nat) (rs : list (lwan_request_t ReqState))
    (h : strbuf_heap) :
  (n <= length rs)%nat ->
  exists h',
    free_buffers ReqState n rs h = Some h'
    /\ (forall p, p ∈ live_buffers h'
                  <-> p ∈ live_buffers h
                      /\ p ∉ (response_buffer <$> take n rs)).
Proof.
  revert h. induction n as [|n IH]; intros h Hn.
  - exists h. split; [reflexivity|]. intros p. cbn. split.
    + intros Hp. split; [exact Hp | apply not_elem_of_nil].
    + intros [Hp _]. exact Hp.
  - cbn [free_buffers].
    destruct (array_get_in_range rs (Z.of_nat n)) as [request Hget]; [lia|].
    rewrite Hget.
    destruct (IH (strbuf_free (response_buffer request) h)) as (h' & Hrun & Hlive);
      [lia|].
    exists h'. split; [exact Hrun|]. intros p. rewrite Hlive.
    apply array_get_Some in Hget as [_ Hget]. rewrite Nat2Z.id in Hget.
    rewrite (take_S_r _ _ _ Hget), fmap_app, not_elem_of_app.
    cbn [strbuf_free live_buffers fmap list_fmap].
    rewrite list_elem_of_filter, list_elem_of_singleton. tauto.
Qed.

(** X10.  When [getrlimit] and [setrlimit] succeed and [calloc] returns
    memory, for a soft limit [n] of at least 1 (after the raise) and an
    allocator that never returns NULL, [lwan_init] builds a table of [n]
    slots in which every slot from 1 to [n - 1] has a buffer that is not
    NULL, is allocated, and is the buffer of no other slot.  When
    [getrlimit] or [setrlimit] fails it exits with status -1 instead, and
    when [calloc] returns NULL and the limit is above 1 the first write to
    the table has no result. *)
Theorem lwan_init_gives_slots_their_own_buffers
    (nprocessors_onln rlim_cur rlim_max : Z) (k : init_kernel)
    (h : strbuf_heap) :
  0 < raise_rlim_cur rlim_cur rlim_max < 18446744073709551616 ->
  0 < next_buffer h ->
  (0 <= getrlimit_result k -> 0 <= setrlimit_result k ->
   calloc_returns_memory k = true ->
   exists count max_fd rs h',
     lwan_init ReqState zero_state nprocessors_onln rlim_cur rlim_max k h
     = Some (Initialised count max_fd rs h')
     /\ Z.of_nat (length rs) = raise_rlim_cur rlim_cur rlim_max
     /\ (forall i, 1 <= i < raise_rlim_cur rlim_cur rlim_max ->
           exists p, response_buffer <$> rs !! Z.to_nat i = Some p
                     /\ p <> 0 /\ p ∈ live_buffers h')
     /\ (forall i j p,
           1 <= i < raise_rlim_cur rlim_cur rlim_max ->
           1 <= j < raise_rlim_cur rlim_cur rlim_max ->
           response_buffer <$> rs !! Z.to_nat i = Some p ->
           response_buffer <$> rs !! Z.to_nat j = Some p ->
           i = j))
  /\ (getrlimit_result k < 0 ->
      lwan_init ReqState zero_state nprocessors_onln rlim_cur rlim_max k h
      = Some (InitExited "getrlimit" (-1)))
  /\ (0 <= getrlimit_result k -> setrlimit_result k < 0 ->
      lwan_init ReqState zero_state nprocessors_onln rlim_cur rlim_max k h
      = Some (InitExited "setrlimit" (-1)))
  /\ (0 <= getrlimit_result k -> 0 <= setrlimit_result k ->
      calloc_returns_memory k = false ->
      1 < raise_rlim_cur rlim_cur rlim_max ->
      lwan_init ReqState zero_state nprocessors_onln rlim_cur rlim_max k h
      = None).
Proof.
  intros Hn Hnext. unfold lwan_init.
  set (n := raise_rlim_cur rlim_cur rlim_max) in *.
  assert (Hwrap : wrap_rlim (n - 1) = n - 1)
    by (unfold wrap_rlim; apply Z.mod_small; lia).
  rewrite Hwrap.
  split; [|split; [|split]].
  - intros Hget Hset Hcalloc.
    destruct (Z.ltb_spec (getrlimit_result k) 0); [lia|].
    destruct (Z.ltb_spec (setrlimit_result k) 0); [lia|].
    rewrite Hcalloc.
    destruct (allocate_buffers_result (Z.to_nat (n - 1))
                (replicate (Z.to_nat n) (zeroed_request ReqState zero_state)) h)
      as (rs & h' & Hrun & Hlen & Hnx & Hlive & Hslots).
    { rewrite length_replicate. lia. }
    rewrite Hrun. rewrite length_replicate in Hlen.
    assert (Hbuf : forall i, 1 <= i < n ->
               response_buffer <$> rs !! Z.to_nat i
               = Some (next_buffer h + (n - 1 - i))).
    { intros i Hi.
      rewrite (Hslots (Z.to_nat i) (zeroed_request ReqState zero_state))
        by (apply lookup_replicate_2; lia).
      destruct (decide (1 <= Z.to_nat i <= Z.to_nat (n - 1))%nat); [|lia].
      cbn. f_equal. lia. }
    eexists _, _, rs, h'. split; [reflexivity|]. split; [lia|]. split.
    + intros i Hi. eexists. split; [apply Hbuf; exact Hi|].
      split; [lia|]. apply Hlive. right. lia.
    + intros i j p Hi Hj Hpi Hpj.
      rewrite (Hbuf i Hi) in Hpi. rewrite (Hbuf j Hj) in Hpj.
      injection Hpi as <-. injection Hpj as Hpj. lia.
  - intros Hget.
    destruct (Z.ltb_spec (getrlimit_result k) 0); [reflexivity | lia].
  - intros Hget Hset.
    destruct (Z.ltb_spec (getrlimit_result k) 0); [lia|].
    destruct (Z.ltb_spec (setrlimit_result k) 0); [reflexivity | lia].
  - intros Hget Hset Hcalloc Hn1.
    destruct (Z.ltb_spec (getrlimit_result k) 0); [lia|].
    destruct (Z.ltb_spec (setrlimit_result k) 0); [lia|].
    rewrite Hcalloc.
    replace (Z.to_nat (n - 1)) with (S (Z.to_nat (n - 2))) by lia.
    reflexivity.
Qed.

(** X11.  After [lwan_init] has returned on an empty heap, [calloc] having
    returned memory, for a soft limit [n] between 1 and [INT_MAX],
    [lwan_shutdown] leaves allocated exactly the buffers of
    the slots from [max_fd * count] to [n - 1] (slot 0 apart, which has
    none): it frees every buffer when the thread count divides [n], and
    leaks the buffers of the top [n mod count] slots otherwise. *)
Theorem lwan_shutdown_leaks_the_top_slots
    (nprocessors_onln rlim_cur rlim_max : Z) (k : init_kernel)
    (count max_fd : Z) (rs : list (lwan_request_t ReqState))
    (h : strbuf_heap) :
  0 < raise_rlim_cur rlim_cur rlim_max <= INT_MAX ->
  nprocessors_onln <= INT_MAX ->
  calloc_returns_memory k = true ->
  lwan_init ReqState zero_state nprocessors_onln rlim_cur rlim_max k empty_heap
  = Some (Initialised count max_fd rs h) ->
  exists h',
    lwan_shutdown ReqState count max_fd rs h = Some h'
    /\ (forall p,
          p ∈ live_buffers h'
          <-> exists i,
                max_fd * count <= i < raise_rlim_cur rlim_cur rlim_max
                /\ 1 <= i
                /\ response_buffer <$> rs !! Z.to_nat i = Some p)
    /\ (raise_rlim_cur rlim_cur rlim_max mod count = 0 ->
        live_buffers h' = []).
Proof.
  intros Hn Hproc Hcalloc. unfold lwan_init, INT_MAX in *.
  set (n := raise_rlim_cur rlim_cur rlim_max) in *.
  assert (Hwrap : wrap_rlim (n - 1) = n - 1)
    by (unfold wrap_rlim; apply Z.mod_small; lia).
  rewrite Hwrap, Hcalloc.
  destruct (getrlimit_result k <? 0); [discriminate|].
  destruct (setrlimit_result k <? 0); [discriminate|].
  destruct (allocate_buffers_result (Z.to_nat (n - 1))
              (replicate (Z.to_nat n) (zeroed_request ReqState zero_state))
              empty_heap)
    as (rs1 & h1 & Hrun & Hlen & Hnx & Hlive & Hslots).
  { rewrite length_replicate. lia. }
  rewrite Hrun. rewrite length_replicate in Hlen.
  intros [= <- <- <- <-].
  set (count := if 0 <? nprocessors_onln then nprocessors_onln else 2) in *.
  assert (Hcount : 0 < count <= 2147483647)
    by (subst count; destruct (Z.ltb_spec 0 nprocessors_onln); lia).
  assert (Hq : 0 <= n / count <= n).
  { split; [apply Z.div_pos; lia|]. apply Z.div_le_upper_bound; nia. }
  assert (Hm : 0 <= n / count * count <= n).
  { pose proof (Z.mul_div_le n count). nia. }
  rewrite (wrap_int_small (n / count)) by (unfold INT_MIN, INT_MAX; lia).
  unfold lwan_shutdown.
  rewrite (wrap_int_small (n / count * count))
    by (unfold INT_MIN, INT_MAX; lia).
  rewrite wrap_int_small by (unfold INT_MIN, INT_MAX; lia).
  replace (n / count * count - 1 + 1) with (n / count * count) by lia.
  destruct (free_buffers_result (Z.to_nat (n / count * count)) rs1 h1)
    as (h' & Hfree & Hleft); [lia|].
  exists h'. split; [exact Hfree|].
  assert (Hbuf : forall i : nat, (i < Z.to_nat n)%nat ->
             response_buffer <$> rs1 !! i
             = Some (if decide (1 <= i)%nat then n - Z.of_nat i else 0)).
  { intros i Hi.
    rewrite (Hslots i (zeroed_request ReqState zero_state))
      by (apply lookup_replicate_2; lia).
    destruct (decide (1 <= i <= Z.to_nat (n - 1))%nat),
      (decide (1 <= i)%nat); try lia; cbn; [f_equal; lia | reflexivity]. }
  assert (Hmain : forall p,
             p ∈ live_buffers h'
             <-> exists i, n / count * count <= i < n /\ 1 <= i
                           /\ response_buffer <$> rs1 !! Z.to_nat i = Some p).
  { intros p. rewrite Hleft, Hlive. cbn [empty_heap live_buffers next_buffer].
    split.
    - intros [[Hp | Hp] Hnot]; [inversion Hp|].
      exists (n - p).
      assert (Hb : response_buffer <$> rs1 !! Z.to_nat (n - p) = Some p).
      { rewrite Hbuf by lia.
        destruct (decide (1 <= Z.to_nat (n - p))%nat); [f_equal; lia | lia]. }
      split; [|split; [lia | exact Hb]]. split; [|lia].
      destruct (Z_lt_le_dec (n - p) (n / count * count)) as [Hlt | Hge];
        [|exact Hge].
      exfalso. apply Hnot.
      destruct (rs1 !! Z.to_nat (n - p)) as [r|] eqn:Hr; [|discriminate].
      injection Hb as <-. apply list_elem_of_fmap_2, elem_of_take.
      exists (Z.to_nat (n - response_buffer r)). split; [exact Hr | lia].
    - intros (i & Hi & Hi1 & Hb).
      rewrite Hbuf in Hb by lia.
      destruct (decide (1 <= Z.to_nat i)%nat); [|lia].
      injection Hb as <-. split; [right; lia|].
      intros Hin. apply list_elem_of_fmap in Hin as (r & Hr & Hin).
      apply elem_of_take in Hin as (j & Hj & Hjm).
      assert (Hbj := Hbuf j ltac:(lia)). rewrite Hj in Hbj. cbn in Hbj.
      injection Hbj as Hbj.
      destruct (decide (1 <= j)%nat); lia. }
  split; [exact Hmain|].
  intros Hdiv.
  assert (Hfull : n / count * count = n).
  { pose proof (Z.div_mod n count ltac:(lia)). lia. }
  destruct (live_buffers h') as [|p ps] eqn:Hl; [reflexivity|].
  exfalso. destruct (proj1 (Hmain p)) as (i & Hi & _);
    [rewrite ?Hl; apply elem_of_cons; left; reflexivity | lia].
Qed.

End BufferLifecycle.

(** ** The acceptor and the dispatcher together *)

Section AcceptorDispatch.

Variable l : lwan_t.
Variable threads_epoll_fd : list Z.
Variable accept4 : nat -> Z.
Variable epoll_ctl_add : Z -> Z -> Z.

Abbreviation pushes := (_push_request_fd l threads_epoll_fd epoll_ctl_add).
Abbreviation accept_pass := (accept_loop l threads_epoll_fd accept4 epoll_ctl_add).

Lemma push_request_fd_inv (a : acceptor) (fd : Z) (tr : list acceptor_call)
    (s : acceptor_state) :
  pushes a fd = Some (tr, s) ->
  exists epoll_fd mask,
    array_get threads_epoll_fd (Z.rem (counter a) (thread_count l))
    = Some epoll_fd
    /\ (if epoll_ctl_add epoll_fd fd <? 0 then
          tr = [EpollCtlAdd epoll_fd fd mask; AcceptorPerror "epoll_ctl";
                Exit (-1)]
          /\ s = Exited
        else
          tr = [EpollCtlAdd epoll_fd fd mask]
          /\ s = Accepting {| counter := wrap_int (counter a + 1);
                              accept4_calls := accept4_calls a |}).
Proof.
  unfold _push_request_fd, _schedule_request.
  destruct (Z.eqb_spec (thread_count l) 0) as [|Hn]; [discriminate|].
  destruct (array_get threads_epoll_fd _) as [epoll_fd|] eqn:Hget;
    [|discriminate].
  intros Hrun. exists epoll_fd. eexists. split; [reflexivity|].
  destruct (epoll_ctl_add epoll_fd fd <? 0); injection Hrun as <- <-; auto.
Qed.

(** The registrations of a pass that does not end the process: one for each
    fd dispatched, to the epoll fds the round-robin counter selects. *)
Lemma accept_loop_registrations (n : nat) (a a' : acceptor)
    (tr : list acceptor_call) :
  0 < thread_count l ->
  accept_pass n a = Some (tr, Accepting a') ->
  0 <= counter a ->
  counter a + Z.of_nat n <= INT_MAX ->
  counter a' = counter a + Z.of_nat (length (registrations tr))
  /\ snd <$> registrations tr = dispatched_fds tr
  /\ (forall (j : nat) epoll_fd fd,
        registrations tr !! j = Some (epoll_fd, fd) ->
        array_get threads_epoll_fd
          ((counter a + Z.of_nat j) mod thread_count l)
        = Some epoll_fd).
Proof.
  intros Hcount. revert a tr.
  induction n as [|n IH]; intros a tr Hrun Hc Hmax.
  - cbn in Hrun. injection Hrun as <- <-. cbn.
    split; [lia|]. split; [reflexivity|]. intros j e fd Hj. inversion Hj.
  - cbn [accept_loop] in Hrun.
    destruct (accept4 (accept4_calls a) <? 0).
    + destruct (accept_pass n _) as [[tr1 s1]|] eqn:Hrest; [|discriminate].
      injection Hrun as <- ->.
      destruct (IH _ _ Hrest) as (Hcnt & Hsnd & Htgt); [cbn; lia | cbn; lia |].
      cbn in Hcnt, Htgt. split; [exact Hcnt|]. split; [exact Hsnd | exact Htgt].
    + destruct (pushes _ _) as [[trp [a2|]]|] eqn:Hpush; try discriminate.
      destruct (accept_pass n a2) as [[tr1 s1]|] eqn:Hrest; [|discriminate].
      injection Hrun as <- ->.
      destruct (push_request_fd_inv _ _ _ _ Hpush)
        as (epoll_fd & mask & Hget & Hcase).
      cbn [counter accept4_calls] in Hget, Hcase.
      destruct (epoll_ctl_add epoll_fd _ <? 0);
        destruct Hcase as [-> Hs]; [discriminate|].
      injection Hs as ->.
      assert (Hw : wrap_int (counter a + 1) = counter a + 1)
        by (apply wrap_int_small; unfold INT_MIN, INT_MAX in *; lia).
      destruct (IH _ _ Hrest) as (Hcnt & Hsnd & Htgt);
        [cbn; lia | cbn; lia |].
      cbn [counter] in Hcnt, Htgt. rewrite Hw in Hcnt, Htgt.
      cbn [app].
      change (dispatched_fds (Accept4 SOCK_NONBLOCK
                :: EpollCtlAdd epoll_fd (accept4 (accept4_calls a)) mask :: tr1))
        with (accept4 (accept4_calls a) :: dispatched_fds tr1).
      change (registrations (Accept4 SOCK_NONBLOCK
                :: EpollCtlAdd epoll_fd (accept4 (accept4_calls a)) mask :: tr1))
        with ((epoll_fd, accept4 (accept4_calls a)) :: registrations tr1).
      split; [cbn [length]; lia|]. split; [cbn; f_equal; exact Hsnd|].
      intros [|j] e fd Hj.
      * cbn in Hj. injection Hj as <- <-. rewrite Z.add_0_r.
        rewrite <- Hget. f_equal. symmetry. apply Z.rem_mod_nonneg; lia.
      * cbn in Hj. rewrite <- (Htgt j e fd Hj). do 2 f_equal. lia.
Qed.

(** X12.  In a pass of the acceptor that does not end the process, while the
    counter stays within [int], only accepted connections take a round-robin
    turn: the counter advances by the number of fds registered (a failed
    [accept4] does not move it), the fds registered are the answers of
    [accept4] that are not negative, in the order of the calls, and the
    [j]-th of them is added to the epoll fd of worker
    [(counter + j) mod count]. *)
Theorem accepted_connections_take_turns (n : nat) (a a' : acceptor)
    (tr : list acceptor_call) :
  0 < thread_count l ->
  accept_pass n a = Some (tr, Accepting a') ->
  0 <= counter a ->
  counter a + Z.of_nat n <= INT_MAX ->
  counter a' = counter a + Z.of_nat (length (registrations tr))
  /\ snd <$> registrations tr
     = filter (fun fd => 0 <= fd) (accept4_answers accept4 (accept4_calls a) n)
  /\ (forall (j : nat) epoll_fd fd,
        registrations tr !! j = Some (epoll_fd, fd) ->
        array_get threads_epoll_fd
          ((counter a + Z.of_nat j) mod thread_count l)
        = Some epoll_fd).
Proof.
  intros Hcount Hrun Hc Hmax.
  destruct (accept_loop_registrations n a a' tr Hcount Hrun Hc Hmax)
    as (Hcnt & Hsnd & Htgt).
  destruct (accept_loop_calls _ _ _ _ _ _ _ _ Hrun) as (_ & _ & Hd & _).
  split; [exact Hcnt|]. split; [|exact Htgt].
  rewrite Hsnd. exact Hd.
Qed.

(** X13.  A pass of the acceptor ends the process only through a failed
    [epoll_ctl (ADD)]: the trace then ends with that call, the log line and
    [exit (-1)], and [exit] is called nowhere before. *)
Theorem acceptor_exits_only_on_failed_registration (n : nat) (a : acceptor)
    (tr : list acceptor_call) :
  accept_pass n a = Some (tr, Exited) ->
  exists tr0 epoll_fd fd mask,
    tr = tr0 ++ [EpollCtlAdd epoll_fd fd mask; AcceptorPerror "epoll_ctl";
                 Exit (-1)]
    /\ epoll_ctl_add epoll_fd fd < 0
    /\ exits tr0 = [].
Proof.
  revert a tr. induction n as [|n IH]; intros a tr Hrun.
  - cbn in Hrun. discriminate.
  - cbn [accept_loop] in Hrun.
    destruct (accept4 (accept4_calls a) <? 0).
    + destruct (accept_pass n _) as [[tr1 s1]|] eqn:Hrest; [|discriminate].
      injection Hrun as <- ->.
      destruct (IH _ _ Hrest) as (tr0 & e & fd & mask & -> & Hneg & Hex).
      exists (Accept4 SOCK_NONBLOCK :: AcceptorPerror "accept" :: tr0), e, fd, mask.
      split; [reflexivity|]. split; [exact Hneg | exact Hex].
    + destruct (pushes _ _) as [[trp [a2|]]|] eqn:Hpush; try discriminate.
      * destruct (accept_pass n a2) as [[tr1 s1]|] eqn:Hrest; [|discriminate].
        injection Hrun as <- ->.
        destruct (push_request_fd_inv _ _ _ _ Hpush)
          as (epoll_fd & mask0 & _ & Hcase).
        destruct (epoll_ctl_add epoll_fd _ <? 0);
          destruct Hcase as [-> Hs]; [discriminate|].
        destruct (IH _ _ Hrest) as (tr0 & e & fd & mask & -> & Hneg & Hex).
        exists (Accept4 SOCK_NONBLOCK
                  :: EpollCtlAdd epoll_fd (accept4 (accept4_calls a)) mask0
                  :: tr0), e, fd, mask.
        split; [reflexivity|]. split; [exact Hneg | exact Hex].
      * injection Hrun as <-.
        destruct (push_request_fd_inv _ _ _ _ Hpush)
          as (epoll_fd & mask0 & _ & Hcase).
        destruct (Z.ltb_spec (epoll_ctl_add epoll_fd (accept4 (accept4_calls a))) 0);
          destruct Hcase as [-> Hs]; [|discriminate].
        exists [Accept4 SOCK_NONBLOCK], epoll_fd, (accept4 (accept4_calls a)), mask0.
        split; [reflexivity|]. split; [assumption | reflexivity].
Qed.

End AcceptorDispatch.

(** ** The listening socket *)

(** X14.  [_socket_init] either leaves a listening socket or exits with
    status -1.  It succeeds exactly when every call it makes succeeds (the
    linger option counts only when enabled); the socket it leaves is the one
    [socket] returned, it is not closed, and the last call is [listen] with a
    backlog of [count * max_fd].  When it exits, [exit] is its last call, and
    it has closed the socket once if [socket] had returned one, and nothing
    otherwise. *)
Theorem socket_init_listens_or_closes_and_exits (l : lwan_t) (port : Z)
    (enable_linger : bool) (k : socket_kernel) :
  let '(tr, s) := _socket_init l port enable_linger k in
  match s with
  | Listening main_socket =>
    main_socket = socket_result k
    /\ socket_closes tr = []
    /\ last tr
       = Some (Listen main_socket (wrap_int (thread_count l * thread_max_fd l)))
    /\ (0 <= socket_result k /\ 0 <= setsockopt_reuseaddr_result k
        /\ (enable_linger = true -> 0 <= setsockopt_linger_result k)
        /\ 0 <= bind_result k /\ 0 <= listen_result k)
  | SocketExited status =>
    status = -1
    /\ last tr = Some (SocketExit (-1))
    /\ socket_closes tr
       = (if socket_result k <? 0 then [] else [socket_result k])
    /\ ~ (0 <= socket_result k /\ 0 <= setsockopt_reuseaddr_result k
          /\ (enable_linger = true -> 0 <= setsockopt_linger_result k)
          /\ 0 <= bind_result k /\ 0 <= listen_result k)
  end.
Proof.
  unfold _socket_init.
  destruct (Z.ltb_spec (socket_result k) 0) as [Hs | Hs].
  { cbn. repeat split; try reflexivity. lia. }
  destruct (Z.ltb_spec (setsockopt_reuseaddr_result k) 0) as [Hr | Hr].
  { cbn. destruct (Z.ltb_spec (socket_result k) 0); [lia|].
    repeat split; try reflexivity. lia. }
  destruct enable_linger;
    destruct (Z.ltb_spec (setsockopt_linger_result k) 0) as [Hl | Hl];
    cbn [andb];
    try (cbn; destruct (Z.ltb_spec (socket_result k) 0); [lia|];
         repeat split; try reflexivity;
         intros (_ & _ & Hlin & _); specialize (Hlin eq_refl); lia);
    destruct (Z.ltb_spec (bind_result k) 0) as [Hb | Hb];
    try (cbn; destruct (Z.ltb_spec (socket_result k) 0); [lia|];
         repeat split; try reflexivity; lia);
    destruct (Z.ltb_spec (listen_result k) 0) as [Hli | Hli];
    cbn; try (destruct (Z.ltb_spec (socket_result k) 0); [lia|]);
    repeat split; try reflexivity; try lia; try discriminate.
Qed.

Lemma socket_init_listening_closes_nothing (l : lwan_t) (port : Z)
    (enable_linger : bool) (k : socket_kernel) (tr : list socket_call)
    (main_socket : Z) :
  _socket_init l port enable_linger k = (tr, Listening main_socket) ->
  socket_closes tr = [].
Proof.
  unfold _socket_init.
  destruct (socket_result k <? 0); [discriminate|].
  destruct (setsockopt_reuseaddr_result k <? 0); [discriminate|].
  destruct (enable_linger && (setsockopt_linger_result k <? 0));
    [discriminate|].
  destruct (bind_result k <? 0); [discriminate|].
  destruct (listen_result k <? 0); [discriminate|].
  intros [= <- _]. destruct enable_linger; reflexivity.
Qed.

(** X15.  A listening socket that [_socket_init] left is closed exactly once
    by [_socket_shutdown], whether [shutdown] fails or not, and the process
    exits, with status -4, exactly when [shutdown] fails. *)
Theorem listening_socket_is_closed_once (l : lwan_t) (port : Z)
    (enable_linger : bool) (k : socket_kernel) (tr : list socket_call)
    (main_socket shutdown_result : Z) :
  _socket_init l port enable_linger k = (tr, Listening main_socket) ->
  socket_closes (tr ++ fst (_socket_shutdown main_socket shutdown_result))
  = [main_socket]
  /\ snd (_socket_shutdown main_socket shutdown_result)
     = (if shutdown_result <? 0 then Some (-4) else None)
  /\ last (fst (_socket_shutdown main_socket shutdown_result))
     = Some (if shutdown_result <? 0 then SocketExit (-4)
             else SocketClose main_socket).
Proof.
  intros Hinit.
  pose proof (socket_init_listening_closes_nothing _ _ _ _ _ _ Hinit)
    as Hclosed.
  unfold socket_closes in *. rewrite omap_app, Hclosed.
  unfold _socket_shutdown. destruct (shutdown_result <? 0); cbn; auto.
Qed.

(** ** The worker threads *)

Section Threads.

Variable enable_thread_affinity : bool.
Variable kernel : Z -> thread_kernel.

(** What a successful [_create_thread] leaves and calls. *)
Lemma create_thread_created (thread_n : Z) (k : thread_kernel)
    (tr : list thread_call) (thread : lwan_thread_t) :
  _create_thread enable_thread_affinity thread_n k = (tr, Some thread) ->
  thread = {| epoll_fd := epoll_create1_result k; id := created_id k |}
  /\ thread_creations tr = [thread_n]
  /\ thread_exits tr = [].
Proof.
  unfold _create_thread.
  destruct (epoll_create1_result k <? 0); [discriminate|].
  destruct (negb (attr_init_result k =? 0)); [discriminate|].
  destruct (negb (attr_setscope_result k =? 0)); [discriminate|].
  destruct (negb (attr_setdetachstate_result k =? 0)); [discriminate|].
  destruct (negb (pthread_create_result k =? 0)); [discriminate|].
  destruct (enable_thread_affinity && negb (setaffinity_result k =? 0));
    [discriminate|].
  destruct (negb (attr_destroy_result k =? 0)); [discriminate|].
  intros [= <- <-]. destruct enable_thread_affinity; auto.
Qed.

(** What a failed [_create_thread] calls: [exit (-1)] last, once. *)
Lemma create_thread_exited (thread_n : Z) (k : thread_kernel)
    (tr : list thread_call) :
  _create_thread enable_thread_affinity thread_n k = (tr, None) ->
  last tr = Some (ThreadExit (-1)) /\ thread_exits tr = [-1].
Proof.
  unfold _create_thread.
  repeat match goal with
    | |- context [if ?b then _ else _] => destruct b
    end; intros [= <-] || discriminate; auto.
Qed.

Lemma thread_calls_app (tr tr' : list thread_call) :
  thread_creations (tr ++ tr') = thread_creations tr ++ thread_creations tr'
  /\ thread_exits (tr ++ tr') = thread_exits tr ++ thread_exits tr'.
Proof. unfold thread_creations, thread_exits. rewrite !omap_app. auto. Qed.

Lemma create_threads_created (n : nat) (threads threads' : list lwan_thread_t)
    (tr : list thread_call) :
  create_threads enable_thread_affinity kernel n threads
  = Some (tr, Some threads') ->
  length threads' = length threads
  /\ (forall i : nat, (i < n)%nat ->
        threads' !! i = Some (thread_of_kernel kernel (Z.of_nat i)))
  /\ (forall i : nat, (n <= i)%nat -> threads' !! i = threads !! i)
  /\ thread_creations tr = Z.of_nat <$> reverse (seq 0 n)
  /\ thread_exits tr = [].
Proof.
  revert threads tr. induction n as [|n IH]; intros threads tr Hrun.
  - cbn in Hrun. injection Hrun as <- <-.
    split; [reflexivity|]. split; [lia|]. auto.
  - cbn [create_threads] in Hrun.
    destruct (array_get threads (Z.of_nat n)) as [thread0|]; [|discriminate].
    destruct (_create_thread _ _ _) as [tr1 [thread|]] eqn:Hone;
      [|discriminate].
    destruct (array_set threads (Z.of_nat n) thread) as [threads1|] eqn:Hset;
      [|discriminate].
    destruct (create_threads _ _ n threads1) as [[tr2 r]|] eqn:Hrest;
      [|discriminate].
    injection Hrun as <- ->.
    apply array_set_inv in Hset as [-> Hn]. rewrite Nat2Z.id in *.
    destruct (create_thread_created _ _ _ _ Hone) as (-> & Hc1 & He1).
    destruct (IH _ _ Hrest) as (Hlen & Hlow & Hhigh & Hc2 & He2).
    rewrite length_insert in Hlen.
    destruct (thread_calls_app tr1 tr2) as [-> ->].
    rewrite Hc1, He1, Hc2, He2.
    split; [exact Hlen|]. split; [|split; [|split; [|reflexivity]]].
    + intros i Hi. destruct (decide (i = n)) as [-> | Hne].
      * rewrite Hhigh by lia. apply list_lookup_insert_eq. lia.
      * apply Hlow. lia.
    + intros i Hi. rewrite Hhigh by lia.
      apply list_lookup_insert_ne. lia.
    + rewrite seq_S, reverse_snoc. reflexivity.
Qed.

Lemma close_epoll_fds_all (n : nat) (threads : list lwan_thread_t) :
  (n <= length threads)%nat ->
  close_epoll_fds n threads
  = Some ((fun t => EpollClose (epoll_fd t)) <$> reverse (take n threads)).
Proof.
  induction n as [|n IH]; intros Hn; [reflexivity|].
  cbn [close_epoll_fds].
  destruct (array_get_in_range threads (Z.of_nat n)) as [t Ht]; [lia|].
  rewrite Ht, IH by lia.
  apply array_get_Some in Ht as [_ Ht]. rewrite Nat2Z.id in Ht.
  rewrite (take_S_r _ _ _ Ht), reverse_snoc. reflexivity.
Qed.

Lemma join_threads_all (n : nat) (threads : list lwan_thread_t) :
  (n <= length threads)%nat ->
  join_threads n threads
  = Some ((fun t => PthreadJoin (id t)) <$> reverse (take n threads)).
Proof.
  induction n as [|n IH]; intros Hn; [reflexivity|].
  cbn [join_threads].
  destruct (array_get_in_range threads (Z.of_nat n)) as [t Ht]; [lia|].
  rewrite Ht, IH by lia.
  apply array_get_Some in Ht as [_ Ht]. rewrite Nat2Z.id in Ht.
  rewrite (take_S_r _ _ _ Ht), reverse_snoc. reflexivity.
Qed.

Lemma fmap_of_nat_seq (n : nat) : Z.of_nat <$> seq 0 n = seqZ 0 (Z.of_nat n).
Proof.
  apply list_eq. intros i. rewrite list_lookup_fmap.
  destruct (decide (i < n)%nat) as [Hi | Hi].
  - rewrite lookup_seq_lt by lia. rewrite lookup_seqZ_lt by lia.
    cbn. f_equal; lia.
  - rewrite lookup_seq_ge by lia. rewrite lookup_seqZ_ge by lia. reflexivity.
Qed.

(** X16.  When [_thread_init] returns, it has created the [count] threads
    from the last index down to 0 without calling [exit], and thread [i]
    holds the epoll fd and the id that were made for it.  [_thread_shutdown]
    then closes the epoll fd of every one of these threads, last index
    first, before it joins any of them, joins every one of them in the same
    order, and frees the array last. *)
Theorem threads_created_are_closed_then_joined (l : lwan_t)
    (threads0 threads : list lwan_thread_t) (tr : list thread_call) :
  0 < thread_count l <= INT_MAX ->
  Z.of_nat (length threads0) = thread_count l ->
  _thread_init l enable_thread_affinity kernel threads0
  = Some (tr, Some threads) ->
  threads = thread_of_kernel kernel <$> seqZ 0 (thread_count l)
  /\ thread_creations tr = reverse (seqZ 0 (thread_count l))
  /\ thread_exits tr = []
  /\ _thread_shutdown l threads
     = Some (((fun t => EpollClose (epoll_fd t)) <$> reverse threads)
             ++ ((fun t => PthreadJoin (id t)) <$> reverse threads)
             ++ [FreeThreads]).
Proof.
  intros Hcount Hlen0. unfold _thread_init, _thread_shutdown, INT_MAX in *.
  rewrite wrap_int_small by (unfold INT_MIN, INT_MAX; lia).
  replace (thread_count l - 1 + 1) with (thread_count l) by lia.
  intros Hrun.
  destruct (create_threads_created _ _ _ _ Hrun)
    as (Hlen & Hlow & _ & Hcre & Hex).
  assert (Hn : Z.to_nat (thread_count l) = length threads) by lia.
  split; [|split; [|split; [exact Hex|]]].
  - apply list_eq. intros i. rewrite list_lookup_fmap.
    destruct (decide (i < length threads)%nat) as [Hi | Hi].
    + rewrite Hlow by lia. rewrite lookup_seqZ_lt by lia. reflexivity.
    + rewrite lookup_ge_None_2 by lia.
      rewrite lookup_seqZ_ge by lia. reflexivity.
  - rewrite Hcre, fmap_reverse, fmap_of_nat_seq, Z2Nat.id by lia.
    reflexivity.
  - rewrite Hn, close_epoll_fds_all, join_threads_all by lia.
    rewrite firstn_all. reflexivity.
Qed.

Lemma create_threads_exited (n : nat) (threads : list lwan_thread_t)
    (tr : list thread_call) :
  create_threads enable_thread_affinity kernel n threads = Some (tr, None) ->
  last tr = Some (ThreadExit (-1))
  /\ thread_exits tr = [-1]
  /\ exists k : nat,
      thread_creations tr = Z.of_nat <$> take k (reverse (seq 0 n)).
Proof.
  revert threads tr.
  induction n as [|n IH]; intros threads tr Hrun; [discriminate|].
  cbn [create_threads] in Hrun.
  destruct (array_get threads (Z.of_nat n)) as [thread0|]; [|discriminate].
  destruct (_create_thread _ _ _) as [tr1 [thread|]] eqn:Hone.
  - destruct (array_set threads (Z.of_nat n) thread) as [threads1|];
      [|discriminate].
    destruct (create_threads _ _ n threads1) as [[tr2 r]|] eqn:Hrest;
      [|discriminate].
    injection Hrun as <- ->.
    destruct (create_thread_created _ _ _ _ Hone) as (_ & Hc1 & He1).
    destruct (IH _ _ Hrest) as (Hlast & Hex & k & Hcre).
    destruct (thread_calls_app tr1 tr2) as [-> ->].
    rewrite Hc1, He1, Hex, Hcre. split.
    { destruct tr2 as [|c tr2]; [discriminate|].
      rewrite last_app_cons. rewrite <- Hlast.
      change (c :: tr2) with ([] ++ c :: tr2). rewrite last_app_cons.
      reflexivity. }
    split; [reflexivity|]. exists (S k).
    rewrite seq_S, reverse_snoc. reflexivity.
  - injection Hrun as <-.
    destruct (create_thread_exited _ _ _ Hone) as [Hlast Hex].
    split; [exact Hlast|]. split; [exact Hex|].
    assert (Hcre : thread_creations tr1 = []
                   \/ thread_creations tr1 = [Z.of_nat n]).
    { revert Hone. unfold _create_thread.
      repeat match goal with
        | |- context [if ?b then _ else _] => destruct b
        end; intros [= <-] || discriminate; auto. }
    destruct Hcre as [-> | ->].
    + exists 0%nat. reflexivity.
    + exists 1%nat. rewrite seq_S, reverse_snoc. reflexivity.
Qed.

(** X17.  When [_thread_init] ends the process, it does so with one call of
    [exit], with status -1, as its last call, and the threads it has started
    by then are those from the last index down to some index, each once, in
    that order. *)
Theorem thread_init_exits_at_the_first_failure (l : lwan_t)
    (threads0 : list lwan_thread_t) (tr : list thread_call) :
  0 < thread_count l <= INT_MAX ->
  _thread_init l enable_thread_affinity kernel threads0 = Some (tr, None) ->
  last tr = Some (ThreadExit (-1))
  /\ thread_exits tr = [-1]
  /\ exists k : nat,
      thread_creations tr = take k (reverse (seqZ 0 (thread_count l))).
Proof.
  intros Hcount. unfold _thread_init, INT_MAX in *.
  rewrite wrap_int_small by (unfold INT_MIN, INT_MAX; lia).
  replace (thread_count l - 1 + 1) with (thread_count l) by lia.
  intros Hrun.
  destruct (create_threads_exited _ _ _ Hrun) as (Hlast & Hex & k & Hcre).
  split; [exact Hlast|]. split; [exact Hex|]. exists k.
  rewrite Hcre, fmap_take, fmap_reverse, fmap_of_nat_seq, Z2Nat.id by lia.
  reflexivity.
Qed.

End Threads.

(** ** Status lines and MIME types *)

(** With the seven values of the enumeration distinct, each has the string
    the switch gives it. *)
Lemma status_strings (c : http_statuses) :
  NoDup (known_statuses c) ->
  lwan_http_status_as_string c <$> known_statuses c
  = ["OK"; "Bad request"; "Not found"; "Forbidden"; "Not allowed";
     "Request too large"; "Internal server error"]%string.
Proof.
  unfold known_statuses. intros Hnd.
  repeat match goal with
    | H : NoDup (_ :: _) |- _ => apply NoDup_cons in H as [? H]
    end.
  repeat match goal with
    | H : _ ∉ _ :: _ |- _ => apply not_elem_of_cons in H as [? H]
    end.
  cbn [fmap list_fmap]. unfold lwan_http_status_as_string.
  rewrite !Z.eqb_refl.
  repeat match goal with
    | |- context [?a =? ?b] =>
      destruct (Z.eqb_spec a b); [congruence|]
    end.
  reflexivity.
Qed.

(** X18.  With the seven values of [lwan_http_status_t] distinct: two of
    them with the same string are the same value, none of them has the
    string ["Invalid"], and every other value has it. *)
Theorem http_status_strings_tell_statuses_apart (c : http_statuses) :
  NoDup (known_statuses c) ->
  (forall s1 s2,
     s1 ∈ known_statuses c -> s2 ∈ known_statuses c ->
     lwan_http_status_as_string c s1 = lwan_http_status_as_string c s2 ->
     s1 = s2)
  /\ (forall s, s ∈ known_statuses c ->
        lwan_http_status_as_string c s <> "Invalid"%string)
  /\ (forall s, s ∉ known_statuses c ->
        lwan_http_status_as_string c s = "Invalid"%string).
Proof.
  intros Hnd. pose proof (status_strings c Hnd) as Hstr.
  unfold known_statuses in *. cbn [fmap list_fmap] in Hstr.
  injection Hstr as H1 H2 H3 H4 H5 H6 H7.
  split; [|split].
  - intros s1 s2 Hs1 Hs2.
    repeat (apply elem_of_cons in Hs1 as [-> | Hs1]);
      [| | | | | | | inversion Hs1];
      repeat (apply elem_of_cons in Hs2 as [-> | Hs2]);
      try (inversion Hs2; fail);
      rewrite ?H1, ?H2, ?H3, ?H4, ?H5, ?H6, ?H7;
      intros Heq; try reflexivity; discriminate Heq.
  - intros s Hs.
    repeat (apply elem_of_cons in Hs as [-> | Hs]);
      [| | | | | | | inversion Hs];
      rewrite ?H1, ?H2, ?H3, ?H4, ?H5, ?H6, ?H7; discriminate.
  - intros s Hs.
    repeat match goal with
      | H : _ ∉ _ :: _ |- _ => apply not_elem_of_cons in H as [? H]
      end.
    unfold lwan_http_status_as_string.
    repeat match goal with
      | |- context [?a =? ?b] =>
        destruct (Z.eqb_spec a b); [congruence|]
      end.
    reflexivity.
Qed.

Lemma strrchr_dot_none (s : string) :
  has_dot s = false -> strrchr_dot s = None.
Proof.
  induction s as [|c s IH]; [reflexivity|]. cbn.
  destruct (Ascii.eqb c "."); [discriminate|]. cbn.
  intros Hs. rewrite (IH Hs). reflexivity.
Qed.

Lemma strrchr_dot_append (prefix s t : string) :
  strrchr_dot s = Some t -> strrchr_dot (prefix ++ s) = Some t.
Proof.
  intros Hs. induction prefix as [|c prefix IH]; [exact Hs|].
  cbn. rewrite IH. reflexivity.
Qed.

(** X19.  The MIME type of a file name is one of the seven the function
    knows; it is ["application/octet-stream"] when the name has no dot; and
    it is decided by the part of the name from its last dot on: whatever
    stands before that dot does not change it. *)
Theorem mime_type_is_decided_by_the_last_extension
    (string_switch : string -> option extension) :
  (forall file_name,
     lwan_determine_mime_type_for_file_name string_switch file_name
     ∈ mime_types)
  /\ (forall file_name,
        has_dot file_name = false ->
        lwan_determine_mime_type_for_file_name string_switch file_name
        = "application/octet-stream"%string)
  /\ (forall prefix ext,
        has_dot ext = false ->
        lwan_determine_mime_type_for_file_name string_switch
          (prefix ++ String "." ext)
        = lwan_determine_mime_type_for_file_name string_switch
            (String "." ext)).
Proof.
  split; [|split].
  - intros file_name. unfold lwan_determine_mime_type_for_file_name, mime_types.
    destruct (strrchr_dot file_name) as [t|];
      [destruct (string_switch t) as [[]|]|];
      rewrite !elem_of_cons; repeat (first [left; reflexivity | right]).
  - intros file_name Hdot. unfold lwan_determine_mime_type_for_file_name.
    rewrite (strrchr_dot_none _ Hdot). reflexivity.
  - intros prefix ext Hext. unfold lwan_determine_mime_type_for_file_name.
    assert (Hlast : strrchr_dot (String "." ext) = Some (String "." ext)).
    { cbn. rewrite (strrchr_dot_none _ Hext). reflexivity. }
    rewrite (strrchr_dot_append prefix _ _ Hlast), Hlast. reflexivity.
Qed.

(** ** The URL map *)

Lemma add_url_map_entries_terminated (entry : nat) (ps : list string)
    (last_entry : lwan_url_map_t) (rest : list lwan_url_map_t)
    (lens : list Z) :
  length lens = length ps ->
  prefix last_entry = None ->
  exists tr,
    add_url_map_entries entry
      (zip_with (fun p n => {| prefix := Some p; prefix_len := n |}) ps lens
         ++ last_entry :: rest)
    = Some (tr,
            ((fun p => {| prefix := Some p;
                          prefix_len := Z.of_nat (String.length p) |}) <$> ps)
              ++ last_entry :: rest)
    /\ trie_additions tr = ps.
Proof.
  intros Hlen Hend. revert entry lens Hlen.
  induction ps as [|p ps IH]; intros entry lens Hlen.
  - destruct lens; [|discriminate]. cbn. rewrite Hend. eauto.
  - destruct lens as [|n lens]; [discriminate|]. cbn.
    destruct (IH (S entry) lens) as (tr & -> & Hadd); [cbn in Hlen; lia|].
    eexists. split; [reflexivity|].
    unfold trie_additions in *. cbn. f_equal. exact Hadd.
Qed.

Lemma add_url_map_entries_unterminated (entry : nat)
    (url_map : list lwan_url_map_t) :
  Forall (fun e => prefix e <> None) url_map ->
  add_url_map_entries entry url_map = None.
Proof.
  intros Hall. revert entry. induction Hall as [|e rest He _ IH]; intros entry.
  - reflexivity.
  - cbn. destruct (prefix e); [|contradiction]. rewrite IH. reflexivity.
Qed.

(** X20.  On a table whose first entry without a prefix comes after the
    entries of prefixes [ps], [lwan_set_url_map] destroys the old trie, makes
    a new one, adds the prefixes [ps] to it in table order, writes into each
    of these entries the length of its prefix, and leaves the ending entry
    and all that follows it as they were.  On a table in which every entry
    has a prefix the walk runs off the end of the array: there is no
    result. *)
Theorem set_url_map_fills_lengths_up_to_the_end_entry (ps : list string)
    (lens : list Z) (last_entry : lwan_url_map_t)
    (rest : list lwan_url_map_t) :
  length lens = length ps ->
  prefix last_entry = None ->
  (exists tr,
     lwan_set_url_map true
       (zip_with (fun p n => {| prefix := Some p; prefix_len := n |}) ps lens
          ++ last_entry :: rest)
     = Some (TrieDestroy :: TrieNew :: tr,
             Some (((fun p => {| prefix := Some p;
                                 prefix_len := Z.of_nat (String.length p) |})
                      <$> ps)
                   ++ last_entry :: rest))
     /\ trie_additions tr = ps)
  /\ lwan_set_url_map true
       (zip_with (fun p n => {| prefix := Some p; prefix_len := n |}) ps lens)
     = None.
Proof.
  intros Hlen Hend. split.
  - destruct (add_url_map_entries_terminated 0 ps last_entry rest lens Hlen Hend)
      as (tr & Hrun & Hadd).
    exists tr. unfold lwan_set_url_map. rewrite Hrun. auto.
  - unfold lwan_set_url_map.
    rewrite add_url_map_entries_unterminated; [reflexivity|].
    clear Hend. revert lens Hlen.
    induction ps as [|p ps IH]; intros lens Hlen; [constructor|].
    destruct lens as [|n lens]; [discriminate|]. cbn.
    constructor; [discriminate|]. apply IH. cbn in Hlen. lia.
Qed.

(** ** Worked runs of the further properties *)


(** A request on fd 7 that is not kept alive: the slot ends not alive and
    fd 7 is closed once. *)
Lemma handle_event_alive_and_closed_witness :
  exists tr w' request',
    handle_event tt keep_alive_as_told small_server two_idle_connections
      (readable 7 false) = Some (tr, w')
    /\ array_get (requests w') 7 = Some request'
    /\ flags_alive request' = flags_is_keep_alive request'
    /\ closed tr = if flags_alive request' then [] else [7].
Proof.
  eexists _, _.
  destruct (handle_event_alive_and_closed tt keep_alive_as_told small_server
              two_idle_connections _ (readable 7 false) _ eq_refl)
    as (request' & Hget & _ & Halive & Hclosed).
  exists request'. split; [reflexivity|]. split; [exact Hget|].
  split; [apply Halive; reflexivity | exact Hclosed].
Defined.

(** The processor of the worked runs leaves the buffer pointer alone; after
    three passes every slot has the buffer it started with. *)
Lemma response_buffers_never_change_witness :
  (forall i r, response_buffer (keep_alive_as_told i r) = response_buffer r)
  /\ thread_reachable tt keep_alive_as_told small_server (fresh_table 8)
       updated_in_place
  /\ response_buffer <$> requests updated_in_place
     = response_buffer <$> fresh_table 8.
Proof.
  assert (Hproc : forall i r,
             response_buffer (keep_alive_as_told i r) = response_buffer r)
    by (intros i r; reflexivity).
  assert (Hreach : thread_reachable tt keep_alive_as_told small_server
                     (fresh_table 8) updated_in_place).
  { eapply (thread_run_reachable tt keep_alive_as_told small_server _
              [WaitReady [readable 5 true; readable 6 true]; WaitReady [];
               WaitReady [readable 5 true]]);
      [apply reachable_start | vm_compute; reflexivity]. }
  split; [exact Hproc|]. split; [exact Hreach|].
  exact (response_buffers_never_change tt keep_alive_as_told small_server
           Hproc (fresh_table 8) updated_in_place Hreach).
Defined.


(** Two idle connections whose deadline is reached. *)
Lemma timeout_reaps_a_prefix_in_order_witness :
  ring_ok small_server two_expiring
  /\ exists k tr w',
      thread_iteration tt keep_alive_as_told small_server two_expiring
        (WaitReady [])
      = Some (EpollWait (epoll_timeout two_expiring) :: tr, Running w')
      /\ tr = Close <$> (slot_fd (requests two_expiring)
                           <$> take k (queue_fds small_server two_expiring))
      /\ queue_fds small_server w'
         = drop k (queue_fds small_server two_expiring).
Proof.
  assert (Hok : ring_ok small_server two_expiring)
    by (apply ring_okb_sound; reflexivity).
  split; [exact Hok|].
  destruct (timeout_reaps_a_prefix_in_order tt keep_alive_as_told small_server
              two_expiring Hok)
    as (k & tr & w' & Hrun & Htr & Hq & _).
  exists k, tr, w'. auto.
Defined.

(** fd 5 kept alive at tick 0 with a timeout of 5: four timeouts close
    nothing, the fifth closes fd 5. *)
Lemma idle_head_is_reaped_at_its_deadline_witness :
  ring_ok small_server two_idle_connections
  /\ death_queue_population two_idle_connections <> 0
  /\ array_get (death_queue two_idle_connections)
       (death_queue_first two_idle_connections) = Some 5
  /\ array_get (requests two_idle_connections) 5
     = Some (used_slot 5 true true 5)
  /\ thread_run tt keep_alive_as_told small_server two_idle_connections
       (replicate 4 (WaitReady []))
     = Some (replicate 4 (EpollWait 1000),
             Running (Nat.iter 4 tick two_idle_connections))
  /\ exists tr w',
      thread_iteration tt keep_alive_as_told small_server
        (Nat.iter 4 tick two_idle_connections) (WaitReady [])
      = Some (EpollWait 1000 :: Close 5 :: tr, Running w').
Proof.
  assert (Hok : ring_ok small_server two_idle_connections)
    by (apply ring_okb_sound; reflexivity).
  assert (Hnz : death_queue_population two_idle_connections <> 0)
    by (cbn; lia).
  split; [exact Hok|]. split; [exact Hnz|]. do 2 (split; [reflexivity|]).
  destruct (idle_head_is_reaped_at_its_deadline tt keep_alive_as_told
              small_server 4 two_idle_connections 5 (used_slot 5 true true 5)
              Hok Hnz eq_refl eq_refl)
    as [Hrun Hlast]; [cbn; lia | cbn; lia | cbn; lia |].
  split; [exact Hrun|]. apply Hlast. reflexivity.
Defined.

(** A limit of 16 files, two processors, a fresh allocator, every call
    succeeding. *)
Lemma lwan_init_gives_slots_their_own_buffers_witness :
  0 < raise_rlim_cur 16 16 < 18446744073709551616
  /\ 0 < next_buffer empty_heap
  /\ 0 <= getrlimit_result init_kernel_ok
  /\ 0 <= setrlimit_result init_kernel_ok
  /\ calloc_returns_memory init_kernel_ok = true
  /\ exists count max_fd rs h',
      lwan_init unit tt 2 16 16 init_kernel_ok empty_heap
      = Some (Initialised count max_fd rs h')
      /\ Z.of_nat (length rs) = raise_rlim_cur 16 16
      /\ forall i, 1 <= i < raise_rlim_cur 16 16 ->
           exists p, response_buffer <$> rs !! Z.to_nat i = Some p
                     /\ p <> 0 /\ p ∈ live_buffers h'.
Proof.
  assert (Hn : 0 < raise_rlim_cur 16 16 < 18446744073709551616)
    by (vm_compute; split; reflexivity).
  assert (Hnext : 0 < next_buffer empty_heap) by (cbn; lia).
  assert (Hget : 0 <= getrlimit_result init_kernel_ok) by (cbn; lia).
  assert (Hset : 0 <= setrlimit_result init_kernel_ok) by (cbn; lia).
  split; [exact Hn|]. split; [exact Hnext|]. split; [exact Hget|].
  split; [exact Hset|]. split; [reflexivity|].
  destruct (proj1 (lwan_init_gives_slots_their_own_buffers tt 2 16 16
                     init_kernel_ok empty_heap Hn Hnext) Hget Hset eq_refl)
    as (count & max_fd & rs & h' & Hinit & Hlen & Hbuf & _).
  exists count, max_fd, rs, h'. auto.
Defined.

(** A limit of 16 files and three processors: the buffer of slot 15 is not
    freed. *)
Lemma lwan_shutdown_leaks_the_top_slots_witness :
  exists count max_fd rs h h',
    0 < raise_rlim_cur 16 16 <= INT_MAX
    /\ 3 <= INT_MAX
    /\ calloc_returns_memory init_kernel_ok = true
    /\ lwan_init unit tt 3 16 16 init_kernel_ok empty_heap
       = Some (Initialised count max_fd rs h)
    /\ lwan_shutdown unit count max_fd rs h = Some h'
    /\ forall p,
         p ∈ live_buffers h'
         <-> exists i, max_fd * count <= i < raise_rlim_cur 16 16
                       /\ 1 <= i
                       /\ response_buffer <$> rs !! Z.to_nat i = Some p.
Proof.
  assert (Hn : 0 < raise_rlim_cur 16 16 <= INT_MAX)
    by (vm_compute; split; [reflexivity | discriminate]).
  assert (Hp : 3 <= INT_MAX) by (vm_compute; discriminate).
  assert (Hinit : exists count max_fd rs h,
             lwan_init unit tt 3 16 16 init_kernel_ok empty_heap
             = Some (Initialised count max_fd rs h))
    by (vm_compute; eexists _, _, _, _; reflexivity).
  destruct Hinit as (count & max_fd & rs & h & Hinit).
  destruct (lwan_shutdown_leaks_the_top_slots tt 3 16 16 init_kernel_ok
              count max_fd rs h Hn Hp eq_refl Hinit)
    as (h' & Hshut & Hlive & _).
  exists count, max_fd, rs, h, h'. split; [exact Hn|]. split; [exact Hp|].
  split; [reflexivity|].
  split; [exact Hinit|]. split; [exact Hshut | exact Hlive].
Defined.

(** Three events, two connections pending, two workers: fd 5 goes to
    worker 0 and fd 6 to worker 1; the third [accept4] fails and takes no
    turn. *)
Lemma accepted_connections_take_turns_witness :
  exists tr a',
    0 < thread_count small_server
    /\ accept_loop small_server [100; 101] two_pending epoll_ctl_succeeds 3
         acceptor_start = Some (tr, Accepting a')
    /\ counter a' = counter acceptor_start + Z.of_nat (length (registrations tr))
    /\ snd <$> registrations tr
       = filter (fun fd => 0 <= fd) (accept4_answers two_pending 0 3).
Proof.
  eexists _, _. split; [cbn; lia|]. split; [vm_compute; reflexivity|].
  destruct (accepted_connections_take_turns small_server [100; 101]
              two_pending epoll_ctl_succeeds 3 acceptor_start _ _
              ltac:(cbn; lia) eq_refl ltac:(cbn; lia)
              ltac:(vm_compute; discriminate))
    as (Hcnt & Hsnd & _).
  split; [exact Hcnt | exact Hsnd].
Defined.

(** One event, a connection pending, and [epoll_ctl] failing. *)
Lemma acceptor_exits_only_on_failed_registration_witness :
  exists tr tr0 epoll_fd fd mask,
    accept_loop small_server [100; 101] two_pending epoll_ctl_fails 1
      acceptor_start = Some (tr, Exited)
    /\ tr = tr0 ++ [EpollCtlAdd epoll_fd fd mask; AcceptorPerror "epoll_ctl";
                    Exit (-1)]
    /\ exits tr0 = [].
Proof.
  eexists.
  destruct (acceptor_exits_only_on_failed_registration small_server [100; 101]
              two_pending epoll_ctl_fails 1 acceptor_start _ eq_refl)
    as (tr0 & epoll_fd & fd & mask & Htr & _ & Hex).
  exists tr0, epoll_fd, fd, mask. split; [reflexivity|].
  split; [exact Htr | exact Hex].
Defined.

(** A socket set up with linger, then shut down with [shutdown] failing. *)
Lemma listening_socket_is_closed_once_witness :
  exists tr,
    _socket_init small_server 8080 true socket_kernel_ok = (tr, Listening 3)
    /\ socket_closes (tr ++ fst (_socket_shutdown 3 (-1))) = [3]
    /\ snd (_socket_shutdown 3 (-1)) = Some (-4).
Proof.
  eexists. split; [reflexivity|].
  destruct (listening_socket_is_closed_once small_server 8080 true
              socket_kernel_ok _ 3 (-1) eq_refl)
    as (Hclosed & Hexit & _).
  split; [exact Hclosed | exact Hexit].
Defined.

(** Two threads, with affinity. *)
Lemma threads_created_are_closed_then_joined_witness :
  exists tr threads,
    0 < thread_count small_server <= INT_MAX
    /\ Z.of_nat (length unset_threads) = thread_count small_server
    /\ _thread_init small_server true thread_kernel_ok unset_threads
       = Some (tr, Some threads)
    /\ threads = thread_of_kernel thread_kernel_ok
                   <$> seqZ 0 (thread_count small_server)
    /\ thread_creations tr = [1; 0]
    /\ _thread_shutdown small_server threads
       = Some [EpollClose 11; EpollClose 10; PthreadJoin 101; PthreadJoin 100;
               FreeThreads].
Proof.
  assert (Hcount : 0 < thread_count small_server <= INT_MAX)
    by (vm_compute; split; [reflexivity | discriminate]).
  eexists _, _. split; [exact Hcount|]. split; [reflexivity|].
  split; [vm_compute; reflexivity|].
  destruct (threads_created_are_closed_then_joined true thread_kernel_ok
              small_server unset_threads _ _ Hcount eq_refl eq_refl)
    as (Hthreads & Hcre & _ & Hshut).
  split; [exact Hthreads|]. split; [exact Hcre | exact Hshut].
Defined.

(** Two threads, [pthread_create] failing for thread 0: thread 1 is started,
    thread 0 is tried, and the process exits. *)
Lemma thread_init_exits_at_the_first_failure_witness :
  exists tr,
    0 < thread_count small_server <= INT_MAX
    /\ _thread_init small_server false thread_kernel_create_fails unset_threads
       = Some (tr, None)
    /\ last tr = Some (ThreadExit (-1))
    /\ thread_exits tr = [-1].
Proof.
  assert (Hcount : 0 < thread_count small_server <= INT_MAX)
    by (vm_compute; split; [reflexivity | discriminate]).
  eexists. split; [exact Hcount|]. split; [vm_compute; reflexivity|].
  destruct (thread_init_exits_at_the_first_failure false
              thread_kernel_create_fails small_server unset_threads _
              Hcount eq_refl)
    as (Hlast & Hex & _).
  split; [exact Hlast | exact Hex].
Defined.

(** The HTTP codes 200, 400, 404, 403, 405, 413 and 500. *)
Lemma http_status_strings_tell_statuses_apart_witness :
  NoDup (known_statuses http_status_codes)
  /\ lwan_http_status_as_string http_status_codes 404 <> "Invalid"%string
  /\ lwan_http_status_as_string http_status_codes 418 = "Invalid"%string.
Proof.
  assert (Hnd : NoDup (known_statuses http_status_codes)).
  { unfold known_statuses. cbn.
    repeat (apply NoDup_cons; split;
            [rewrite ?elem_of_cons, elem_of_nil; lia|]).
    apply NoDup_nil_2. }
  split; [exact Hnd|].
  destruct (http_status_strings_tell_statuses_apart http_status_codes Hnd)
    as (_ & Hknown & Hother).
  split.
  - apply Hknown. unfold known_statuses. cbn. rewrite !elem_of_cons. lia.
  - apply Hother. unfold known_statuses. cbn.
    rewrite !elem_of_cons, elem_of_nil. lia.
Defined.

(** A table of two prefixes and the ending entry. *)
Lemma set_url_map_fills_lengths_up_to_the_end_entry_witness :
  length [0; 0] = length ["/"; "/hello"]%string
  /\ prefix url_map_end = None
  /\ exists tr,
      lwan_set_url_map true
        [url_map_entry "/"; url_map_entry "/hello"; url_map_end]
      = Some (TrieDestroy :: TrieNew :: tr,
              Some [{| prefix := Some "/"%string; prefix_len := 1 |};
                    {| prefix := Some "/hello"%string; prefix_len := 6 |};
                    url_map_end])
      /\ trie_additions tr = ["/"; "/hello"]%string.
Proof.
  split; [reflexivity|]. split; [reflexivity|].
  exact (proj1 (set_url_map_fills_lengths_up_to_the_end_entry
                  ["/"; "/hello"]%string [0; 0] url_map_end []
                  eq_refl eq_refl)).
Defined.
